(** * SGS-SLAM: the novel-view evaluation driver [scripts/eval_novel_view.py]

    A shallow embedding of the driver script and of its three helper
    functions [get_dataset], [load_scene_data] and [filter_semantic_params],
    followed by the properties of the driver that its specification states.

    Conventions of the embedding.
    - A Python [str] is the Rocq [string] of its UTF-8 bytes; [str.lower]
      is exact on ASCII text and on the characters outside ASCII whose
      lower case has an ASCII letter (see [lower]). Paths are POSIX paths.
    - A tensor holds integers, the infinities and NaN ([num]); the
      rounding of [.float()] is the rounding of [float32]. An array with a
      fractional entry is outside the model.
    - Configuration values are the inductive [value]; a Python [dict] with
      string keys is a [gmap string _], a Python [set] of strings a
      [gset string]. A loop over the keys of a dictionary visits them in
      the order of the [gmap], not in insertion order; the loops of the
      script do not depend on the order.
    - A raised exception is the [Raise] outcome of [result]; code that calls
      into other modules (dataset classes, numpy, wandb, [eval], [eval_nvs],
      [os], [shutil]) runs in the monad [M], which records every such call in
      a trace of [event]s; what the call returns is read from a [world].
    - The script is embedded from the point where the command line is
      parsed and the experiment module is loaded: [main] takes the path of
      the experiment file and the [config] dictionary of its module. *)

From Stdlib Require Import ZArith QArith Ascii String List Bool Lia.
From stdpp Require Import base decidable option list strings pretty gmap
  fin_maps.

#[local] Set Warnings "-register-all".
#[local] Open Scope string_scope.
#[local] Open Scope Z_scope.

(* ===================================================================== *)
(** ** Python strings and paths                                           *)
(* ===================================================================== *)

Definition is_upper (c : ascii) : bool :=
  let n := nat_of_ascii c in (65 <=? n)%nat && (n <=? 90)%nat.

(** [str.lower], one character. *)
Definition lower_ascii (c : ascii) : ascii :=
  if is_upper c then ascii_of_nat (nat_of_ascii c + 32) else c.

(** The characters of a string, as [str.lower] tells them apart. Two
    characters outside ASCII have a lower case with an ASCII letter in
    it: U+212A KELVIN SIGN (bytes E2 84 AA), whose lower case is [k], and
    U+0130 LATIN CAPITAL LETTER I WITH DOT ABOVE (bytes C4 B0), whose
    lower case is [i] followed by U+0307 (bytes CC 87). Every other byte
    stands for itself. *)
Inductive uchar :=
| UByte (c : ascii)
| UKelvin
| UDottedI.

(** The UTF-8 text of a string, read into its characters. *)
Fixpoint decode (s : string) : list uchar :=
  match s with
  | EmptyString => []
  | String c s' =>
      match s' with
      | EmptyString => [UByte c]
      | String c1 s'' =>
          if Ascii.eqb c (ascii_of_nat 196) && Ascii.eqb c1 (ascii_of_nat 176)
          then UDottedI :: decode s''
          else
            match s'' with
            | EmptyString => UByte c :: decode s'
            | String c2 s''' =>
                if Ascii.eqb c (ascii_of_nat 226)
                   && Ascii.eqb c1 (ascii_of_nat 132)
                   && Ascii.eqb c2 (ascii_of_nat 170)
                then UKelvin :: decode s'''
                else UByte c :: decode s'
            end
      end
  end.

(** The lower case of the characters. *)
Fixpoint lower_chars (us : list uchar) : string :=
  match us with
  | [] => EmptyString
  | UByte c :: us' => String (lower_ascii c) (lower_chars us')
  | UKelvin :: us' => String "k" (lower_chars us')
  | UDottedI :: us' =>
      String "i" (String (ascii_of_nat 204)
                    (String (ascii_of_nat 135) (lower_chars us')))
  end.

(** [str.lower]. It is exact on ASCII text, on the Kelvin sign and on the
    dotted capital I. Any other character outside ASCII is left as it
    is, where Python gives a character outside ASCII as well: the result
    is ASCII text exactly when Python's is, and is Python's then. *)
Definition lower (s : string) : string := lower_chars (decode s).

(** [s.startswith(p)]. *)
Fixpoint startswith (p s : string) : bool :=
  match p, s with
  | EmptyString, _ => true
  | String a p', String b s' => Ascii.eqb a b && startswith p' s'
  | String _ _, EmptyString => false
  end.

(** [s.endswith("/")]. *)
Fixpoint ends_with_sep (s : string) : bool :=
  match s with
  | EmptyString => false
  | String c EmptyString => Ascii.eqb c "/"
  | String _ s' => ends_with_sep s'
  end.

(** [x in l] for a list of strings. *)
Definition str_in (x : string) (l : list string) : bool :=
  existsb (String.eqb x) l.

(** [posixpath.join(a, b)]: an absolute [b] replaces [a]; no separator is
    added after an empty [a] or after an [a] that ends with one. *)
Definition path_join (a b : string) : string :=
  if startswith "/" b then b
  else if String.eqb a "" || ends_with_sep a then a ++ b
  else a ++ "/" ++ b.

(** [posixpath.basename(p)]: what follows the last separator. *)
Fixpoint basename (p : string) : string :=
  match p with
  | EmptyString => EmptyString
  | String c p' =>
      if Ascii.eqb c "/" then basename p'
      else if existsb (Ascii.eqb "/") (list_ascii_of_string p') then basename p'
      else p
  end.

(** The text of [s] up to its first [":"], and what follows that [":"]. *)
Fixpoint cut_colon (s : string) : string * option string :=
  match s with
  | EmptyString => (EmptyString, None)
  | String c s' =>
      if Ascii.eqb c ":" then (EmptyString, Some s')
      else let '(h, t) := cut_colon s' in (String c h, t)
  end.

(** [s.split(':')[1]]; [None] stands for the [IndexError] of a string
    without [":"]. *)
Definition split_colon_1 (s : string) : option string :=
  match cut_colon s with
  | (_, Some rest) => Some (fst (cut_colon rest))
  | (_, None) => None
  end.

(* ===================================================================== *)
(** ** Values, exceptions and results                                     *)
(* ===================================================================== *)

(** The Python values a configuration record holds. A [float] is held by
    its exact rational value. *)
Inductive value :=
| VNone
| VBool (b : bool)
| VInt (z : Z)
| VFloat (q : Q)
| VStr (s : string)
| VDict (d : gmap string value).

Inductive exn :=
| KeyError (key : string)
| TypeError
| AttributeError
| IndexError
| ValueError (msg : string)
| RuntimeError (msg : string)
| OSError (msg : string).

Inductive result (A : Type) :=
| Ok (a : A)
| Raise (e : exn).
Arguments Ok {A} a.
Arguments Raise {A} e.

(** Truth value of a Python object, as [if v:] tests it. *)
Definition truthy (v : value) : bool :=
  match v with
  | VNone => false
  | VBool b => b
  | VInt z => negb (z =? 0)
  | VFloat q => negb (Qeq_bool q 0)
  | VStr s => negb (String.eqb s "")
  | VDict d => negb (Nat.eqb (size d) 0)
  end.

(** [v == z] for an integer literal [z]. *)
Definition py_eq_int (v : value) (z : Z) : bool :=
  match v with
  | VBool b => Z.b2z b =? z
  | VInt z' => z' =? z
  | VFloat q => Qeq_bool q (inject_Z z)
  | _ => false
  end.

(** [d[k]] on a dictionary. *)
Definition getitem (d : gmap string value) (k : string) : result value :=
  match d !! k with
  | Some v => Ok v
  | None => Raise (KeyError k)
  end.

(** [v[k]] with a string key [k], on any value: only a dictionary can be
    subscripted by a string. *)
Definition subscript (v : value) (k : string) : result value :=
  match v with
  | VDict d => getitem d k
  | _ => Raise TypeError
  end.

(** [k in d] / [k not in d] is [bool_decide (is_Some (d !! k))]; as a
    function: *)
Definition has_key (d : gmap string value) (k : string) : bool :=
  match d !! k with Some _ => true | None => false end.

(** A value used where the library wants a [str] path
    ([os.path.join], [os.path.basename]). *)
Definition as_str (v : value) : result string :=
  match v with
  | VStr s => Ok s
  | _ => Raise TypeError
  end.

(** [v.lower()]: an attribute of [str] only. *)
Definition str_lower (v : value) : result string :=
  match v with
  | VStr s => Ok (lower s)
  | _ => Raise AttributeError
  end.

(* ===================================================================== *)
(** ** Arrays and tensors                                                 *)
(* ===================================================================== *)

(** Element types of a [torch] tensor. *)
Inductive dtype :=
| Float16 | Float32 | Float64
| UInt8 | Int8 | Int16 | Int32 | Int64
| BoolT.

Definition is_floating_point (d : dtype) : bool :=
  match d with
  | Float16 | Float32 | Float64 => true
  | _ => false
  end.

(** Element types of a [numpy] array: those of [dtype], which
    [torch.tensor] converts, and those it rejects (object arrays,
    strings). Arrays of the wider unsigned integers and of complex
    numbers, which some versions of [torch] convert and others reject,
    are outside the model. *)
Inductive np_dtype :=
| Numeric (d : dtype)
| Unsupported.

(** The numbers a tensor holds: the integers, the two infinities and
    NaN. *)
Inductive num :=
| Fin (z : Z)
| PInf
| NInf
| NaN.

Coercion Fin : Z >-> num.

(** [a == b] on numbers: NaN equals nothing, itself included. *)
Definition num_eqb (a b : num) : bool :=
  match a, b with
  | Fin x, Fin y => Z.eqb x y
  | PInf, PInf => true
  | NInf, NInf => true
  | _, _ => false
  end.

(** The [float32] nearest to the integer [x], a tie going to the even
    significand: [float32] has 24 bits of significand, and the integers
    that round to [2 ^ 128] or more in size become an infinity. *)
Definition float32_of_Z (x : Z) : num :=
  let a := Z.abs x in
  if a <? 2 ^ 24 then Fin x
  else
    let e := Z.log2 a - 23 in
    let q := Z.shiftr a e in
    let r := Z.land a (Z.ones e) in
    let half := Z.shiftl 1 (e - 1) in
    let q' :=
      if r <? half then q
      else if half <? r then q + 1
      else if Z.even q then q else q + 1 in
    let v := Z.shiftl q' e in
    if 2 ^ 128 <=? v then (if x <? 0 then NInf else PInf)
    else Fin (Z.sgn x * v).

(** A number, converted to [float32]. *)
Definition to_float32 (n : num) : num :=
  match n with
  | Fin x => float32_of_Z x
  | _ => n
  end.

(** The numbers of an array. [Scalar0 x] is a 0-dimensional array;
    [Rows trail rows] has shape [length rows :: trail] and holds, for each
    index of its first dimension, the slice at that index, flattened. *)
Inductive tdata :=
| Scalar0 (x : num)
| Rows (trail : list nat) (rows : list (list num)).

(** Rows of integers. *)
Definition ints (rows : list (list Z)) : list (list num) :=
  map (map Fin) rows.

(** A conversion of every number of an array. *)
Definition map_tdata (f : num → num) (d : tdata) : tdata :=
  match d with
  | Scalar0 x => Scalar0 (f x)
  | Rows trail rows => Rows trail (map (map f) rows)
  end.

Record ndarray := {
  a_dtype : np_dtype;
  a_data : tdata
}.

Record tensor := {
  t_dtype : dtype;
  t_device : string;
  t_requires_grad : bool;
  t_data : tdata
}.

(** What a slot of the [params] dictionary holds: [np.load] fills it with
    arrays, [load_scene_data] overwrites each slot with a tensor. *)
Inductive pval :=
| PArr (a : ndarray)
| PTen (t : tensor).

(** Size of the first dimension; a 0-dimensional tensor has none. *)
Definition num_rows (d : tdata) : option nat :=
  match d with
  | Scalar0 _ => None
  | Rows _ rows => Some (length rows)
  end.

(** [torch.tensor(x)]: a fresh CPU tensor that does not track gradients. *)
Definition torch_tensor (x : pval) : result tensor :=
  match x with
  | PArr a =>
      match a_dtype a with
      | Numeric d =>
          Ok {| t_dtype := d; t_device := "cpu";
                t_requires_grad := false; t_data := a_data a |}
      | Unsupported => Raise TypeError
      end
  | PTen t =>
      Ok {| t_dtype := t_dtype t; t_device := t_device t;
            t_requires_grad := false; t_data := t_data t |}
  end.

(** [t.float()]: every number is rounded to [float32]. *)
Definition float (t : tensor) : tensor :=
  {| t_dtype := Float32; t_device := t_device t;
     t_requires_grad := t_requires_grad t;
     t_data := map_tdata to_float32 (t_data t) |}.

(** [t.requires_grad_(b)]: only floating-point tensors can track
    gradients. *)
Definition requires_grad_ (b : bool) (t : tensor) : result tensor :=
  if negb b || is_floating_point (t_dtype t) then
    Ok {| t_dtype := t_dtype t; t_device := t_device t;
          t_requires_grad := b; t_data := t_data t |}
  else Raise (RuntimeError "only floating point tensors can require gradients").

(** Replace the numbers of a tensor, keeping its other attributes. *)
Definition with_data (t : tensor) (d : tdata) : tensor :=
  {| t_dtype := t_dtype t; t_device := t_device t;
     t_requires_grad := t_requires_grad t; t_data := d |}.

(* ===================================================================== *)
(** ** The collaborators of the driver                                    *)
(* ===================================================================== *)

Inductive dataset_class :=
| ICLDataset
| ReplicaDataset
| ReplicaV2Dataset
| AzureKinectDataset
| ScannetDataset
| Ai2thorDataset
| Record3DDataset
| RealsenseDataset
| TUMDataset
| ScannetPPDataset.

(** The keyword arguments the driver hands to [get_dataset]. *)
Record dataset_kwargs := {
  kw_start : value;
  kw_end : value;
  kw_stride : value;
  kw_desired_height : value;
  kw_desired_width : value;
  kw_device : value;
  kw_relative_pose : bool;
  kw_ignore_bad : value;
  kw_use_train_split : value;
  kw_load_semantics : value;
  kw_num_semantic_classes : value
}.

(** A constructed dataset adapter: its class, what it was constructed
    with, and its length. [ds_config = None] is a constructor call without
    the config dict. *)
Record dataset := {
  ds_class : dataset_class;
  ds_config : option value;
  ds_basedir : value;
  ds_sequence : string;
  ds_kwargs : dataset_kwargs;
  ds_len : nat
}.

(** The handle [wandb.init] returns. *)
Definition run_handle := nat.

Record wandb_init_args := {
  wi_project : value;
  wi_entity : value;
  wi_group : value;
  wi_name : string;
  wi_config : gmap string value
}.

(** The arguments of [eval] and [eval_nvs]; [None] is a keyword argument
    the call leaves to its default. *)
Record eval_args := {
  ea_dataset : dataset;
  ea_params : gmap string pval;
  ea_num_frames : value;
  ea_eval_dir : string;
  ea_sil_thres : value;
  ea_wandb_run : option run_handle;
  ea_wandb_save_qual : option value;
  ea_mapping_iters : value;
  ea_add_new_gaussians : value;
  ea_load_semantics : value;
  ea_eval_every : value;
  ea_save_frames : bool
}.

(** One entry of the trace per call that leaves the script. *)
Inductive event :=
| ESeedEverything (seed : value)
| ETorchDevice (spec : value)
| ECudaSetDevice (id : Z)
| EMakedirs (path : string) (exist_ok : bool)
| ECopy (src dst : string)
| EPrint (msg : string)
| ELoadDatasetConfig (path : value)
| EDatasetInit (cls : dataset_class) (cfg : option value) (basedir : value)
    (sequence : string) (kw : dataset_kwargs)
| ENpLoad (path : value)
| EWandbInit (a : wandb_init_args)
| ENoGradEnter
| ENoGradExit
| EEval (a : eval_args)
| EEvalNvs (a : eval_args)
| EWandbFinish (run : run_handle).

(** What the collaborators answer. Each field is the outcome of the call
    of that name on the given arguments: a returned value or a raised
    exception. *)
Record world := {
  w_seed_everything : value → result unit;
  w_torch_device : value → result unit;
  w_int : string → result Z;
  w_cuda_set_device : Z → result unit;
  w_makedirs : string → bool → result unit;
  w_copy : string → string → result unit;
  w_load_dataset_config : value → result value;
  w_dataset_init : dataset_class → option value → value → string →
                   dataset_kwargs → result nat;
  w_np_load : value → result (gmap string ndarray);
  w_device_available : string → bool;
  w_wandb_init : wandb_init_args → result run_handle;
  w_eval : eval_args → result unit;
  w_eval_nvs : eval_args → result unit;
  w_finish : run_handle → result unit
}.

(* ===================================================================== *)
(** ** The monad of the script: a trace of calls and an outcome           *)
(* ===================================================================== *)

Definition M (A : Type) : Type := list event * result A.

#[global] Instance M_ret : MRet M := λ A a, ([], Ok a).

#[global] Instance M_bind : MBind M := λ A B f m,
  match m with
  | (t, Ok a) => let '(t', r) := f a in ((t ++ t')%list, r)
  | (t, Raise e) => (t, Raise e)
  end.

(** A computation of the script itself: no call goes out. *)
Definition lift {A} (r : result A) : M A := ([], r).

Definition raise {A} (e : exn) : M A := ([], Raise e).

(** A call that goes out, with the outcome the world gives it. *)
Definition call {A} (ev : event) (r : result A) : M A := ([ev], r).

Definition emit (ev : event) : M unit := ([ev], Ok tt).

Definition trace {A} (m : M A) : list event := fst m.
Definition outcome {A} (m : M A) : result A := snd m.

(** [with torch.no_grad(): body]: the scope is left on every path out of
    the body, also when it raises. *)
Definition with_no_grad {A} (body : M A) : M A :=
  (ENoGradEnter :: (fst body ++ [ENoGradExit])%list, snd body).

#[global] Instance result_ret : MRet result := λ A a, Ok a.

#[global] Instance result_bind : MBind result := λ A B f r,
  match r with
  | Ok a => f a
  | Raise e => Raise e
  end.

(* ===================================================================== *)
(** ** [get_dataset]                                                      *)
(* ===================================================================== *)

(** A call of the constructor of [cls]. *)
Definition construct (w : world) (cls : dataset_class) (cfg : option value)
    (basedir : value) (sequence : string) (kw : dataset_kwargs) : M dataset :=
  n ← call (EDatasetInit cls cfg basedir sequence kw)
           (w_dataset_init w cls cfg basedir sequence kw);
  mret {| ds_class := cls; ds_config := cfg; ds_basedir := basedir;
          ds_sequence := sequence; ds_kwargs := kw; ds_len := n |}.

(** The text an f-string puts for a string value. *)
Definition format_str (v : value) : string :=
  match v with
  | VStr s => s
  | _ => ""
  end.

(** [get_dataset(config_dict, basedir, sequence, **kwargs)]. Every branch
    of the source evaluates [config_dict["dataset_name"].lower()] again;
    the evaluation has no effect, so it is done once here. *)
Definition get_dataset (w : world) (config_dict : value) (basedir : value)
    (sequence : string) (kwargs : dataset_kwargs) : M dataset :=
  name ← lift (subscript config_dict "dataset_name");
  lname ← lift (str_lower name);
  if str_in lname ["icl"] then
    construct w ICLDataset (Some config_dict) basedir sequence kwargs
  else if str_in lname ["replica"] then
    construct w ReplicaDataset (Some config_dict) basedir sequence kwargs
  else if str_in lname ["replicav2"] then
    construct w ReplicaV2Dataset (Some config_dict) basedir sequence kwargs
  else if str_in lname ["azure"; "azurekinect"] then
    construct w AzureKinectDataset (Some config_dict) basedir sequence kwargs
  else if str_in lname ["scannet"] then
    construct w ScannetDataset (Some config_dict) basedir sequence kwargs
  else if str_in lname ["ai2thor"] then
    construct w Ai2thorDataset (Some config_dict) basedir sequence kwargs
  else if str_in lname ["record3d"] then
    construct w Record3DDataset (Some config_dict) basedir sequence kwargs
  else if str_in lname ["realsense"] then
    construct w RealsenseDataset (Some config_dict) basedir sequence kwargs
  else if str_in lname ["tum"] then
    construct w TUMDataset (Some config_dict) basedir sequence kwargs
  else if str_in lname ["scannetpp"] then
    construct w ScannetPPDataset None basedir sequence kwargs
  else
    raise (ValueError ("Unknown dataset name " ++ format_str name)).

(* ===================================================================== *)
(** ** [load_scene_data]                                                  *)
(* ===================================================================== *)

(** The device a tensor is on after [.to(device)]: a ["cuda"] without
    an index is the current CUDA device, [current]; any other name is
    the device it names. *)
Definition resolve_device (current : Z) (device : string) : string :=
  if String.eqb device "cuda" then "cuda:" ++ pretty current else device.

(** [t.to(device)], the current CUDA device being [current]. *)
Definition to (w : world) (current : Z) (device : string) (t : tensor)
    : result tensor :=
  if w_device_available w device then
    Ok {| t_dtype := t_dtype t; t_device := resolve_device current device;
          t_requires_grad := t_requires_grad t; t_data := t_data t |}
  else Raise (RuntimeError "device not available").

(** The body of the loop of [load_scene_data], at key [k]. *)
Definition load_scene_step (w : world) (current : Z)
    (params_opt_exclude : gset string)
    (device : string) (params : gmap string pval) (k : string)
    : result (gmap string pval) :=
  match params !! k with
  | None => Raise (KeyError k)
  | Some x =>
      if bool_decide (k ∉ params_opt_exclude) then
        t ← torch_tensor x;
        t ← to w current device t;
        t ← requires_grad_ true (float t);
        mret (<[k := PTen t]> params)
      else
        t ← torch_tensor x;
        t ← to w current device t;
        mret (<[k := PTen t]> params)
  end.

(** [for k in keys: ...], the dictionary being updated in place. *)
Fixpoint load_scene_loop (w : world) (current : Z)
    (params_opt_exclude : gset string)
    (device : string) (keys : list string) (params : gmap string pval)
    : result (gmap string pval) :=
  match keys with
  | [] => Ok params
  | k :: keys' =>
      params' ← load_scene_step w current params_opt_exclude device params k;
      load_scene_loop w current params_opt_exclude device keys' params'
  end.

(** [load_scene_data(scene_path, params_opt_exclude, device)], called
    when the current CUDA device is [current]. *)
Definition load_scene_data (w : world) (current : Z) (scene_path : value)
    (params_opt_exclude : gset string) (device : string)
    : M (gmap string pval) :=
  archive ← call (ENpLoad scene_path) (w_np_load w scene_path);
  let params : gmap string pval := PArr <$> archive in
  lift (load_scene_loop w current params_opt_exclude device
          (map_to_list params).*1 params).

(* ===================================================================== *)
(** ** [filter_semantic_params]                                           *)
(* ===================================================================== *)

(** Two sizes of one dimension can be broadcast together. *)
Definition broadcast_ok (c m : nat) : bool :=
  Nat.eqb c m || Nat.eqb c 1 || Nat.eqb m 1.

(** The integers a dtype holds exactly: all of them for an integer
    dtype, and for a floating dtype the range without a gap, up to the
    size of the significand. *)
Definition representable (d : dtype) (x : Z) : bool :=
  match d with
  | UInt8 => (0 <=? x) && (x <=? 255)
  | Int8 => (-128 <=? x) && (x <=? 127)
  | Int16 => (-32768 <=? x) && (x <=? 32767)
  | Int32 => (- 2 ^ 31 <=? x) && (x <? 2 ^ 31)
  | Int64 => (- 2 ^ 63 <=? x) && (x <? 2 ^ 63)
  | BoolT => (0 <=? x) && (x <=? 1)
  | Float16 => Z.abs x <=? 2 ^ 11
  | Float32 => Z.abs x <=? 2 ^ 24
  | Float64 => Z.abs x <=? 2 ^ 53
  end.

(** One entry of [torch.tensor(to_remove_ids, dtype=d)], the entry being
    the Python [int] [x]. An integer the dtype holds is kept; for [uint8]
    the small negative integers wrap around. What becomes of any other
    integer (an error, a wrapped or a rounded entry) changes with the
    dtype and with the version of [torch], and is not modelled: the
    answer is [None] there. *)
Definition convert_id (d : dtype) (x : Z) : option num :=
  if representable d x then Some (Fin x)
  else
    match d with
    | UInt8 =>
        if (-255 <=? x) && (x <? 0) then Some (Fin (x + 256)) else None
    | _ => None
    end.

(** [torch.tensor(to_remove_ids, dtype=d)]. *)
Fixpoint convert_ids (d : dtype) (ids : list Z) : option (list num) :=
  match ids with
  | [] => Some []
  | x :: ids' =>
      match convert_id d x, convert_ids d ids' with
      | Some y, Some ys => Some (y :: ys)
      | _, _ => None
      end
  end.

(** [row == ids] along the last dimension, with broadcasting. *)
Definition eq_row (row ids : list num) : list bool :=
  if Nat.eqb (length row) (length ids) then zip_with num_eqb row ids
  else
    match row, ids with
    | [x], _ => map (num_eqb x) ids
    | _, [i] => map (λ x, num_eqb x i) row
    | _, _ => []
    end.

(** [(semantic_ids == to_remove_ids).any(dim=1)], where [to_remove_ids]
    is the list [ids] made a tensor of the dtype of [semantic_ids] and of
    shape [(1, length ids)]. A [semantic_ids] of three or more dimensions
    gives a mask of several dimensions, which this model does not cover:
    the answer is [None] there, as it is where [convert_id] is. *)
Definition to_remove_mask (d : dtype) (semantic_ids : tdata) (ids : list Z)
    : option (result (list bool)) :=
  match convert_ids d ids with
  | None => None
  | Some to_remove_ids =>
      match semantic_ids with
      | Scalar0 x => Some (Ok [existsb id (eq_row [x] to_remove_ids)])
      | Rows [] rows =>
          if broadcast_ok (length rows) (length to_remove_ids)
          then Some (Ok [existsb id (eq_row (concat rows) to_remove_ids)])
          else Some (Raise (RuntimeError "shapes cannot be broadcast"))
      | Rows [c] rows =>
          if broadcast_ok c (length to_remove_ids)
          then Some (Ok (map (λ row, existsb id (eq_row row to_remove_ids))
                           rows))
          else Some (Raise (RuntimeError "shapes cannot be broadcast"))
      | Rows (_ :: _ :: _) _ => None
      end
  end.

(** The entries of [rows] at which [mask] is [true]. *)
Fixpoint select {A} (mask : list bool) (rows : list A) : list A :=
  match mask, rows with
  | b :: mask', r :: rows' =>
      if b then r :: select mask' rows' else select mask' rows'
  | _, _ => []
  end.

(** A mask on [mask_device] can index a tensor on [device]: the mask has
    to be on the CPU or on the device of the tensor. The devices are
    written as [tensor.device] gives them, a CUDA device with its
    index. *)
Definition mask_usable (mask_device device : string) : bool :=
  String.eqb mask_device "cpu" || String.eqb mask_device device.

(** [t[mask]] for a one-dimensional boolean [mask] that is on the device
    [mask_device]: [t] needs a first dimension, the mask has to be usable
    on the device of [t], and it has to be as long as the first
    dimension of [t]. *)
Definition index_mask (mask_device : string) (mask : list bool) (t : tensor)
    : result tensor :=
  match t_data t with
  | Scalar0 _ => Raise IndexError
  | Rows trail rows =>
      if negb (mask_usable mask_device (t_device t))
      then Raise (RuntimeError "indices should be either on cpu or on the same device as the indexed tensor")
      else if Nat.eqb (length rows) (length mask)
      then Ok (with_data t (Rows trail (select mask rows)))
      else Raise IndexError
  end.

(** [for k in keys: params[k] = params[k][to_keep_mask]]. *)
Fixpoint filter_loop (mask_device : string) (to_keep_mask : list bool)
    (keys : list string) (params : gmap string tensor)
    : result (gmap string tensor) :=
  match keys with
  | [] => Ok params
  | k :: keys' =>
      match params !! k with
      | None => Raise (KeyError k)
      | Some t =>
          t' ← index_mask mask_device to_keep_mask t;
          filter_loop mask_device to_keep_mask keys' (<[k := t']> params)
      end
  end.

(** [filter_semantic_params(params, to_remove_ids)]; [None] where
    [to_remove_mask] is. The mask is on the device of [semantic_ids]. *)
Definition filter_semantic_params (params : gmap string tensor)
    (to_remove_ids : list Z) : option (result (gmap string tensor)) :=
  match params !! "semantic_ids" with
  | Some semantic_ids =>
      match to_remove_mask (t_dtype semantic_ids) (t_data semantic_ids)
              to_remove_ids with
      | None => None
      | Some (Raise e) => Some (Raise e)
      | Some (Ok to_remove_mask) =>
          let to_keep_mask := map negb to_remove_mask in
          let keys :=
            filter (λ k, negb (str_in k ["cam_unnorm_rots"; "cam_trans"]))
                   (map_to_list params).*1 in
          Some (filter_loop (t_device semantic_ids) to_keep_mask keys params)
      end
  | None => Some (Ok params)
  end.

(* ===================================================================== *)
(** ** The script                                                         *)
(* ===================================================================== *)

(** [a[k1][k2]]. *)
Definition getitem2 (a : gmap string value) (k1 k2 : string) : result value :=
  v ← getitem a k1; subscript v k2.

(** [v + suffix] for a string literal [suffix]. *)
Definition str_add (v : value) (suffix : string) : result string :=
  match v with
  | VStr s => Ok (s ++ suffix)
  | _ => Raise TypeError
  end.

(** [os.path.join(config["workdir"], config["run_name"])]. *)
Definition results_dir_of (config : gmap string value) : result string :=
  workdir ← getitem config "workdir";
  run_name ← getitem config "run_name";
  workdir ← as_str workdir;
  run_name ← as_str run_name;
  mret (path_join workdir run_name).

(** "Set Experiment Seed": seeds, builds the device and selects the CUDA
    device a ["cuda:<id>"] names. Returns [device]. *)
Definition set_experiment_seed (w : world) (config : gmap string value)
    : M value :=
  seed ← lift (getitem config "seed");
  call (ESeedEverything seed) (w_seed_everything w seed);;
  primary_device ← lift (getitem config "primary_device");
  call (ETorchDevice primary_device) (w_torch_device w primary_device);;
  match primary_device with
  | VStr s =>
      if startswith "cuda:" s then
        match split_colon_1 s with
        | Some field =>
            device_id ← lift (w_int w field);
            call (ECudaSetDevice device_id) (w_cuda_set_device w device_id)
        | None => raise IndexError
        end
      else mret tt
  | _ => raise AttributeError
  end;;
  mret primary_device.

(** The current CUDA device once "Set Experiment Seed" returned
    [device]: a process starts on device 0, and stays there unless the
    step selected another one; [torch.cuda.set_device] does nothing for
    a negative id. The script touches this state nowhere else, so it is
    read off [device] where it is needed rather than threaded through. *)
Definition current_cuda_device (w : world) (device : value) : Z :=
  match device with
  | VStr s =>
      if startswith "cuda:" s then
        match split_colon_1 s with
        | Some field =>
            match w_int w field with
            | Ok device_id => if device_id <? 0 then 0 else device_id
            | Raise _ => 0
            end
        | None => 0
        end
      else 0
  | _ => 0
  end.

(** "Create Results Directory and Copy Config". Returns [results_dir]. *)
Definition create_results_dir (w : world) (experiment : string)
    (config : gmap string value) : M string :=
  results_dir ← lift (results_dir_of config);
  load_checkpoint ← lift (getitem config "load_checkpoint");
  (if negb (truthy load_checkpoint) then
     call (EMakedirs results_dir true) (w_makedirs w results_dir true);;
     call (ECopy experiment (path_join results_dir "config.py"))
          (w_copy w experiment (path_join results_dir "config.py"))
   else mret tt);;
  mret results_dir.

(** The choice of the archive path. Returns [scene_path]. *)
Definition resolve_scene_path (config : gmap string value) : result value :=
  if negb (has_key config "scene_path") then
    results_dir ← results_dir_of config;
    mret (VStr (path_join results_dir "params.npz"))
  else getitem config "scene_path".

(** The defaults written into the dataset sub-record. *)
Definition apply_defaults (dataset_config : gmap string value)
    : gmap string value :=
  let dataset_config :=
    if negb (has_key dataset_config "ignore_bad")
    then <["ignore_bad" := VBool false]> dataset_config
    else dataset_config in
  if negb (has_key dataset_config "use_train_split")
  then <["use_train_split" := VBool true]> dataset_config
  else dataset_config.

(** The semantics settings: [load_semantics], [num_semantic_classes] and
    the set [params_opt_exclude], which starts empty. *)
Definition semantics_config (dataset_config : gmap string value)
    : result (value * value * gset string) :=
  if has_key dataset_config "load_semantics" then
    load_semantics ← getitem dataset_config "load_semantics";
    num_semantic_classes ← getitem dataset_config "num_semantic_classes";
    mret (load_semantics, num_semantic_classes, {["semantic_ids"]} ∪ ∅)
  else mret (VBool false, VInt 0, ∅).

(** What "Load Dataset" leaves for the rest of the script. *)
Record loaded := {
  l_dataset_config : gmap string value;
  l_load_semantics : value;
  l_params_opt_exclude : gset string;
  l_dataset : dataset;
  l_num_frames : value
}.

(** "Load Dataset", for a dataset sub-record that is a dictionary. *)
Definition load_dataset (w : world) (device : value)
    (dataset_config : gmap string value) : M loaded :=
  gradslam_data_cfg ←
    (if negb (has_key dataset_config "gradslam_data_cfg") then
       name ← lift (getitem dataset_config "dataset_name");
       mret (VDict (<["dataset_name" := name]> ∅))
     else
       path ← lift (getitem dataset_config "gradslam_data_cfg");
       call (ELoadDatasetConfig path) (w_load_dataset_config w path));
  let dataset_config := apply_defaults dataset_config in
  '(load_semantics, num_semantic_classes, params_opt_exclude) ←
    lift (semantics_config dataset_config);
  basedir ← lift (getitem dataset_config "basedir");
  sequence ← lift (getitem dataset_config "sequence");
  sequence ← lift (as_str sequence);
  start ← lift (getitem dataset_config "start");
  end_ ← lift (getitem dataset_config "end");
  stride ← lift (getitem dataset_config "stride");
  desired_height ← lift (getitem dataset_config "desired_image_height");
  desired_width ← lift (getitem dataset_config "desired_image_width");
  ignore_bad ← lift (getitem dataset_config "ignore_bad");
  use_train_split ← lift (getitem dataset_config "use_train_split");
  dataset ← get_dataset w gradslam_data_cfg basedir (basename sequence)
    {| kw_start := start; kw_end := end_; kw_stride := stride;
       kw_desired_height := desired_height;
       kw_desired_width := desired_width;
       kw_device := device; kw_relative_pose := true;
       kw_ignore_bad := ignore_bad;
       kw_use_train_split := use_train_split;
       kw_load_semantics := load_semantics;
       kw_num_semantic_classes := num_semantic_classes |};
  num_frames ← lift (getitem dataset_config "num_frames");
  let num_frames :=
    if py_eq_int num_frames (-1) then VInt (Z.of_nat (ds_len dataset))
    else num_frames in
  mret {| l_dataset_config := dataset_config;
          l_load_semantics := load_semantics;
          l_params_opt_exclude := params_opt_exclude;
          l_dataset := dataset;
          l_num_frames := num_frames |}.

(** The output directory and the name of the tracking run. *)
Definition eval_names (config dataset_config : gmap string value)
    (results_dir : string) : result (string * string) :=
  use_train_split ← getitem dataset_config "use_train_split";
  if truthy use_train_split then
    name ← getitem2 config "wandb" "name";
    wandb_name ← str_add name "_Train_Split";
    mret (path_join results_dir "eval_train", wandb_name)
  else
    name ← getitem2 config "wandb" "name";
    wandb_name ← str_add name "_NVS_Split";
    mret (path_join results_dir "eval_nvs", wandb_name).

(** "Init WandB". Returns [wandb_run] when the script binds it. *)
Definition init_wandb (w : world) (config : gmap string value)
    (wandb_name : string) : M (option run_handle) :=
  use_wandb ← lift (getitem config "use_wandb");
  if truthy use_wandb then
    project ← lift (getitem2 config "wandb" "project");
    entity ← lift (getitem2 config "wandb" "entity");
    group ← lift (getitem2 config "wandb" "group");
    let a := {| wi_project := project; wi_entity := entity;
                wi_group := group; wi_name := wandb_name;
                wi_config := config |} in
    run ← call (EWandbInit a) (w_wandb_init w a);
    mret (Some run)
  else mret None.

(** The variable [wandb_run], which is bound only after "Init WandB" ran
    its branch. *)
Definition the_wandb_run (wandb_run : option run_handle)
    : result run_handle :=
  match wandb_run with
  | Some run => Ok run
  | None => Raise (RuntimeError "name 'wandb_run' is not defined")
  end.

(** The body of [with torch.no_grad():]. *)
Definition dispatch (w : world) (config : gmap string value) (l : loaded)
    (params : gmap string pval) (eval_dir : string)
    (wandb_run : option run_handle) : M unit :=
  use_wandb ← lift (getitem config "use_wandb");
  if truthy use_wandb then
    use_train_split ← lift (getitem (l_dataset_config l) "use_train_split");
    sil_thres ← lift (getitem2 config "mapping" "sil_thres");
    run ← lift (the_wandb_run wandb_run);
    save_qual ← lift (getitem2 config "wandb" "eval_save_qual");
    mapping_iters ← lift (getitem2 config "mapping" "num_iters");
    add_new_gaussians ← lift (getitem2 config "mapping" "add_new_gaussians");
    eval_every ← lift (getitem config "eval_every");
    let a := {| ea_dataset := l_dataset l; ea_params := params;
                ea_num_frames := l_num_frames l; ea_eval_dir := eval_dir;
                ea_sil_thres := sil_thres; ea_wandb_run := Some run;
                ea_wandb_save_qual := Some save_qual;
                ea_mapping_iters := mapping_iters;
                ea_add_new_gaussians := add_new_gaussians;
                ea_load_semantics := l_load_semantics l;
                ea_eval_every := eval_every; ea_save_frames := true |} in
    if truthy use_train_split then call (EEval a) (w_eval w a)
    else call (EEvalNvs a) (w_eval_nvs w a)
  else
    use_train_split ← lift (getitem (l_dataset_config l) "use_train_split");
    sil_thres ← lift (getitem2 config "mapping" "sil_thres");
    mapping_iters ← lift (getitem2 config "mapping" "num_iters");
    add_new_gaussians ← lift (getitem2 config "mapping" "add_new_gaussians");
    eval_every ← lift (getitem config "eval_every");
    let a := {| ea_dataset := l_dataset l; ea_params := params;
                ea_num_frames := l_num_frames l; ea_eval_dir := eval_dir;
                ea_sil_thres := sil_thres; ea_wandb_run := None;
                ea_wandb_save_qual := None;
                ea_mapping_iters := mapping_iters;
                ea_add_new_gaussians := add_new_gaussians;
                ea_load_semantics := l_load_semantics l;
                ea_eval_every := eval_every; ea_save_frames := true |} in
    if truthy use_train_split then call (EEval a) (w_eval w a)
    else call (EEvalNvs a) (w_eval_nvs w a).

(** "Close WandB". *)
Definition close_wandb (w : world) (config : gmap string value)
    (wandb_run : option run_handle) : M unit :=
  use_wandb ← lift (getitem config "use_wandb");
  if truthy use_wandb then
    run ← lift (the_wandb_run wandb_run);
    call (EWandbFinish run) (w_finish w run)
  else mret tt.

(** From "Init WandB" to the end of the script. *)
Definition evaluate (w : world) (config : gmap string value) (l : loaded)
    (params : gmap string pval) (results_dir : string) : M unit :=
  '(eval_dir, wandb_name) ←
    lift (eval_names config (l_dataset_config l) results_dir);
  wandb_run ← init_wandb w config wandb_name;
  with_no_grad (dispatch w config l params eval_dir wandb_run);;
  close_wandb w config wandb_run.

(** The script, run on the path [experiment] of an experiment file whose
    module holds [config]. The dataset sub-record is the very dictionary
    [config["data"]]: the defaults written into it are seen through
    [config] from then on. [load_scene_data] is called without a device,
    so with its default ["cuda"]. *)
Definition main (w : world) (experiment : string)
    (config : gmap string value) : M unit :=
  device ← set_experiment_seed w config;
  results_dir ← create_results_dir w experiment config;
  scene_path ← lift (resolve_scene_path config);
  emit (EPrint "Loading Dataset ...");;
  data ← lift (getitem config "data");
  match data with
  | VDict dataset_config =>
      l ← load_dataset w device dataset_config;
      let config := <["data" := VDict (l_dataset_config l)]> config in
      params ← load_scene_data w (current_cuda_device w device) scene_path
                  (l_params_opt_exclude l) "cuda";
      evaluate w config l params results_dir
  | _ => raise TypeError
  end.

(* ===================================================================== *)
(** ** Vocabulary of the properties                                       *)
(* ===================================================================== *)

Definition is_lower (c : ascii) : bool :=
  let n := nat_of_ascii c in (97 <=? n)%nat && (n <=? 122)%nat.

(** Two characters are the same up to the case of a letter. *)
Definition ascii_ci_eqb (a b : ascii) : bool :=
  Ascii.eqb a b
  || (is_upper a && Nat.eqb (nat_of_ascii a + 32) (nat_of_ascii b))
  || (is_lower a && Nat.eqb (nat_of_ascii b + 32) (nat_of_ascii a)).

(** The characters [us] match the ASCII name [t] exactly,
    case-insensitively: character by character, a letter matching its
    other case, and the Kelvin sign, which is a capital K, matching [k]
    and [K]. *)
Fixpoint ci_matches (us : list uchar) (t : string) : bool :=
  match us, t with
  | [], EmptyString => true
  | UByte a :: us', String b t' => ascii_ci_eqb a b && ci_matches us' t'
  | UKelvin :: us', String b t' => ascii_ci_eqb "k" b && ci_matches us' t'
  | _, _ => false
  end.

(** The string [s] matches the ASCII name [t] exactly,
    case-insensitively. *)
Definition eq_ci (s t : string) : bool := ci_matches (decode s) t.

(** ASCII text. *)
Definition is_ascii (t : string) : bool :=
  forallb (λ c, (nat_of_ascii c <? 128)%nat) (list_ascii_of_string t).

(** The Kelvin sign, U+212A, in UTF-8. *)
Definition kelvin_sign : string :=
  String (ascii_of_nat 226)
    (String (ascii_of_nat 132) (String (ascii_of_nat 170) EmptyString)).

(** The ten supported dataset names and their adapter classes. *)
Definition supported_datasets : list (string * dataset_class) :=
  [ ("ICL", ICLDataset);
    ("Replica", ReplicaDataset);
    ("ReplicaV2", ReplicaV2Dataset);
    ("AzureKinect", AzureKinectDataset);
    ("Scannet", ScannetDataset);
    ("Ai2thor", Ai2thorDataset);
    ("Record3D", Record3DDataset);
    ("Realsense", RealsenseDataset);
    ("TUM", TUMDataset);
    ("ScannetPP", ScannetPPDataset) ].

(** The config argument each class is constructed with: all get the
    config dict but [ScannetPPDataset]. *)
Definition ctor_config (cls : dataset_class) (config_dict : value)
    : option value :=
  match cls with
  | ScannetPPDataset => None
  | _ => Some config_dict
  end.

(** A small archive: three points with their semantic ids. *)
Definition sample_archive : gmap string ndarray :=
  <["means3D" := {| a_dtype := Numeric Float64;
                    a_data := Rows [3%nat] (ints [[1; 2; 3]; [4; 5; 6]; [7; 8; 9]]) |}]>
  (<["semantic_ids" := {| a_dtype := Numeric Int64;
                          a_data := Rows [1%nat] (ints [[0]; [14]; [2]]) |}]> ∅).

(** A world in which every collaborator succeeds. *)
Definition calm_world : world := {|
  w_seed_everything := λ _, Ok tt;
  w_torch_device := λ _, Ok tt;
  w_int := λ _, Ok 0;
  w_cuda_set_device := λ _, Ok tt;
  w_makedirs := λ _ _, Ok tt;
  w_copy := λ _ _, Ok tt;
  w_load_dataset_config := λ _, Ok (VDict ∅);
  w_dataset_init := λ _ _ _ _ _, Ok 5%nat;
  w_np_load := λ _, Ok sample_archive;
  w_device_available := λ _, true;
  w_wandb_init := λ _, Ok 0%nat;
  w_eval := λ _, Ok tt;
  w_eval_nvs := λ _, Ok tt;
  w_finish := λ _, Ok tt
|}.

(** Keyword arguments for the examples. *)
Definition sample_kwargs : dataset_kwargs := {|
  kw_start := VInt 0; kw_end := VInt (-1); kw_stride := VInt 1;
  kw_desired_height := VInt 480; kw_desired_width := VInt 640;
  kw_device := VStr "cuda:0"; kw_relative_pose := true;
  kw_ignore_bad := VBool false; kw_use_train_split := VBool true;
  kw_load_semantics := VBool false; kw_num_semantic_classes := VInt 0
|}.

(** The tensor the loop of [load_scene_data] stores at key [k] in place
    of [x]. *)
Definition converted (w : world) (current : Z)
    (params_opt_exclude : gset string)
    (device : string) (k : string) (x : pval) : result tensor :=
  if bool_decide (k ∉ params_opt_exclude) then
    t ← torch_tensor x; t ← to w current device t;
    requires_grad_ true (float t)
  else
    t ← torch_tensor x; to w current device t.

(** The two camera-pose parameters, which are indexed by frame. *)
Definition camera_keys : list string := ["cam_unnorm_rots"; "cam_trans"].

(** The numbers of a [semantic_ids] tensor of shape [(N, 1)] that holds
    the ids [sids], one per row. *)
Definition column (sids : list Z) : tdata :=
  Rows [1%nat] (map (λ x, [Fin x]) sids).

(** The rows that stay: each row goes with the semantic id of its index,
    and the rows whose id is in [ids] are dropped. *)
Definition kept_rows {A} (ids sids : list Z) (rows : list A) : list A :=
  (filter (λ p, p.1 ∉ ids) (zip sids rows)).*2.

(** Four points with semantic ids 0, 1, 2, 0, and two camera poses. *)
Definition sample_params : gmap string tensor :=
  <["semantic_ids" := {| t_dtype := Int64; t_device := "cuda:0";
                         t_requires_grad := false;
                         t_data := column [0; 1; 2; 0] |}]>
  (<["means3D" := {| t_dtype := Float32; t_device := "cuda:0";
                     t_requires_grad := true;
                     t_data := Rows [3%nat]
                       (ints [[1; 1; 1]; [2; 2; 2]; [3; 3; 3]; [4; 4; 4]]) |}]>
  (<["cam_trans" := {| t_dtype := Float32; t_device := "cuda:0";
                       t_requires_grad := true;
                       t_data := Rows [3%nat; 2%nat] (ints [[5; 6; 7; 8; 9; 10]]) |}]>
   ∅)).

(** The ids of the sample parameters, as a tensor. *)
Definition sample_semantic_ids : tensor :=
  {| t_dtype := Int64; t_device := "cuda:0"; t_requires_grad := false;
     t_data := column [0; 1; 2; 0] |}.



(** The collaborator an event is a call of. *)
Inductive tag :=
| TSeedEverything | TTorchDevice | TCudaSetDevice
| TMakedirs | TCopy | TPrint
| TLoadDatasetConfig | TDatasetInit | TNpLoad
| TWandbInit | TNoGradEnter | TNoGradExit
| TEval | TEvalNvs | TWandbFinish.

#[global] Instance tag_eq_dec : EqDecision tag.
Proof. solve_decision. Defined.

Definition tag_of (ev : event) : tag :=
  match ev with
  | ESeedEverything _ => TSeedEverything
  | ETorchDevice _ => TTorchDevice
  | ECudaSetDevice _ => TCudaSetDevice
  | EMakedirs _ _ => TMakedirs
  | ECopy _ _ => TCopy
  | EPrint _ => TPrint
  | ELoadDatasetConfig _ => TLoadDatasetConfig
  | EDatasetInit _ _ _ _ _ => TDatasetInit
  | ENpLoad _ => TNpLoad
  | EWandbInit _ => TWandbInit
  | ENoGradEnter => TNoGradEnter
  | ENoGradExit => TNoGradExit
  | EEval _ => TEval
  | EEvalNvs _ => TEvalNvs
  | EWandbFinish _ => TWandbFinish
  end.

(** The calls of a trace that are calls of one of [gs], in order. *)
Definition only (gs : list tag) (t : list event) : list event :=
  filter (λ ev, tag_of ev ∈ gs) t.

(** How many calls of [g] a trace holds. *)
Definition count (g : tag) (t : list event) : nat := length (only [g] t).

(** The tracking-service calls and the evaluation calls of a trace, in
    order, by their tags. *)
Definition lifecycle (t : list event) : list tag :=
  tag_of <$> only [TWandbInit; TEval; TEvalNvs; TWandbFinish] t.

(** The runs of the last part of the script, from "Init WandB" on: what
    goes out, in order, and how the part ends. [evaluate_run w config l
    params results_dir t r] reads: the part makes, in order, the calls of
    the trace [t] and ends with [r]. *)
Section evaluate_run.
Variable w : world.
Variable config : gmap string value.
Variable l : loaded.
Variable params : gmap string pval.
Variable results_dir : string.

(** "Init WandB" went through: nothing is called when [use_wandb] is
    false, and [wandb.init] returned [run] when it is true. *)
Definition wandb_started (init : list event) (run : option run_handle)
    : Prop :=
  ∃ use_wandb, config !! "use_wandb" = Some use_wandb
    ∧ ((truthy use_wandb = false ∧ init = [] ∧ run = None)
       ∨ (truthy use_wandb = true
          ∧ ∃ a r, init = [EWandbInit a] ∧ w_wandb_init w a = Ok r
                   ∧ wi_config a = config ∧ run = Some r)).

(** The one evaluation call: the routine the split selects, its
    arguments, and what the world answers. *)
Definition evaluation_call (run : option run_handle) (ev : event)
    (r : result unit) : Prop :=
  ∃ use_train_split a,
    l_dataset_config l !! "use_train_split" = Some use_train_split
    ∧ ea_dataset a = l_dataset l
    ∧ ea_params a = params
    ∧ ea_num_frames a = l_num_frames l
    ∧ ea_load_semantics a = l_load_semantics l
    ∧ ea_wandb_run a = run
    ∧ ea_save_frames a = true
    ∧ ((truthy use_train_split = true
        ∧ ev = EEval a ∧ r = w_eval w a
        ∧ ea_eval_dir a = path_join results_dir "eval_train")
       ∨ (truthy use_train_split = false
          ∧ ev = EEvalNvs a ∧ r = w_eval_nvs w a
          ∧ ea_eval_dir a = path_join results_dir "eval_nvs")).

Inductive evaluate_run : list event → result unit → Prop :=
| run_no_call (e : exn) :
    evaluate_run [] (Raise e)
| run_init_raises (use_wandb : value) (a : wandb_init_args) (e : exn) :
    config !! "use_wandb" = Some use_wandb →
    truthy use_wandb = true →
    w_wandb_init w a = Raise e →
    evaluate_run [EWandbInit a] (Raise e)
| run_no_evaluation (init : list event) (run : option run_handle)
    (e : exn) :
    wandb_started init run →
    evaluate_run (init ++ [ENoGradEnter; ENoGradExit]) (Raise e)
| run_evaluation_raises (init : list event) (run : option run_handle)
    (ev : event) (e : exn) :
    wandb_started init run →
    evaluation_call run ev (Raise e) →
    evaluate_run (init ++ [ENoGradEnter; ev; ENoGradExit]) (Raise e)
| run_evaluation_returns (init : list event) (run : option run_handle)
    (ev : event) :
    wandb_started init run →
    evaluation_call run ev (Ok tt) →
    evaluate_run
      (init ++ [ENoGradEnter; ev; ENoGradExit]
            ++ match run with
               | Some r => [EWandbFinish r]
               | None => []
               end)
      (match run with
       | Some r => w_finish w r
       | None => Ok tt
       end).
End evaluate_run.

(** The tags of the calls made before "Init WandB". *)
Definition setup_tags : list tag :=
  [TSeedEverything; TTorchDevice; TCudaSetDevice; TMakedirs; TCopy; TPrint;
   TLoadDatasetConfig; TDatasetInit; TNpLoad].

(** The tags of the calls made from "Init WandB" on. *)
Definition evaluate_tags_list : list tag :=
  [TWandbInit; TNoGradEnter; TNoGradExit; TEval; TEvalNvs; TWandbFinish].

(** A dataset sub-record that leaves the optional keys out. *)
Definition sample_data : gmap string value :=
  list_to_map
    [ ("dataset_name", VStr "Replica");
      ("basedir", VStr "./data/Replica");
      ("sequence", VStr "room0");
      ("start", VInt 0);
      ("end", VInt (-1));
      ("stride", VInt 1);
      ("desired_image_height", VInt 680);
      ("desired_image_width", VInt 1200);
      ("num_frames", VInt (-1)) ].

(** A configuration record with tracking on. *)
Definition sample_config : gmap string value :=
  list_to_map
    [ ("seed", VInt 0);
      ("primary_device", VStr "cuda:0");
      ("workdir", VStr "./experiments/Replica");
      ("run_name", VStr "room0_0");
      ("load_checkpoint", VBool false);
      ("data", VDict sample_data);
      ("use_wandb", VBool true);
      ("wandb", VDict (list_to_map
         [ ("name", VStr "room0");
           ("project", VStr "SGS-SLAM");
           ("entity", VStr "lab");
           ("group", VStr "Replica");
           ("eval_save_qual", VBool true) ]));
      ("mapping", VDict (list_to_map
         [ ("sil_thres", VFloat (1 # 2));
           ("num_iters", VInt 60);
           ("add_new_gaussians", VBool true) ]));
      ("eval_every", VInt 5) ].

(** A world in which the train-split evaluation raises. *)
Definition eval_raises_world : world := {|
  w_seed_everything := w_seed_everything calm_world;
  w_torch_device := w_torch_device calm_world;
  w_int := w_int calm_world;
  w_cuda_set_device := w_cuda_set_device calm_world;
  w_makedirs := w_makedirs calm_world;
  w_copy := w_copy calm_world;
  w_load_dataset_config := w_load_dataset_config calm_world;
  w_dataset_init := w_dataset_init calm_world;
  w_np_load := w_np_load calm_world;
  w_device_available := w_device_available calm_world;
  w_wandb_init := w_wandb_init calm_world;
  w_eval := λ _, Raise (RuntimeError "CUDA out of memory");
  w_eval_nvs := w_eval_nvs calm_world;
  w_finish := w_finish calm_world
|}.

(** The call [ev] is an evaluation call that returned. *)
Definition evaluation_returned (w : world) (ev : event) : Prop :=
  match ev with
  | EEval a => w_eval w a = Ok tt
  | EEvalNvs a => w_eval_nvs w a = Ok tt
  | _ => False
  end.

(** The orders in which a run with tracking on can call the tracking
    service and the evaluation routines. *)
Definition tracked_lifecycles : list (list tag) :=
  [ [];
    [TWandbInit];
    [TWandbInit; TEval];
    [TWandbInit; TEvalNvs];
    [TWandbInit; TEval; TWandbFinish];
    [TWandbInit; TEvalNvs; TWandbFinish] ].

(** The same for a run with tracking off. *)
Definition untracked_lifecycles : list (list tag) :=
  [ []; [TEval]; [TEvalNvs] ].

(** The sample configuration, evaluated on the novel-view split. *)
Definition sample_data_nvs : gmap string value :=
  <["use_train_split" := VBool false]> sample_data.

Definition sample_config_nvs : gmap string value :=
  <["data" := VDict sample_data_nvs]> sample_config.

(** The sample configuration with tracking off. *)
Definition sample_config_untracked : gmap string value :=
  <["use_wandb" := VBool false]> sample_config.

(** The sample configuration on a CPU as the primary device. *)
Definition sample_config_cpu : gmap string value :=
  <["primary_device" := VStr "cpu"]> sample_config.

(** The sample configuration, resumed from a checkpoint. *)
Definition sample_config_resumed : gmap string value :=
  <["load_checkpoint" := VBool true]> sample_config.

(** The sample configuration without the [num_frames] key. *)
Definition sample_data_no_frames : gmap string value :=
  delete "num_frames" sample_data.

Definition sample_config_no_frames : gmap string value :=
  <["data" := VDict sample_data_no_frames]> sample_config.

(** The sample configuration with the [load_semantics] key, set to
    [False]. *)
Definition sample_data_semantics : gmap string value :=
  <["load_semantics" := VBool false]>
  (<["num_semantic_classes" := VInt 101]> sample_data).

Definition sample_config_semantics : gmap string value :=
  <["data" := VDict sample_data_semantics]> sample_config.

(* ===================================================================== *)
(** ** Vocabulary of the further properties                               *)
(* ===================================================================== *)

(** A tensor after the rows whose semantic id is in [ids] are dropped. *)
Definition masked (ids sids : list Z) (t : tensor) : tensor :=
  match t_data t with
  | Scalar0 _ => t
  | Rows trail rows => with_data t (Rows trail (kept_rows ids sids rows))
  end.

(** The parameter mapping after that: every tensor but the two camera
    poses is masked. *)
Definition filtered (ids sids : list Z) (params : gmap string tensor)
    : gmap string tensor :=
  map_imap (λ k t, Some (if bool_decide (k ∈ camera_keys) then t
                         else masked ids sids t)) params.

(** Every per-element tensor of [params] has [n] rows. *)
Definition aligned (n : nat) (params : gmap string tensor) : Prop :=
  ∀ k t, params !! k = Some t → k ∉ camera_keys →
         num_rows (t_data t) = Some n.

(** The mask made of [semantic_ids], which is on the device [dev], can
    index every per-element tensor of [params]. *)
Definition usable (dev : string) (params : gmap string tensor) : Prop :=
  ∀ k t, params !! k = Some t → k ∉ camera_keys →
         mask_usable dev (t_device t) = true.

(** The ids are values of the dtype [d]. *)
Definition held_by (d : dtype) (ids : list Z) : Prop :=
  Forall (λ x, representable d x = true) ids.

(** The sample parameters with a tensor that is not per-element. *)
Definition sample_params_misaligned : gmap string tensor :=
  <["intrinsics" := {| t_dtype := Float32; t_device := "cuda:0";
                       t_requires_grad := true;
                       t_data := Rows [3%nat] (ints [[1; 0; 0]; [0; 1; 0]; [0; 0; 1]]) |}]>
  sample_params.

(** The sample parameters with the semantic ids as a flat vector. *)
Definition sample_params_flat : gmap string tensor :=
  <["semantic_ids" := {| t_dtype := Int64; t_device := "cuda:0";
                         t_requires_grad := false;
                         t_data := Rows [] (ints [[0]; [1]; [2]; [0]]) |}]>
  sample_params.

(** An archive that also holds an array of strings, which
    [torch.tensor] does not convert. *)
Definition sample_archive_labels : gmap string ndarray :=
  <["class_names" := {| a_dtype := Unsupported;
                        a_data := Rows [] (ints [[0]; [1]]) |}]> sample_archive.

(** The calm world with that archive. *)
Definition labels_world : world := {|
  w_seed_everything := w_seed_everything calm_world;
  w_torch_device := w_torch_device calm_world;
  w_int := w_int calm_world;
  w_cuda_set_device := w_cuda_set_device calm_world;
  w_makedirs := w_makedirs calm_world;
  w_copy := w_copy calm_world;
  w_load_dataset_config := w_load_dataset_config calm_world;
  w_dataset_init := w_dataset_init calm_world;
  w_np_load := λ _, Ok sample_archive_labels;
  w_device_available := w_device_available calm_world;
  w_wandb_init := w_wandb_init calm_world;
  w_eval := w_eval calm_world;
  w_eval_nvs := w_eval_nvs calm_world;
  w_finish := w_finish calm_world
|}.

(** The calm world on a machine without the device asked for. *)
Definition cpu_only_world : world := {|
  w_seed_everything := w_seed_everything calm_world;
  w_torch_device := w_torch_device calm_world;
  w_int := w_int calm_world;
  w_cuda_set_device := w_cuda_set_device calm_world;
  w_makedirs := w_makedirs calm_world;
  w_copy := w_copy calm_world;
  w_load_dataset_config := w_load_dataset_config calm_world;
  w_dataset_init := w_dataset_init calm_world;
  w_np_load := w_np_load calm_world;
  w_device_available := λ device, String.eqb device "cpu";
  w_wandb_init := w_wandb_init calm_world;
  w_eval := w_eval calm_world;
  w_eval_nvs := w_eval_nvs calm_world;
  w_finish := w_finish calm_world
|}.

(** Where a call of "Load Dataset" gets its arguments from: the path of
    a dataset config file is the one of the sub-record [dc]; a
    constructor is called on the config dict [gcfg], which is the loaded
    file or, without a file, the one-entry dictionary of the dataset
    name, and with the entries of [dc]. *)
Definition dataset_call_from (w : world) (device : value)
    (dc : gmap string value) (ev : event) : Prop :=
  match ev with
  | ELoadDatasetConfig p => dc !! "gradslam_data_cfg" = Some p
  | EDatasetInit cls cfg basedir sequence kw =>
      ∃ gcfg s,
        match dc !! "gradslam_data_cfg" with
        | Some p => w_load_dataset_config w p = Ok gcfg
        | None => ∃ name, dc !! "dataset_name" = Some name
                          ∧ gcfg = VDict (<["dataset_name" := name]> ∅)
        end
        ∧ cfg = ctor_config cls gcfg
        ∧ get_dataset w gcfg basedir sequence kw
          = construct w cls cfg basedir sequence kw
        ∧ dc !! "basedir" = Some basedir
        ∧ dc !! "sequence" = Some (VStr s)
        ∧ sequence = basename s
        ∧ dc !! "start" = Some (kw_start kw)
        ∧ dc !! "end" = Some (kw_end kw)
        ∧ dc !! "stride" = Some (kw_stride kw)
        ∧ dc !! "desired_image_height" = Some (kw_desired_height kw)
        ∧ dc !! "desired_image_width" = Some (kw_desired_width kw)
        ∧ kw_device kw = device
        ∧ kw_relative_pose kw = true
  | _ => False
  end.

(** The keyword arguments the sample configuration gives the dataset
    constructor. *)
Definition sample_replica_kwargs : dataset_kwargs := {|
  kw_start := VInt 0; kw_end := VInt (-1); kw_stride := VInt 1;
  kw_desired_height := VInt 680; kw_desired_width := VInt 1200;
  kw_device := VStr "cuda:0"; kw_relative_pose := true;
  kw_ignore_bad := VBool false; kw_use_train_split := VBool true;
  kw_load_semantics := VBool false; kw_num_semantic_classes := VInt 0
|}.

(** The config dict the sample configuration gives [get_dataset]. *)
Definition sample_gradslam_cfg : value :=
  VDict (<["dataset_name" := VStr "Replica"]> ∅).

(** Where the arguments of [wandb.init] come from: the [wandb] record of
    the configuration, the name computed for the split, and the
    configuration itself. *)
Definition tracking_init_from (config : gmap string value)
    (wandb_name : string) (ev : event) : Prop :=
  match ev with
  | EWandbInit a =>
      wi_name a = wandb_name
      ∧ wi_config a = config
      ∧ getitem2 config "wandb" "project" = Ok (wi_project a)
      ∧ getitem2 config "wandb" "entity" = Ok (wi_entity a)
      ∧ getitem2 config "wandb" "group" = Ok (wi_group a)
  | _ => False
  end.

(** Where the keyword arguments of an evaluation call come from: the
    [mapping] record and [eval_every]; the tracking run and
    [eval_save_qual] are passed with tracking on only. *)
Definition evaluation_from (config : gmap string value)
    (wandb_run : option run_handle) (ev : event) : Prop :=
  match ev with
  | EEval a | EEvalNvs a =>
      getitem2 config "mapping" "sil_thres" = Ok (ea_sil_thres a)
      ∧ getitem2 config "mapping" "num_iters" = Ok (ea_mapping_iters a)
      ∧ getitem2 config "mapping" "add_new_gaussians"
        = Ok (ea_add_new_gaussians a)
      ∧ config !! "eval_every" = Some (ea_eval_every a)
      ∧ ea_save_frames a = true
      ∧ ∃ use_wandb, config !! "use_wandb" = Some use_wandb
          ∧ if truthy use_wandb
            then ∃ run save_qual,
                   wandb_run = Some run
                   ∧ ea_wandb_run a = Some run
                   ∧ getitem2 config "wandb" "eval_save_qual" = Ok save_qual
                   ∧ ea_wandb_save_qual a = Some save_qual
            else ea_wandb_run a = None ∧ ea_wandb_save_qual a = None
  | _ => False
  end.

(** The arguments of [wandb.init] on the sample configuration. *)
Definition sample_wandb_init_args : wandb_init_args := {|
  wi_project := VStr "SGS-SLAM"; wi_entity := VStr "lab";
  wi_group := VStr "Replica"; wi_name := "room0_Train_Split";
  wi_config := <["data" := VDict (apply_defaults sample_data)]> sample_config
|}.

(** The dataset the sample configuration constructs in the calm world. *)
Definition sample_dataset : dataset := {|
  ds_class := ReplicaDataset; ds_config := Some sample_gradslam_cfg;
  ds_basedir := VStr "./data/Replica"; ds_sequence := "room0";
  ds_kwargs := sample_replica_kwargs; ds_len := 5
|}.

(** The parameters [load_scene_data] makes of the sample archive when no
    key is excluded. *)
Definition sample_loaded_params : gmap string pval :=
  (λ a, PTen {| t_dtype := Float32; t_device := "cuda:0";
                t_requires_grad := true;
                t_data := map_tdata to_float32 (a_data a) |})
    <$> sample_archive.

(** The arguments of the evaluation call on the sample configuration. *)
Definition sample_eval_args : eval_args := {|
  ea_dataset := sample_dataset; ea_params := sample_loaded_params;
  ea_num_frames := VInt 5;
  ea_eval_dir := "./experiments/Replica/room0_0/eval_train";
  ea_sil_thres := VFloat (1 # 2); ea_wandb_run := Some 0%nat;
  ea_wandb_save_qual := Some (VBool true);
  ea_mapping_iters := VInt 60; ea_add_new_gaussians := VBool true;
  ea_load_semantics := VBool false; ea_eval_every := VInt 5;
  ea_save_frames := true
|}.

(** The arguments of the evaluation call when the sample configuration
    names the CPU as [primary_device]: the dataset is made for the CPU,
    the parameters are the same. *)
Definition sample_eval_args_cpu : eval_args := {|
  ea_dataset := {|
    ds_class := ReplicaDataset; ds_config := Some sample_gradslam_cfg;
    ds_basedir := VStr "./data/Replica"; ds_sequence := "room0";
    ds_kwargs := {|
      kw_start := VInt 0; kw_end := VInt (-1); kw_stride := VInt 1;
      kw_desired_height := VInt 680; kw_desired_width := VInt 1200;
      kw_device := VStr "cpu"; kw_relative_pose := true;
      kw_ignore_bad := VBool false; kw_use_train_split := VBool true;
      kw_load_semantics := VBool false; kw_num_semantic_classes := VInt 0
    |};
    ds_len := 5
  |};
  ea_params := sample_loaded_params;
  ea_num_frames := VInt 5;
  ea_eval_dir := "./experiments/Replica/room0_0/eval_train";
  ea_sil_thres := VFloat (1 # 2); ea_wandb_run := Some 0%nat;
  ea_wandb_save_qual := Some (VBool true);
  ea_mapping_iters := VInt 60; ea_add_new_gaussians := VBool true;
  ea_load_semantics := VBool false; ea_eval_every := VInt 5;
  ea_save_frames := true
|}.

(** The calls of a run that completes, by their tags and in order, as
    the configuration decides them. *)
Definition completed_run_calls (config : gmap string value) : list tag :=
  ([TSeedEverything; TTorchDevice]
   ++ match config !! "primary_device" with
      | Some (VStr s) => if startswith "cuda:" s then [TCudaSetDevice] else []
      | _ => []
      end
   ++ match config !! "load_checkpoint" with
      | Some load_checkpoint =>
          if truthy load_checkpoint then [] else [TMakedirs; TCopy]
      | None => []
      end
   ++ [TPrint]
   ++ match config !! "data" with
      | Some (VDict dc) =>
          (if has_key dc "gradslam_data_cfg" then [TLoadDatasetConfig]
           else [])
          ++ [TDatasetInit; TNpLoad]
          ++ match config !! "use_wandb",
                   apply_defaults dc !! "use_train_split" with
             | Some use_wandb, Some use_train_split =>
                 (if truthy use_wandb then [TWandbInit] else [])
                 ++ [TNoGradEnter;
                     if truthy use_train_split then TEval else TEvalNvs;
                     TNoGradExit]
                 ++ (if truthy use_wandb then [TWandbFinish] else [])
             | _, _ => []
             end
      | _ => []
      end)%list.

(** The ways the [torch.no_grad()] scope and the evaluation calls can
    follow each other in a run. *)
Definition no_grad_scopes : list (list tag) :=
  [ [];
    [TNoGradEnter; TNoGradExit];
    [TNoGradEnter; TEval; TNoGradExit];
    [TNoGradEnter; TEvalNvs; TNoGradExit] ].

(** The sample configuration with tracking off and no [wandb] record. *)
Definition sample_config_no_wandb : gmap string value :=
  delete "wandb" sample_config_untracked.

(* ===================================================================== *)
(** * Properties                                                          *)
(* ===================================================================== *)

(** ** Strings *)

Lemma nat_of_lower_ascii (a : ascii) :
  nat_of_ascii (lower_ascii a) =
    if is_upper a then (nat_of_ascii a + 32)%nat else nat_of_ascii a.
Proof.
  unfold lower_ascii. destruct (is_upper a) eqn:Hup; [|reflexivity].
  apply nat_ascii_embedding.
  unfold is_upper in Hup. apply andb_true_iff in Hup as [_ Hle].
  apply Nat.leb_le in Hle. lia.
Qed.

Lemma ascii_eqb_nat (a b : ascii) :
  Ascii.eqb a b = Nat.eqb (nat_of_ascii a) (nat_of_ascii b).
Proof.
  destruct (Ascii.eqb_spec a b) as [->|Hne].
  - symmetry. apply Nat.eqb_refl.
  - symmetry. apply Nat.eqb_neq. intros Heq. apply Hne.
    rewrite <- (ascii_nat_embedding a), <- (ascii_nat_embedding b).
    by rewrite Heq.
Qed.

Lemma ascii_ci_eqb_lower (a b : ascii) :
  ascii_ci_eqb a b = Ascii.eqb (lower_ascii a) (lower_ascii b).
Proof.
  unfold ascii_ci_eqb.
  rewrite !ascii_eqb_nat, !nat_of_lower_ascii.
  unfold is_upper, is_lower.
  generalize (nat_of_ascii a) (nat_of_ascii b). intros n m.
  repeat match goal with
         | |- context [(?x <=? ?y)%nat] => destruct (Nat.leb_spec x y)
         | |- context [Nat.eqb ?x ?y] => destruct (Nat.eqb_spec x y)
         end; cbn in *; try reflexivity; lia.
Qed.

(** On ASCII text [str.lower] goes byte by byte. *)
Lemma lower_ascii_cons (b : ascii) (t : string) :
  is_ascii (String b t) = true →
  lower (String b t) = String (lower_ascii b) (lower t)
  ∧ is_ascii t = true.
Proof.
  unfold is_ascii. cbn [list_ascii_of_string forallb].
  intros Hb. apply andb_true_iff in Hb as [Hb Ht]. split; [|exact Ht].
  apply Nat.ltb_lt in Hb.
  assert (H196 : Ascii.eqb b (ascii_of_nat 196) = false).
  { rewrite ascii_eqb_nat. apply Nat.eqb_neq.
    change (nat_of_ascii (ascii_of_nat 196)) with 196%nat. lia. }
  assert (H226 : Ascii.eqb b (ascii_of_nat 226) = false).
  { rewrite ascii_eqb_nat. apply Nat.eqb_neq.
    change (nat_of_ascii (ascii_of_nat 226)) with 226%nat. lia. }
  unfold lower. destruct t as [|c1 [|c2 t]]; cbn [decode].
  - reflexivity.
  - by rewrite H196.
  - by rewrite H196, H226.
Qed.

Lemma lower_ascii_below (b : ascii) :
  (nat_of_ascii b < 128)%nat → (nat_of_ascii (lower_ascii b) < 128)%nat.
Proof.
  intros Hb. rewrite nat_of_lower_ascii. unfold is_upper. cbv zeta.
  destruct (65 <=? nat_of_ascii b)%nat; [|exact Hb].
  destruct (Nat.leb_spec (nat_of_ascii b) 90); cbn [andb]; lia.
Qed.

(** A string matches an ASCII name case-insensitively exactly when the
    two have the same lower case. *)
Lemma ci_matches_lower (us : list uchar) :
  ∀ t, is_ascii t = true →
       (ci_matches us t = true ↔ lower_chars us = lower t).
Proof.
  induction us as [|u us IH]; intros [|b t] Ht.
  - done.
  - destruct (lower_ascii_cons b t Ht) as [-> _]. cbn. split; discriminate.
  - destruct u; cbn; split; discriminate.
  - destruct (lower_ascii_cons b t Ht) as [-> Ht'].
    destruct u as [a| |]; cbn [ci_matches lower_chars].
    + rewrite andb_true_iff, ascii_ci_eqb_lower, Ascii.eqb_eq, (IH t Ht').
      split; [intros [-> ->]; reflexivity | intros [= -> ->]; auto].
    + rewrite andb_true_iff, ascii_ci_eqb_lower, Ascii.eqb_eq, (IH t Ht').
      change (lower_ascii "k") with "k"%char.
      split; [intros [<- ->]; reflexivity | intros [= <- ->]; auto].
    + split; [discriminate|]. intros [= _ Hrest]. exfalso.
      destruct t as [|b' t]; [discriminate Hrest|].
      destruct (lower_ascii_cons b' t Ht') as [Hl _]. rewrite Hl in Hrest.
      injection Hrest as Hb' _.
      assert (Hlt : (nat_of_ascii b' < 128)%nat).
      { unfold is_ascii in Ht'. cbn [list_ascii_of_string forallb] in Ht'.
        apply andb_true_iff in Ht' as [Ht' _]. by apply Nat.ltb_lt. }
      apply lower_ascii_below in Hlt. rewrite <- Hb' in Hlt.
      change (nat_of_ascii (ascii_of_nat 204)) with 204%nat in Hlt. lia.
Qed.

Lemma eq_ci_lower (s t : string) :
  is_ascii t = true → (eq_ci s t = true ↔ lower s = lower t).
Proof. intros Ht. unfold eq_ci, lower at 1. by apply ci_matches_lower. Qed.

Lemma eq_ci_lower_false (s t : string) :
  is_ascii t = true → (eq_ci s t = false ↔ lower s ≠ lower t).
Proof.
  intros Ht. rewrite <- (eq_ci_lower s t Ht).
  destruct (eq_ci s t); split; congruence.
Qed.

(** ** The monad *)

Lemma bind_lift_ok {A B} (a : A) (f : A → M B) :
  (lift (Ok a) ≫= f) = f a.
Proof. unfold lift, mbind, M_bind. destruct (f a). reflexivity. Qed.

Lemma bind_lift_raise {A B} (e : exn) (f : A → M B) :
  (lift (Raise e) ≫= f) = raise e.
Proof. reflexivity. Qed.

Lemma trace_bind {A B} (m : M A) (f : A → M B) :
  trace (m ≫= f) =
    match outcome m with
    | Ok a => (trace m ++ trace (f a))%list
    | Raise _ => trace m
    end.
Proof.
  destruct m as [t [a|e]]; cbn; [|reflexivity].
  destruct (f a); reflexivity.
Qed.

Lemma outcome_bind {A B} (m : M A) (f : A → M B) :
  outcome (m ≫= f) =
    match outcome m with
    | Ok a => outcome (f a)
    | Raise e => Raise e
    end.
Proof.
  destruct m as [t [a|e]]; cbn; [|reflexivity].
  destruct (f a); reflexivity.
Qed.

Lemma M_ext {A} (m m' : M A) :
  trace m = trace m' → outcome m = outcome m' → m = m'.
Proof. destruct m, m'. cbn. by intros -> ->. Qed.

Lemma trace_bind_lift {A B} (r : result A) (f : A → M B) :
  trace (lift r ≫= f) =
    match r with Ok a => trace (f a) | Raise _ => [] end.
Proof. rewrite trace_bind. by destruct r. Qed.

Lemma outcome_bind_lift {A B} (r : result A) (f : A → M B) :
  outcome (lift r ≫= f) =
    match r with Ok a => outcome (f a) | Raise e => Raise e end.
Proof. rewrite outcome_bind. by destruct r. Qed.

Lemma trace_bind_call {A B} (ev : event) (r : result A) (f : A → M B) :
  trace (call ev r ≫= f) =
    ev :: match r with Ok a => trace (f a) | Raise _ => [] end.
Proof. rewrite trace_bind. by destruct r. Qed.

Lemma outcome_bind_call {A B} (ev : event) (r : result A) (f : A → M B) :
  outcome (call ev r ≫= f) =
    match r with Ok a => outcome (f a) | Raise e => Raise e end.
Proof. rewrite outcome_bind. by destruct r. Qed.

Lemma trace_bind_emit {B} (ev : event) (f : unit → M B) :
  trace (emit ev ≫= f) = ev :: trace (f tt).
Proof. by rewrite trace_bind. Qed.

Lemma outcome_bind_emit {B} (ev : event) (f : unit → M B) :
  outcome (emit ev ≫= f) = outcome (f tt).
Proof. by rewrite outcome_bind. Qed.

Lemma trace_ret {A} (a : A) : trace (mret a : M A) = [].
Proof. reflexivity. Qed.

Lemma outcome_ret {A} (a : A) : outcome (mret a : M A) = Ok a.
Proof. reflexivity. Qed.

Lemma trace_raise {A} (e : exn) : trace (raise e : M A) = [].
Proof. reflexivity. Qed.

Lemma outcome_raise {A} (e : exn) : outcome (raise e : M A) = Raise e.
Proof. reflexivity. Qed.

Lemma trace_call {A} (ev : event) (r : result A) : trace (call ev r) = [ev].
Proof. reflexivity. Qed.

Lemma outcome_call {A} (ev : event) (r : result A) : outcome (call ev r) = r.
Proof. reflexivity. Qed.

Lemma trace_lift {A} (r : result A) : trace (lift r) = [].
Proof. reflexivity. Qed.

Lemma outcome_lift {A} (r : result A) : outcome (lift r) = r.
Proof. reflexivity. Qed.

Lemma trace_with_no_grad {A} (m : M A) :
  trace (with_no_grad m) = ENoGradEnter :: (trace m ++ [ENoGradExit])%list.
Proof. reflexivity. Qed.

Lemma outcome_with_no_grad {A} (m : M A) :
  outcome (with_no_grad m) = outcome m.
Proof. reflexivity. Qed.

Create Rewrite HintDb run.
#[export] Hint Rewrite @trace_bind_lift @outcome_bind_lift @trace_bind_call
  @outcome_bind_call @trace_bind_emit @outcome_bind_emit @trace_ret
  @outcome_ret @trace_raise @outcome_raise @trace_call @outcome_call
  @trace_lift @outcome_lift @trace_with_no_grad @outcome_with_no_grad
  @trace_bind @outcome_bind : run.

(** Runs the script one scrutinee at a time: every lookup and every call
    either stops the run or lets it go on. *)
Ltac run_case :=
  match goal with
  | |- context [trace (if negb ?b then _ else _)] => destruct b eqn:?
  | |- context [outcome (if negb ?b then _ else _)] => destruct b eqn:?
  | |- context [trace (if ?b then _ else _)] => destruct b eqn:?
  | |- context [outcome (if ?b then _ else _)] => destruct b eqn:?
  | |- context [let '(_, _) := ?p in _] => is_var p; destruct p
  | |- context [match ?r with Ok _ => _ | Raise _ => _ end] =>
      lazymatch r with
      | outcome _ => fail
      | trace _ => fail
      | _ => let H := fresh "Hrun" in destruct r eqn:H
      end
  end.

Ltac run := repeat (autorewrite with run in *; cbn [app negb] in *;
                    try run_case).

(** ** [get_dataset] *)

Lemma get_dataset_name (w : world) (cfg : gmap string value) (s : string)
    basedir sequence kw :
  cfg !! "dataset_name" = Some (VStr s) →
  get_dataset w (VDict cfg) basedir sequence kw =
    let lname := lower s in
    if str_in lname ["icl"] then
      construct w ICLDataset (Some (VDict cfg)) basedir sequence kw
    else if str_in lname ["replica"] then
      construct w ReplicaDataset (Some (VDict cfg)) basedir sequence kw
    else if str_in lname ["replicav2"] then
      construct w ReplicaV2Dataset (Some (VDict cfg)) basedir sequence kw
    else if str_in lname ["azure"; "azurekinect"] then
      construct w AzureKinectDataset (Some (VDict cfg)) basedir sequence kw
    else if str_in lname ["scannet"] then
      construct w ScannetDataset (Some (VDict cfg)) basedir sequence kw
    else if str_in lname ["ai2thor"] then
      construct w Ai2thorDataset (Some (VDict cfg)) basedir sequence kw
    else if str_in lname ["record3d"] then
      construct w Record3DDataset (Some (VDict cfg)) basedir sequence kw
    else if str_in lname ["realsense"] then
      construct w RealsenseDataset (Some (VDict cfg)) basedir sequence kw
    else if str_in lname ["tum"] then
      construct w TUMDataset (Some (VDict cfg)) basedir sequence kw
    else if str_in lname ["scannetpp"] then
      construct w ScannetPPDataset None basedir sequence kw
    else raise (ValueError ("Unknown dataset name " ++ s)).
Proof.
  intros Hname. unfold get_dataset.
  assert (subscript (VDict cfg) "dataset_name" = Ok (VStr s)) as ->
    by (unfold subscript, getitem; rewrite Hname; reflexivity).
  rewrite bind_lift_ok. cbn [str_lower]. rewrite bind_lift_ok.
  reflexivity.
Qed.

Lemma str_in_cons_ne (x y : string) (l : list string) :
  x ≠ y → str_in x (y :: l) = str_in x l.
Proof.
  intros Hne. unfold str_in. simpl.
  apply String.eqb_neq in Hne. rewrite Hne. reflexivity.
Qed.

Lemma construct_trace (w : world) cls cfg basedir sequence kw :
  trace (construct w cls cfg basedir sequence kw) =
    [EDatasetInit cls cfg basedir sequence kw].
Proof.
  unfold construct, call. cbn.
  destruct (w_dataset_init w cls cfg basedir sequence kw); reflexivity.
Qed.

Lemma construct_outcome (w : world) cls cfg basedir sequence kw :
  outcome (construct w cls cfg basedir sequence kw) =
    match w_dataset_init w cls cfg basedir sequence kw with
    | Ok n => Ok {| ds_class := cls; ds_config := cfg; ds_basedir := basedir;
                    ds_sequence := sequence; ds_kwargs := kw; ds_len := n |}
    | Raise e => Raise e
    end.
Proof.
  unfold construct, call. cbn.
  destruct (w_dataset_init w cls cfg basedir sequence kw); reflexivity.
Qed.

(** C3, the claim as the specification words it: each of the ten names,
    matched case-insensitively, constructs its class, and every other
    string is refused. It fails on the name ["azure"], which is none of
    the ten and still constructs an [AzureKinectDataset]. *)
Lemma get_dataset_azure_not_refused :
  (∀ name cls, (name, cls) ∈ supported_datasets → eq_ci "azure" name = false)
  ∧ get_dataset calm_world (VDict {["dataset_name" := VStr "azure"]})
      (VStr "data") "seq" sample_kwargs
    = construct calm_world AzureKinectDataset
        (Some (VDict {["dataset_name" := VStr "azure"]}))
        (VStr "data") "seq" sample_kwargs
  ∧ ¬ (∃ msg, outcome (get_dataset calm_world
                 (VDict {["dataset_name" := VStr "azure"]})
                 (VStr "data") "seq" sample_kwargs)
              = Raise (ValueError msg)).
Proof.
  split; [|split].
  - intros name cls Hin. unfold supported_datasets in Hin.
    repeat (apply elem_of_cons in Hin as [Hin|Hin]; [by inversion Hin|]).
    by apply elem_of_nil in Hin.
  - by vm_compute.
  - intros [msg Hmsg]. vm_compute in Hmsg. discriminate Hmsg.
Qed.

(** C3, amended: a name that matches one of the ten supported names
    case-insensitively constructs exactly that class, [ScannetPPDataset]
    without the config dict; a name that matches ["azure"] constructs
    [AzureKinectDataset] too; every other name raises the [ValueError] of
    an unknown dataset, and no constructor is called. The match is the
    one of [str.lower], for which the Kelvin sign is a capital K. *)
Theorem get_dataset_dispatch (w : world) (cfg : gmap string value)
    (s : string) (basedir : value) (sequence : string) (kw : dataset_kwargs) :
  cfg !! "dataset_name" = Some (VStr s) →
  (∀ name cls, (name, cls) ∈ supported_datasets → eq_ci s name = true →
     get_dataset w (VDict cfg) basedir sequence kw
     = construct w cls (ctor_config cls (VDict cfg)) basedir sequence kw)
  ∧ (eq_ci s "azure" = true →
     get_dataset w (VDict cfg) basedir sequence kw
     = construct w AzureKinectDataset (Some (VDict cfg)) basedir sequence kw)
  ∧ ((∀ name cls, (name, cls) ∈ supported_datasets → eq_ci s name = false) →
     eq_ci s "azure" = false →
     get_dataset w (VDict cfg) basedir sequence kw
     = raise (ValueError ("Unknown dataset name " ++ s))).
Proof.
  intros Hname. rewrite (get_dataset_name w cfg s) by exact Hname.
  split; [|split].
  - intros name cls Hin Hci.
    unfold supported_datasets in Hin.
    repeat (apply elem_of_cons in Hin as [Hin|Hin];
            [inversion Hin; subst;
             apply eq_ci_lower in Hci; [|reflexivity];
             cbv zeta; rewrite Hci; reflexivity|]).
    by apply elem_of_nil in Hin.
  - intros Hci. apply eq_ci_lower in Hci; [|reflexivity].
    cbv zeta. rewrite Hci. reflexivity.
  - intros Hnone Hazure. apply eq_ci_lower_false in Hazure; [|reflexivity].
    assert (Hne : ∀ name cls, (name, cls) ∈ supported_datasets →
                              lower s ≠ lower name).
    { intros name cls Hin. apply eq_ci_lower_false; [|by eauto].
      unfold supported_datasets in Hin.
      repeat (apply elem_of_cons in Hin as [Hin|Hin];
              [inversion Hin; reflexivity|]).
      by apply elem_of_nil in Hin. }
    unfold supported_datasets in Hne. cbv zeta.
    pose proof (Hne "ICL" ICLDataset ltac:(repeat constructor)) as H1.
    pose proof (Hne "Replica" ReplicaDataset ltac:(repeat constructor)) as H2.
    pose proof (Hne "ReplicaV2" ReplicaV2Dataset ltac:(repeat constructor)) as H3.
    pose proof (Hne "AzureKinect" AzureKinectDataset ltac:(repeat constructor)) as H4.
    pose proof (Hne "Scannet" ScannetDataset ltac:(repeat constructor)) as H5.
    pose proof (Hne "Ai2thor" Ai2thorDataset ltac:(repeat constructor)) as H6.
    pose proof (Hne "Record3D" Record3DDataset ltac:(repeat constructor)) as H7.
    pose proof (Hne "Realsense" RealsenseDataset ltac:(repeat constructor)) as H8.
    pose proof (Hne "TUM" TUMDataset ltac:(repeat constructor)) as H9.
    pose proof (Hne "ScannetPP" ScannetPPDataset ltac:(repeat constructor)) as H10.
    clear Hne Hnone.
    change (lower "ICL") with "icl" in H1.
    change (lower "Replica") with "replica" in H2.
    change (lower "ReplicaV2") with "replicav2" in H3.
    change (lower "AzureKinect") with "azurekinect" in H4.
    change (lower "Scannet") with "scannet" in H5.
    change (lower "Ai2thor") with "ai2thor" in H6.
    change (lower "Record3D") with "record3d" in H7.
    change (lower "Realsense") with "realsense" in H8.
    change (lower "TUM") with "tum" in H9.
    change (lower "ScannetPP") with "scannetpp" in H10.
    change (lower "azure") with "azure" in Hazure.
    rewrite !str_in_cons_ne by assumption.
    reflexivity.
Qed.

(** The dispatch at work: ["rEpLiCaV2"] constructs a [ReplicaV2Dataset]
    with the config dict, ["scannetPP"] a [ScannetPPDataset] without it,
    ["AZURE"] an [AzureKinectDataset], as does ["AZUREKINECT"] written with
    the Kelvin sign, and ["kitti"] is refused. *)
Lemma get_dataset_dispatch_witness :
  get_dataset calm_world
      (VDict {["dataset_name" := VStr ("AZURE" ++ kelvin_sign ++ "INECT")]})
      (VStr "data") "seq" sample_kwargs
  = construct calm_world AzureKinectDataset
      (Some (VDict {["dataset_name"
                     := VStr ("AZURE" ++ kelvin_sign ++ "INECT")]}))
      (VStr "data") "seq" sample_kwargs
  ∧ get_dataset calm_world (VDict {["dataset_name" := VStr "rEpLiCaV2"]})
      (VStr "data") "seq" sample_kwargs
  = construct calm_world ReplicaV2Dataset
      (Some (VDict {["dataset_name" := VStr "rEpLiCaV2"]}))
      (VStr "data") "seq" sample_kwargs
  ∧ get_dataset calm_world (VDict {["dataset_name" := VStr "scannetPP"]})
      (VStr "data") "seq" sample_kwargs
  = construct calm_world ScannetPPDataset None
      (VStr "data") "seq" sample_kwargs
  ∧ get_dataset calm_world (VDict {["dataset_name" := VStr "AZURE"]})
      (VStr "data") "seq" sample_kwargs
  = construct calm_world AzureKinectDataset
      (Some (VDict {["dataset_name" := VStr "AZURE"]}))
      (VStr "data") "seq" sample_kwargs
  ∧ get_dataset calm_world (VDict {["dataset_name" := VStr "kitti"]})
      (VStr "data") "seq" sample_kwargs
  = raise (ValueError "Unknown dataset name kitti").
Proof.
  split; [|split; [|split; [|split]]].
  - refine (proj1 (get_dataset_dispatch calm_world
              {["dataset_name" := VStr ("AZURE" ++ kelvin_sign ++ "INECT")]}
              ("AZURE" ++ kelvin_sign ++ "INECT")
              (VStr "data") "seq" sample_kwargs _)
              "AzureKinect" AzureKinectDataset _ _).
    + reflexivity.
    + unfold supported_datasets. repeat constructor.
    + reflexivity.
  - refine (proj1 (get_dataset_dispatch calm_world
              {["dataset_name" := VStr "rEpLiCaV2"]} "rEpLiCaV2"
              (VStr "data") "seq" sample_kwargs _)
              "ReplicaV2" ReplicaV2Dataset _ _).
    + reflexivity.
    + unfold supported_datasets. repeat constructor.
    + reflexivity.
  - refine (proj1 (get_dataset_dispatch calm_world
              {["dataset_name" := VStr "scannetPP"]} "scannetPP"
              (VStr "data") "seq" sample_kwargs _)
              "ScannetPP" ScannetPPDataset _ _).
    + reflexivity.
    + unfold supported_datasets. repeat constructor.
    + reflexivity.
  - refine (proj1 (proj2 (get_dataset_dispatch calm_world
              {["dataset_name" := VStr "AZURE"]} "AZURE"
              (VStr "data") "seq" sample_kwargs _)) _).
    + reflexivity.
    + reflexivity.
  - refine (proj2 (proj2 (get_dataset_dispatch calm_world
              {["dataset_name" := VStr "kitti"]} "kitti"
              (VStr "data") "seq" sample_kwargs _)) _ _).
    + reflexivity.
    + intros name cls Hin. unfold supported_datasets in Hin.
      repeat (apply elem_of_cons in Hin as [Hin|Hin]; [by inversion Hin|]).
      by apply elem_of_nil in Hin.
    + reflexivity.
Defined.

(** ** [load_scene_data] *)

Section load_scene_data.
Variable w : world.
Variable current : Z.
Variable exclude : gset string.
Variable device : string.

Lemma load_scene_step_converted (params : gmap string pval) (k : string) :
  load_scene_step w current exclude device params k =
    match params !! k with
    | None => Raise (KeyError k)
    | Some x =>
        match converted w current exclude device k x with
        | Ok t => Ok (<[k := PTen t]> params)
        | Raise e => Raise e
        end
    end.
Proof.
  unfold load_scene_step, converted.
  destruct (params !! k) as [x|]; [|reflexivity].
  destruct (bool_decide (k ∉ exclude));
    destruct (torch_tensor x) as [t|]; cbn; try reflexivity;
    destruct (to w current device t) as [t'|]; cbn; reflexivity.
Qed.

(** The loop leaves alone the keys it does not visit and converts the
    value that was under each key it visits. *)
Lemma load_scene_loop_ok (keys : list string) :
  ∀ params params' : gmap string pval,
    NoDup keys →
    load_scene_loop w current exclude device keys params = Ok params' →
    (∀ k, k ∉ keys → params' !! k = params !! k)
    ∧ (∀ k, k ∈ keys →
         ∃ x t, params !! k = Some x
                ∧ converted w current exclude device k x = Ok t
                ∧ params' !! k = Some (PTen t)).
Proof.
  induction keys as [|k0 keys IH]; intros params params' Hnd Hloop.
  - cbn in Hloop. injection Hloop as <-. split; [done|].
    intros k Hk. by apply elem_of_nil in Hk.
  - apply NoDup_cons in Hnd as [Hk0 Hnd].
    cbn [load_scene_loop] in Hloop.
    rewrite load_scene_step_converted in Hloop.
    destruct (params !! k0) as [x0|] eqn:Hx0; [|discriminate Hloop].
    destruct (converted w current exclude device k0 x0) as [t0|] eqn:Ht0;
      [|discriminate Hloop].
    cbn in Hloop. destruct (IH _ _ Hnd Hloop) as [Hout Hin].
    split.
    + intros k Hk. apply not_elem_of_cons in Hk as [Hne Hk].
      rewrite (Hout k Hk). by rewrite lookup_insert_ne.
    + intros k Hk. apply elem_of_cons in Hk as [->|Hk].
      * exists x0, t0. repeat split; [done..|].
        rewrite (Hout k0 Hk0). by rewrite lookup_insert_eq.
      * destruct (Hin k Hk) as (x & t & Hx & Ht & Hres).
        assert (k0 ≠ k) by (intros ->; contradiction).
        rewrite lookup_insert_ne in Hx by done. eauto.
Qed.


Lemma converted_array (k : string) (a : ndarray) (t : tensor) :
  converted w current exclude device k (PArr a) = Ok t →
  w_device_available w device = true
  ∧ ∃ d, a_dtype a = Numeric d
         ∧ t = {| t_dtype := if bool_decide (k ∉ exclude) then Float32 else d;
                  t_device := resolve_device current device;
                  t_requires_grad := bool_decide (k ∉ exclude);
                  t_data := if bool_decide (k ∉ exclude)
                            then map_tdata to_float32 (a_data a)
                            else a_data a |}.
Proof.
  unfold converted, torch_tensor, to, requires_grad_.
  destruct (a_dtype a) as [d|];
    [|by destruct (bool_decide (k ∉ exclude))].
  destruct (bool_decide (k ∉ exclude)); cbn;
    destruct (w_device_available w device); cbn; try discriminate;
    intros [= <-]; eauto.
Qed.


End load_scene_data.

Lemma elem_of_keys {A} (m : gmap string A) (k : string) :
  k ∈ (map_to_list m).*1 ↔ is_Some (m !! k).
Proof.
  rewrite list_elem_of_fmap. split.
  - intros [[k' x] [-> Hin]]. apply elem_of_map_to_list in Hin. by exists x.
  - intros [x Hx]. exists (k, x). split; [done|]. by apply elem_of_map_to_list.
Qed.




(** ** [filter_semantic_params] *)

Lemma existsb_id_map {A} (f : A → bool) (l : list A) :
  existsb id (map f l) = existsb f l.
Proof. induction l as [|x l IH]; cbn; [done|]. by rewrite IH. Qed.

(** The ids a dtype holds are converted as they are. *)
Lemma convert_ids_representable (d : dtype) (ids : list Z) :
  Forall (λ x, representable d x = true) ids →
  convert_ids d ids = Some (map Fin ids).
Proof.
  induction 1 as [|x ids Hx _ IH]; [reflexivity|].
  cbn [convert_ids map]. unfold convert_id. by rewrite Hx, IH.
Qed.

(** Against one id per row, the comparison with broadcasting is
    membership in the list of ids. *)
Lemma eq_row_single (x : Z) (ids : list Z) :
  existsb id (eq_row [Fin x] (map Fin ids)) = bool_decide (x ∈ ids).
Proof.
  assert (Hmap : existsb id (map (num_eqb (Fin x)) (map Fin ids))
                 = bool_decide (x ∈ ids)).
  { rewrite existsb_id_map. apply eq_true_iff_eq.
    rewrite existsb_exists, bool_decide_eq_true. split.
    - intros (y & Hin & Heq). apply in_map_iff in Hin as (z & <- & Hin).
      cbn in Heq. apply Z.eqb_eq in Heq as ->.
      by apply list_elem_of_In.
    - intros Hin. exists (Fin x). split; [|apply Z.eqb_refl].
      apply in_map. by apply list_elem_of_In. }
  unfold eq_row. destruct ids as [|i [|j ids]]; try exact Hmap.
Qed.

Lemma to_remove_mask_column (d : dtype) (sids ids : list Z) :
  Forall (λ x, representable d x = true) ids →
  to_remove_mask d (column sids) ids =
    Some (Ok (map (λ s, bool_decide (s ∈ ids)) sids)).
Proof.
  intros Hrep. unfold to_remove_mask, column.
  rewrite (convert_ids_representable d ids Hrep).
  replace (broadcast_ok 1 (length (map Fin ids))) with true
    by (unfold broadcast_ok; cbn; by rewrite orb_true_r).
  do 2 f_equal. rewrite map_map. apply map_ext. intros s.
  apply eq_row_single.
Qed.

(** Selecting with the negated removal mask keeps the rows whose id is
    not in the list. *)
Lemma select_kept_rows {A} (ids sids : list Z) (rows : list A) :
  select (map negb (map (λ s, bool_decide (s ∈ ids)) sids)) rows =
    kept_rows ids sids rows.
Proof.
  unfold kept_rows. revert rows.
  induction sids as [|s sids IH]; intros [|r rows]; try reflexivity.
  change (zip (s :: sids) (r :: rows)) with ((s, r) :: zip sids rows).
  cbn [map select].
  destruct (decide (s ∈ ids)) as [Hin|Hnin].
  - rewrite bool_decide_eq_true_2 by done. cbn [negb].
    rewrite filter_cons_False by (cbn; tauto). apply IH.
  - rewrite bool_decide_eq_false_2 by done. cbn [negb].
    rewrite filter_cons_True by done. cbn [fmap list_fmap snd].
    f_equal. apply IH.
Qed.

Lemma str_in_camera_keys (k : string) :
  str_in k ["cam_unnorm_rots"; "cam_trans"] = bool_decide (k ∈ camera_keys).
Proof.
  unfold str_in, camera_keys. cbn. apply eq_true_iff_eq.
  rewrite bool_decide_eq_true, !orb_true_iff, !String.eqb_eq,
    !elem_of_cons, elem_of_nil.
  intuition discriminate.
Qed.

(** The loop leaves alone the keys it does not visit and masks the tensor
    that was under each key it visits. *)
Lemma filter_loop_ok (dev : string) (mask : list bool)
    (keys : list string) :
  ∀ params params' : gmap string tensor,
    NoDup keys →
    filter_loop dev mask keys params = Ok params' →
    (∀ k, k ∉ keys → params' !! k = params !! k)
    ∧ (∀ k, k ∈ keys →
         ∃ t t', params !! k = Some t ∧ index_mask dev mask t = Ok t'
                 ∧ params' !! k = Some t').
Proof.
  induction keys as [|k0 keys IH]; intros params params' Hnd Hloop.
  - cbn in Hloop. injection Hloop as <-. split; [done|].
    intros k Hk. by apply elem_of_nil in Hk.
  - apply NoDup_cons in Hnd as [Hk0 Hnd].
    cbn [filter_loop] in Hloop.
    destruct (params !! k0) as [t0|] eqn:Ht0; [|discriminate Hloop].
    destruct (index_mask dev mask t0) as [t0'|] eqn:Ht0';
      [|discriminate Hloop].
    cbn in Hloop. destruct (IH _ _ Hnd Hloop) as [Hout Hin]. split.
    + intros k Hk. apply not_elem_of_cons in Hk as [Hne Hk].
      rewrite (Hout k Hk). by rewrite lookup_insert_ne.
    + intros k Hk. apply elem_of_cons in Hk as [->|Hk].
      * exists t0, t0'. repeat split; [done..|].
        rewrite (Hout k0 Hk0). by rewrite lookup_insert_eq.
      * destruct (Hin k Hk) as (t & t' & Ht & Ht' & Hres).
        assert (k0 ≠ k) by (intros ->; contradiction).
        rewrite lookup_insert_ne in Ht by done. eauto.
Qed.

Lemma filter_loop_total (dev : string) (mask : list bool)
    (keys : list string) :
  ∀ params : gmap string tensor,
    NoDup keys →
    (∀ k, k ∈ keys →
       ∃ t t', params !! k = Some t ∧ index_mask dev mask t = Ok t') →
    ∃ params', filter_loop dev mask keys params = Ok params'.
Proof.
  induction keys as [|k0 keys IH]; intros params Hnd Hmask.
  - by eexists.
  - apply NoDup_cons in Hnd as [Hk0 Hnd].
    destruct (Hmask k0) as (t0 & t0' & Ht0 & Ht0'); [by left|].
    cbn [filter_loop]. rewrite Ht0, Ht0'. cbn. apply IH; [done|].
    intros k Hk. destruct (Hmask k) as (t & t' & Ht & Ht'); [by right|].
    assert (k0 ≠ k) by (intros ->; contradiction).
    exists t, t'. by rewrite lookup_insert_ne.
Qed.

Lemma index_mask_rows (dev : string) (mask : list bool) (t : tensor) :
  mask_usable dev (t_device t) = true →
  num_rows (t_data t) = Some (length mask) →
  ∃ trail rows, t_data t = Rows trail rows
                ∧ index_mask dev mask t
                  = Ok (with_data t (Rows trail (select mask rows))).
Proof.
  intros Hdev. unfold index_mask. rewrite Hdev.
  destruct (t_data t) as [x|trail rows]; cbn; [done|].
  intros [= Hlen]. exists trail, rows. by rewrite Hlen, Nat.eqb_refl.
Qed.

Lemma kept_rows_length {A} (ids sids : list Z) (rows : list A) :
  length sids = length rows →
  length (kept_rows ids sids rows)
  = length (filter (λ s, s ∉ ids) sids).
Proof.
  unfold kept_rows. rewrite length_fmap. revert rows.
  induction sids as [|s sids IH]; intros [|r rows] Hlen;
    try discriminate Hlen; [reflexivity|].
  injection Hlen as Hlen.
  change (zip (s :: sids) (r :: rows)) with ((s, r) :: zip sids rows).
  destruct (decide (s ∉ ids)) as [Hnin|Hin].
  - rewrite !filter_cons_True by done. cbn [length]. f_equal. by apply IH.
  - rewrite !filter_cons_False by done. by apply IH.
Qed.

Lemma elem_of_filter_keys (params : gmap string tensor) (k : string) :
  (k ∈ filter (λ k, negb (str_in k ["cam_unnorm_rots"; "cam_trans"]))
         ((map_to_list params).*1))
  ↔ ((k ∉ camera_keys) ∧ is_Some (params !! k)).
Proof.
  rewrite list_elem_of_filter, elem_of_keys, str_in_camera_keys.
  rewrite negb_True, bool_decide_spec. reflexivity.
Qed.





(** ** The phases of the script *)

Lemma only_app (gs : list tag) (t1 t2 : list event) :
  only gs (t1 ++ t2) = (only gs t1 ++ only gs t2)%list.
Proof. unfold only. apply filter_app. Qed.

Lemma only_nil_tags (gs gs' : list tag) (t : list event) :
  Forall (λ ev, tag_of ev ∈ gs') t →
  (∀ g, g ∈ gs → g ∉ gs') →
  only gs t = [].
Proof.
  intros Hall Hdisj. unfold only.
  induction Hall as [|ev t Hev _ IH]; [reflexivity|].
  rewrite filter_cons_False; [exact IH|].
  intros Hin. exact (Hdisj _ Hin Hev).
Qed.

Lemma set_experiment_seed_tags (w : world) (config : gmap string value) :
  Forall (λ ev, tag_of ev ∈ [TSeedEverything; TTorchDevice; TCudaSetDevice])
         (trace (set_experiment_seed w config)).
Proof.
  unfold set_experiment_seed. run; repeat constructor.
  all: destruct a1 as [| | | |s|]; run; repeat constructor.
  all: destruct (startswith "cuda:" s); run; repeat constructor.
  all: destruct (split_colon_1 s); run; repeat constructor.
Qed.

(** What "Create Results Directory and Copy Config" does, path by path. *)
Lemma create_results_dir_run (w : world) (experiment : string)
    (config : gmap string value) :
  create_results_dir w experiment config =
    match results_dir_of config with
    | Raise e => ([], Raise e)
    | Ok results_dir =>
        match getitem config "load_checkpoint" with
        | Raise e => ([], Raise e)
        | Ok load_checkpoint =>
            if truthy load_checkpoint then ([], Ok results_dir)
            else
              match w_makedirs w results_dir true with
              | Raise e => ([EMakedirs results_dir true], Raise e)
              | Ok _ =>
                  ([EMakedirs results_dir true;
                    ECopy experiment (path_join results_dir "config.py")],
                   match w_copy w experiment
                           (path_join results_dir "config.py") with
                   | Ok _ => Ok results_dir
                   | Raise e => Raise e
                   end)
              end
        end
    end.
Proof.
  apply M_ext; unfold create_results_dir.
  - run; reflexivity.
  - run; reflexivity.
Qed.

Lemma get_dataset_cases (w : world) (config_dict basedir : value)
    (sequence : string) (kw : dataset_kwargs) :
  (∃ e, get_dataset w config_dict basedir sequence kw = raise e)
  ∨ (∃ cls cfg, get_dataset w config_dict basedir sequence kw
                = construct w cls cfg basedir sequence kw).
Proof.
  unfold get_dataset.
  destruct (subscript config_dict "dataset_name") as [name|e];
    [|left; by exists e].
  rewrite bind_lift_ok.
  destruct (str_lower name) as [lname|e]; [|left; by exists e].
  rewrite bind_lift_ok.
  repeat match goal with
         | |- context [if ?b then _ else _] =>
             destruct b; [right; by eexists _, _|]
         end.
  left. by eexists.
Qed.

Lemma load_scene_data_trace (w : world) (current : Z) (scene_path : value)
    (exclude : gset string) (device : string) :
  trace (load_scene_data w current scene_path exclude device)
  = [ENpLoad scene_path].
Proof.
  unfold load_scene_data. run; reflexivity.
Qed.

(** The script is its phases in sequence; a phase that raises ends it. *)
Lemma main_trace (w : world) (experiment : string)
    (config : gmap string value) :
  trace (main w experiment config) =
    (trace (set_experiment_seed w config) ++
     match outcome (set_experiment_seed w config) with
     | Raise _ => []
     | Ok device =>
       trace (create_results_dir w experiment config) ++
       match outcome (create_results_dir w experiment config) with
       | Raise _ => []
       | Ok results_dir =>
         match resolve_scene_path config with
         | Raise _ => []
         | Ok scene_path =>
           EPrint "Loading Dataset ..." ::
           match getitem config "data" with
           | Ok (VDict dataset_config) =>
             trace (load_dataset w device dataset_config) ++
             match outcome (load_dataset w device dataset_config) with
             | Raise _ => []
             | Ok l =>
               ENpLoad scene_path ::
               match outcome (load_scene_data w (current_cuda_device w device) scene_path
                                (l_params_opt_exclude l) "cuda") with
               | Raise _ => []
               | Ok params =>
                   trace (evaluate w
                            (<["data" := VDict (l_dataset_config l)]> config)
                            l params results_dir)
               end
             end
           | _ => []
           end
         end
       end
     end)%list.
Proof.
  unfold main. rewrite trace_bind.
  destruct (outcome (set_experiment_seed w config)) as [device|];
    [|by rewrite app_nil_r].
  f_equal. rewrite trace_bind.
  destruct (outcome (create_results_dir w experiment config)) as [rd|];
    [|by rewrite app_nil_r].
  f_equal. rewrite trace_bind_lift.
  destruct (resolve_scene_path config) as [sp|]; [|reflexivity].
  rewrite trace_bind_emit. f_equal. rewrite trace_bind_lift.
  destruct (getitem config "data") as [[| | | | |dc]|]; try reflexivity.
  rewrite trace_bind.
  destruct (outcome (load_dataset w device dc)) as [l|];
    [|by rewrite app_nil_r].
  f_equal. rewrite trace_bind, load_scene_data_trace.
  destruct (outcome (load_scene_data w (current_cuda_device w device) sp (l_params_opt_exclude l) "cuda"));
    reflexivity.
Qed.

Lemma main_outcome (w : world) (experiment : string)
    (config : gmap string value) :
  outcome (main w experiment config) =
    match outcome (set_experiment_seed w config) with
    | Raise e => Raise e
    | Ok device =>
      match outcome (create_results_dir w experiment config) with
      | Raise e => Raise e
      | Ok results_dir =>
        match resolve_scene_path config with
        | Raise e => Raise e
        | Ok scene_path =>
          match getitem config "data" with
          | Ok (VDict dataset_config) =>
            match outcome (load_dataset w device dataset_config) with
            | Raise e => Raise e
            | Ok l =>
              match outcome (load_scene_data w (current_cuda_device w device) scene_path
                               (l_params_opt_exclude l) "cuda") with
              | Raise e => Raise e
              | Ok params =>
                  outcome (evaluate w
                             (<["data" := VDict (l_dataset_config l)]> config)
                             l params results_dir)
              end
            end
          | Ok _ => Raise TypeError
          | Raise e => Raise e
          end
        end
      end
    end.
Proof.
  unfold main. rewrite outcome_bind.
  destruct (outcome (set_experiment_seed w config)) as [device|];
    [|reflexivity].
  rewrite outcome_bind.
  destruct (outcome (create_results_dir w experiment config)) as [rd|];
    [|reflexivity].
  rewrite outcome_bind_lift.
  destruct (resolve_scene_path config) as [sp|]; [|reflexivity].
  rewrite outcome_bind_emit, outcome_bind_lift.
  destruct (getitem config "data") as [[| | | | |dc]|]; try reflexivity.
  rewrite outcome_bind.
  destruct (outcome (load_dataset w device dc)) as [l|]; [|reflexivity].
  rewrite outcome_bind. reflexivity.
Qed.

#[export] Hint Rewrite construct_trace construct_outcome : run.

(** What "Load Dataset" does: it may read a dataset config file, then
    either stops before any constructor runs, or calls one constructor,
    with the defaults and the semantics settings in its keyword
    arguments, and then needs [num_frames]. *)
Lemma load_dataset_inv (w : world) (device : value)
    (dc : gmap string value) :
  ∃ pre,
    Forall (λ ev, tag_of ev = TLoadDatasetConfig) pre
    ∧ ((trace (load_dataset w device dc) = pre
        ∧ ∃ e, outcome (load_dataset w device dc) = Raise e)
       ∨ (∃ cls cfg basedir sequence kw ls nsc excl,
            semantics_config (apply_defaults dc) = Ok (ls, nsc, excl)
            ∧ apply_defaults dc !! "ignore_bad" = Some (kw_ignore_bad kw)
            ∧ apply_defaults dc !! "use_train_split"
              = Some (kw_use_train_split kw)
            ∧ kw_load_semantics kw = ls
            ∧ kw_num_semantic_classes kw = nsc
            ∧ kw_device kw = device
            ∧ kw_relative_pose kw = true
            ∧ trace (load_dataset w device dc)
              = (pre ++ [EDatasetInit cls cfg basedir sequence kw])%list
            ∧ outcome (load_dataset w device dc)
              = match w_dataset_init w cls cfg basedir sequence kw with
                | Raise e => Raise e
                | Ok n =>
                    match apply_defaults dc !! "num_frames" with
                    | None => Raise (KeyError "num_frames")
                    | Some v =>
                        Ok {| l_dataset_config := apply_defaults dc;
                              l_load_semantics := ls;
                              l_params_opt_exclude := excl;
                              l_dataset :=
                                {| ds_class := cls; ds_config := cfg;
                                   ds_basedir := basedir;
                                   ds_sequence := sequence;
                                   ds_kwargs := kw; ds_len := n |};
                              l_num_frames :=
                                if py_eq_int v (-1)
                                then VInt (Z.of_nat n) else v |}
                    end
                end)).
Proof.
  set (gradslam :=
    (if negb (has_key dc "gradslam_data_cfg") then
       name ← lift (getitem dc "dataset_name");
       mret (VDict (<["dataset_name" := name]> ∅))
     else
       path ← lift (getitem dc "gradslam_data_cfg");
       call (ELoadDatasetConfig path) (w_load_dataset_config w path)) : M value).
  exists (trace gradslam).
  split.
  { unfold gradslam. run; repeat constructor. }
  assert (Hld : load_dataset w device dc
    = gradslam ≫= λ gradslam_data_cfg,
      let dataset_config := apply_defaults dc in
      '(load_semantics, num_semantic_classes, params_opt_exclude) ←
        lift (semantics_config dataset_config);
      basedir ← lift (getitem dataset_config "basedir");
      sequence ← lift (getitem dataset_config "sequence");
      sequence ← lift (as_str sequence);
      start ← lift (getitem dataset_config "start");
      end_ ← lift (getitem dataset_config "end");
      stride ← lift (getitem dataset_config "stride");
      desired_height ← lift (getitem dataset_config "desired_image_height");
      desired_width ← lift (getitem dataset_config "desired_image_width");
      ignore_bad ← lift (getitem dataset_config "ignore_bad");
      use_train_split ← lift (getitem dataset_config "use_train_split");
      dataset ← get_dataset w gradslam_data_cfg basedir (basename sequence)
        {| kw_start := start; kw_end := end_; kw_stride := stride;
           kw_desired_height := desired_height;
           kw_desired_width := desired_width;
           kw_device := device; kw_relative_pose := true;
           kw_ignore_bad := ignore_bad;
           kw_use_train_split := use_train_split;
           kw_load_semantics := load_semantics;
           kw_num_semantic_classes := num_semantic_classes |};
      num_frames ← lift (getitem dataset_config "num_frames");
      let num_frames :=
        if py_eq_int num_frames (-1) then VInt (Z.of_nat (ds_len dataset))
        else num_frames in
      mret {| l_dataset_config := dataset_config;
              l_load_semantics := load_semantics;
              l_params_opt_exclude := params_opt_exclude;
              l_dataset := dataset;
              l_num_frames := num_frames |}) by reflexivity.
  rewrite Hld. clear Hld. generalize gradslam. clear gradslam.
  intros gradslam. rewrite trace_bind, outcome_bind.
  destruct (outcome gradslam) as [cfg0|e]; [|left; eauto].
  cbv zeta.
  rewrite trace_bind_lift, outcome_bind_lift.
  destruct (semantics_config (apply_defaults dc)) as [[[ls nsc] excl]|e];
    [|left; rewrite app_nil_r; eauto].
  repeat (rewrite trace_bind_lift, outcome_bind_lift;
          match goal with
          | |- context [match ?r with Ok _ => _ | Raise _ => _ end] =>
              let H := fresh "Hrun" in
              destruct r eqn:H; [|left; rewrite app_nil_r; eauto]
          end).
  rewrite trace_bind, outcome_bind.
  match goal with
  | |- context [get_dataset w ?c ?b ?s ?k] =>
      destruct (get_dataset_cases w c b s k) as [[e He]|(cls & cfg & He)];
        rewrite He; clear He
  end.
  { left. autorewrite with run. rewrite app_nil_r. eauto. }
  right. autorewrite with run.
  eexists cls, cfg, _, _, (Build_dataset_kwargs _ _ _ _ _ _ _ _ _ _ _),
    ls, nsc, excl.
  split; [reflexivity|].
  unfold getitem in *.
  destruct (apply_defaults dc !! "ignore_bad") as [ib|]; [|discriminate].
  destruct (apply_defaults dc !! "use_train_split") as [uts|];
    [|discriminate].
  repeat match goal with H : Ok _ = Ok _ |- _ => injection H as <- end.
  split; [reflexivity|]. split; [reflexivity|].
  split; [reflexivity|]. split; [reflexivity|].
  split; [reflexivity|]. split; [reflexivity|].
  split.
  { match goal with
    | |- context [w_dataset_init w ?a ?b ?c ?d ?e] =>
        destruct (w_dataset_init w a b c d e) as [n|e']
    end; autorewrite with run; [|reflexivity].
    destruct (apply_defaults dc !! "num_frames") as [v|];
      autorewrite with run; by rewrite ?app_nil_r. }
  match goal with
  | |- context [w_dataset_init w ?a ?b ?c ?d ?e] =>
      destruct (w_dataset_init w a b c d e) as [n|e']
  end; autorewrite with run; [|reflexivity].
  destruct (apply_defaults dc !! "num_frames") as [v|];
    autorewrite with run; reflexivity.
Qed.

Lemma eval_names_inv (config dc : gmap string value) (results_dir : string) :
  match eval_names config dc results_dir with
  | Raise _ => True
  | Ok (eval_dir, wandb_name) =>
      ∃ uts, dc !! "use_train_split" = Some uts
             ∧ eval_dir = path_join results_dir
                            (if truthy uts then "eval_train" else "eval_nvs")
  end.
Proof.
  unfold eval_names, getitem.
  destruct (dc !! "use_train_split") as [uts|]; [|exact I].
  cbn [mbind result_bind].
  destruct (truthy uts) eqn:Htruthy;
    (destruct (getitem2 config "wandb" "name") as [name|]; [|exact I]);
    cbn [mbind result_bind];
    (destruct (str_add name _); [|exact I]);
    cbn [mbind result_bind mret result_ret];
    exists uts; by rewrite Htruthy.
Qed.

Lemma init_wandb_inv (w : world) (config : gmap string value)
    (wandb_name : string) :
  (trace (init_wandb w config wandb_name) = []
   ∧ ∃ e, outcome (init_wandb w config wandb_name) = Raise e)
  ∨ (∃ uw a e, config !! "use_wandb" = Some uw ∧ truthy uw = true
               ∧ w_wandb_init w a = Raise e
               ∧ trace (init_wandb w config wandb_name) = [EWandbInit a]
               ∧ outcome (init_wandb w config wandb_name) = Raise e)
  ∨ (∃ init run, wandb_started w config init run
                 ∧ trace (init_wandb w config wandb_name) = init
                 ∧ outcome (init_wandb w config wandb_name) = Ok run).
Proof.
  unfold init_wandb, wandb_started.
  destruct (config !! "use_wandb") as [uw|] eqn:Huw.
  2: { left. unfold getitem; rewrite Huw. run. eauto. }
  assert (Hg : getitem config "use_wandb" = Ok uw)
    by (unfold getitem; by rewrite Huw).
  rewrite Hg. run.
  all: first
    [ solve [left; split; [reflexivity|eauto]]
    | solve [right; left; eexists _, _, _;
             split; [reflexivity|]; split; [eassumption|];
             split; [eassumption|]; split; reflexivity]
    | right; right; eexists _, _; split; [|split; reflexivity];
      eexists; split; [reflexivity|];
      first [ solve [left; done]
            | right; split; [assumption|]; eexists _, _;
              split; [reflexivity|]; split; [eassumption|]; done ] ].
Qed.

Lemma dispatch_inv (w : world) (config : gmap string value) (l : loaded)
    (params : gmap string pval) (results_dir : string) (uts : value)
    (init : list event) (run : option run_handle) :
  l_dataset_config l !! "use_train_split" = Some uts →
  wandb_started w config init run →
  let eval_dir :=
    path_join results_dir (if truthy uts then "eval_train" else "eval_nvs") in
  (trace (dispatch w config l params eval_dir run) = []
   ∧ ∃ e, outcome (dispatch w config l params eval_dir run) = Raise e)
  ∨ (∃ ev r, evaluation_call w l params results_dir run ev r
             ∧ trace (dispatch w config l params eval_dir run) = [ev]
             ∧ outcome (dispatch w config l params eval_dir run) = r).
Proof.
  intros Huts (uw & Huw & Hstarted) eval_dir. subst eval_dir.
  assert (Hg : getitem config "use_wandb" = Ok uw)
    by (unfold getitem; by rewrite Huw).
  assert (Hg' : getitem (l_dataset_config l) "use_train_split" = Ok uts)
    by (unfold getitem; by rewrite Huts).
  unfold dispatch, evaluation_call. rewrite Hg, Hg'.
  rewrite bind_lift_ok. cbv beta.
  destruct Hstarted as [(Hf & -> & ->)|(Ht & a & r & -> & Hinit & Hcfg & ->)].
  - rewrite Hf. run.
    all: try solve [left; split; [reflexivity|eauto]].
    all: right;
      lazymatch goal with
      | |- context [[EEval ?a] = _] =>
          exists (EEval a), (w_eval w a);
          split; [|split; reflexivity];
          exists uts, a; split; [assumption|];
          do 6 (split; [reflexivity|]);
          left; split; [assumption|]; repeat split
      | |- context [[EEvalNvs ?a] = _] =>
          exists (EEvalNvs a), (w_eval_nvs w a);
          split; [|split; reflexivity];
          exists uts, a; split; [assumption|];
          do 6 (split; [reflexivity|]);
          right; split; [assumption|]; repeat split
      end.
  - rewrite Ht. cbn [the_wandb_run]. run.
    all: try solve [left; split; [reflexivity|eauto]].
    all: right;
      lazymatch goal with
      | |- context [[EEval ?a] = _] =>
          exists (EEval a), (w_eval w a);
          split; [|split; reflexivity];
          exists uts, a; split; [assumption|];
          do 6 (split; [reflexivity|]);
          left; split; [assumption|]; repeat split
      | |- context [[EEvalNvs ?a] = _] =>
          exists (EEvalNvs a), (w_eval_nvs w a);
          split; [|split; reflexivity];
          exists uts, a; split; [assumption|];
          do 6 (split; [reflexivity|]);
          right; split; [assumption|]; repeat split
      end.
Qed.

Lemma close_wandb_run (w : world) (config : gmap string value)
    (init : list event) (run : option run_handle) :
  wandb_started w config init run →
  close_wandb w config run =
    (match run with Some r => [EWandbFinish r] | None => [] end,
     match run with Some r => w_finish w r | None => Ok tt end).
Proof.
  intros (uw & Huw & Hstarted). unfold close_wandb, getitem. rewrite Huw.
  rewrite bind_lift_ok.
  destruct Hstarted as [(Hf & -> & ->)|(Ht & a & r & -> & Hinit & Hcfg & ->)].
  - by rewrite Hf.
  - rewrite Ht. cbn [the_wandb_run]. by rewrite bind_lift_ok.
Qed.

(** The last part of the script runs in one of the five ways of
    [evaluate_run]. *)
Lemma evaluate_inv (w : world) (config : gmap string value) (l : loaded)
    (params : gmap string pval) (results_dir : string) :
  evaluate_run w config l params results_dir
    (trace (evaluate w config l params results_dir))
    (outcome (evaluate w config l params results_dir)).
Proof.
  unfold evaluate.
  rewrite trace_bind_lift, outcome_bind_lift.
  pose proof (eval_names_inv config (l_dataset_config l) results_dir) as Hn.
  destruct (eval_names config (l_dataset_config l) results_dir)
    as [[eval_dir wandb_name]|e]; [|apply run_no_call].
  destruct Hn as (uts & Huts & ->).
  rewrite trace_bind, outcome_bind.
  destruct (init_wandb_inv w config wandb_name)
    as [(Ht & e & Ho)|[(uw & a & e & Huw & Htrue & Hinit & Ht & Ho)
                      |(init & run & Hstarted & Ht & Ho)]];
    rewrite Ht, Ho.
  - apply run_no_call.
  - by eapply run_init_raises.
  - rewrite trace_bind, outcome_bind.
    rewrite trace_with_no_grad, outcome_with_no_grad.
    destruct (dispatch_inv w config l params results_dir uts init run
                Huts Hstarted)
      as [(Hd & e & Hdo)|(ev & r & Hcall & Hd & Hdo)];
      cbv zeta in Hd, Hdo; rewrite Hd, Hdo.
    + by eapply run_no_evaluation.
    + destruct r as [[]|e].
      * rewrite (close_wandb_run w config init run Hstarted).
        unfold trace at 1, outcome at 1. cbn [fst snd app].
        by apply run_evaluation_returns.
      * by eapply run_evaluation_raises.
Qed.

(** ** Which calls each phase makes *)

Lemma create_results_dir_tags (w : world) (experiment : string)
    (config : gmap string value) :
  Forall (λ ev, tag_of ev ∈ [TMakedirs; TCopy])
         (trace (create_results_dir w experiment config)).
Proof.
  rewrite create_results_dir_run.
  repeat match goal with
         | |- context [match ?r with Ok _ => _ | Raise _ => _ end] =>
             destruct r
         | |- context [if ?b then _ else _] => destruct b
         end; repeat constructor.
Qed.

Lemma load_dataset_tags (w : world) (device : value)
    (dc : gmap string value) :
  Forall (λ ev, tag_of ev ∈ [TLoadDatasetConfig; TDatasetInit])
         (trace (load_dataset w device dc)).
Proof.
  destruct (load_dataset_inv w device dc) as (pre & Hpre & Hinv).
  assert (Hpre' : Forall (λ ev, tag_of ev ∈ [TLoadDatasetConfig; TDatasetInit])
                         pre).
  { eapply Forall_impl; [exact Hpre|]. intros ev ->. by left. }
  destruct Hinv as [[-> _]|(cls & cfg & basedir & sequence & kw & ls & nsc
                           & excl & _ & _ & _ & _ & _ & _ & _ & -> & _)].
  - exact Hpre'.
  - apply Forall_app. split; [exact Hpre'|]. repeat constructor.
Qed.

Lemma wandb_started_tags (w : world) (config : gmap string value)
    (init : list event) (run : option run_handle) :
  wandb_started w config init run →
  Forall (λ ev, tag_of ev = TWandbInit) init.
Proof.
  intros (uw & _ & [(_ & -> & _)|(_ & a & r & -> & _)]); repeat constructor.
Qed.

Lemma evaluation_call_tag (w : world) (l : loaded)
    (params : gmap string pval) (results_dir : string)
    (run : option run_handle) (ev : event) (r : result unit) :
  evaluation_call w l params results_dir run ev r →
  tag_of ev = TEval ∨ tag_of ev = TEvalNvs.
Proof.
  intros (uts & a & _ & _ & _ & _ & _ & _ & _
          & [(_ & -> & _)|(_ & -> & _)]); [by left|by right].
Qed.

Lemma evaluate_tags (w : world) (config : gmap string value) (l : loaded)
    (params : gmap string pval) (results_dir : string) :
  Forall (λ ev, tag_of ev ∈ [TWandbInit; TNoGradEnter; TNoGradExit;
                             TEval; TEvalNvs; TWandbFinish])
         (trace (evaluate w config l params results_dir)).
Proof.
  assert (Hinit : ∀ init run, wandb_started w config init run →
            Forall (λ ev, tag_of ev ∈ [TWandbInit; TNoGradEnter; TNoGradExit;
                                       TEval; TEvalNvs; TWandbFinish]) init).
  { intros init run Hs. eapply Forall_impl;
      [exact (wandb_started_tags _ _ _ _ Hs)|].
    intros ev ->. by left. }
  assert (Hev : ∀ run ev r,
            evaluation_call w l params results_dir run ev r →
            tag_of ev ∈ [TWandbInit; TNoGradEnter; TNoGradExit;
                         TEval; TEvalNvs; TWandbFinish]).
  { intros run ev r Hc.
    destruct (evaluation_call_tag _ _ _ _ _ _ _ Hc) as [-> | ->];
      repeat constructor. }
  destruct (evaluate_inv w config l params results_dir)
    as [e|uw a e _ _ _|init run e Hs|init run ev e Hs Hc|init run ev Hs Hc].
  - constructor.
  - repeat constructor.
  - apply Forall_app. split; [by eapply Hinit|]. repeat constructor.
  - apply Forall_app. split; [by eapply Hinit|].
    constructor; [repeat constructor|].
    constructor; [by eapply Hev|]. repeat constructor.
  - apply Forall_app. split; [by eapply Hinit|].
    constructor; [repeat constructor|].
    constructor; [by eapply Hev|].
    constructor; [repeat constructor|].
    destruct run; repeat constructor.
Qed.

(** Where a call of the script comes from: the phase that makes it, and
    what the phases before it returned. *)
Lemma elem_of_main_trace (w : world) (experiment : string)
    (config : gmap string value) (ev : event) :
  ev ∈ trace (main w experiment config) →
  ev ∈ trace (set_experiment_seed w config)
  ∨ ev ∈ trace (create_results_dir w experiment config)
  ∨ ev = EPrint "Loading Dataset ..."
  ∨ ∃ device results_dir scene_path dc,
      outcome (set_experiment_seed w config) = Ok device
      ∧ outcome (create_results_dir w experiment config) = Ok results_dir
      ∧ resolve_scene_path config = Ok scene_path
      ∧ config !! "data" = Some (VDict dc)
      ∧ (ev ∈ trace (load_dataset w device dc)
         ∨ ∃ l, outcome (load_dataset w device dc) = Ok l
                ∧ (ev = ENpLoad scene_path
                   ∨ ∃ params,
                       outcome (load_scene_data w (current_cuda_device w device) scene_path
                                  (l_params_opt_exclude l) "cuda") = Ok params
                       ∧ ev ∈ trace (evaluate w
                               (<["data" := VDict (l_dataset_config l)]> config)
                               l params results_dir))).
Proof.
  rewrite main_trace. intros Hin.
  apply elem_of_app in Hin as [Hin|Hin]; [by left|].
  destruct (outcome (set_experiment_seed w config)) as [device|];
    [|by apply elem_of_nil in Hin].
  apply elem_of_app in Hin as [Hin|Hin]; [right; by left|].
  destruct (outcome (create_results_dir w experiment config)) as [rd|];
    [|by apply elem_of_nil in Hin].
  destruct (resolve_scene_path config) as [sp|];
    [|by apply elem_of_nil in Hin].
  apply elem_of_cons in Hin as [->|Hin]; [right; right; by left|].
  unfold getitem in Hin.
  destruct (config !! "data") as [[| | | | |dc]|];
    try by apply elem_of_nil in Hin.
  do 3 right. exists device, rd, sp, dc.
  do 4 (split; [reflexivity|]).
  apply elem_of_app in Hin as [Hin|Hin]; [by left|].
  destruct (outcome (load_dataset w device dc)) as [l|];
    [|by apply elem_of_nil in Hin].
  right. exists l. split; [reflexivity|].
  apply elem_of_cons in Hin as [->|Hin]; [by left|].
  destruct (outcome (load_scene_data w (current_cuda_device w device) sp (l_params_opt_exclude l) "cuda"))
    as [params|]; [|by apply elem_of_nil in Hin].
  right. by exists params.
Qed.

(** A call is not made by a phase that makes no call of its tag. *)
Lemma not_in_tags (gs : list tag) (t : list event) (ev : event) :
  Forall (λ ev, tag_of ev ∈ gs) t → tag_of ev ∉ gs → ev ∉ t.
Proof.
  intros Hall Hnot Hin. rewrite Forall_forall in Hall.
  exact (Hnot (Hall ev Hin)).
Qed.

Lemma only_cons (gs : list tag) (ev : event) (t : list event) :
  only gs (ev :: t) =
    if decide (tag_of ev ∈ gs) then ev :: only gs t else only gs t.
Proof. unfold only. by rewrite filter_cons. Qed.

Lemma setup_phase_tags (w : world) (experiment : string)
    (config : gmap string value) :
  Forall (λ ev, tag_of ev ∈ setup_tags) (trace (set_experiment_seed w config))
  ∧ Forall (λ ev, tag_of ev ∈ setup_tags)
           (trace (create_results_dir w experiment config))
  ∧ ∀ device dc, Forall (λ ev, tag_of ev ∈ setup_tags)
                        (trace (load_dataset w device dc)).
Proof.
  split; [|split; [|intros device dc]].
  - eapply Forall_impl; [apply set_experiment_seed_tags|].
    intros ev Hin. unfold setup_tags.
    repeat (apply elem_of_cons in Hin as [->|Hin]; [repeat constructor|]).
    by apply elem_of_nil in Hin.
  - eapply Forall_impl; [apply create_results_dir_tags|].
    intros ev Hin. unfold setup_tags.
    repeat (apply elem_of_cons in Hin as [->|Hin]; [repeat constructor|]).
    by apply elem_of_nil in Hin.
  - eapply Forall_impl; [apply load_dataset_tags|].
    intros ev Hin. unfold setup_tags.
    repeat (apply elem_of_cons in Hin as [->|Hin]; [repeat constructor|]).
    by apply elem_of_nil in Hin.
Qed.

(** The calls with a tag of the last part of the script are the calls of
    that part; it is reached when every phase before it returned. *)
Lemma main_evaluate_calls (w : world) (experiment : string)
    (config : gmap string value) :
  ((∀ gs : list tag, (∀ g, g ∈ gs → g ∉ setup_tags) →
      only gs (trace (main w experiment config)) = [])
   ∧ ∃ e, outcome (main w experiment config) = Raise e)
  ∨ ∃ device results_dir scene_path dc l params,
      outcome (set_experiment_seed w config) = Ok device
      ∧ outcome (create_results_dir w experiment config) = Ok results_dir
      ∧ resolve_scene_path config = Ok scene_path
      ∧ config !! "data" = Some (VDict dc)
      ∧ outcome (load_dataset w device dc) = Ok l
      ∧ outcome (load_scene_data w (current_cuda_device w device) scene_path (l_params_opt_exclude l) "cuda")
        = Ok params
      ∧ (∀ gs : list tag, (∀ g, g ∈ gs → g ∉ setup_tags) →
           only gs (trace (main w experiment config))
           = only gs (trace (evaluate w
                        (<["data" := VDict (l_dataset_config l)]> config)
                        l params results_dir)))
      ∧ outcome (main w experiment config)
        = outcome (evaluate w
                     (<["data" := VDict (l_dataset_config l)]> config)
                     l params results_dir).
Proof.
  destruct (setup_phase_tags w experiment config) as (Hseed & Hcrd & Hld).
  assert (Hnil : ∀ gs : list tag, (∀ g, g ∈ gs → g ∉ setup_tags) →
            ∀ t, Forall (λ ev, tag_of ev ∈ setup_tags) t → only gs t = [])
    by (intros gs Hgs t Ht; by eapply only_nil_tags).
  assert (Hone : ∀ gs : list tag, (∀ g, g ∈ gs → g ∉ setup_tags) →
            ∀ ev t, tag_of ev ∈ setup_tags → only gs (ev :: t) = only gs t).
  { intros gs Hgs ev t Hev. rewrite only_cons.
    destruct (decide (tag_of ev ∈ gs)) as [Hin|]; [|done].
    by destruct (Hgs _ Hin). }
  assert (Hprint : TPrint ∈ setup_tags)
    by (unfold setup_tags; repeat constructor).
  assert (Hnp : TNpLoad ∈ setup_tags)
    by (unfold setup_tags; repeat constructor).
  rewrite main_trace, main_outcome.
  destruct (outcome (set_experiment_seed w config)) as [device|e].
  2: { left. split; [|eauto]. intros gs Hgs.
       by rewrite app_nil_r, (Hnil gs Hgs _ Hseed). }
  destruct (outcome (create_results_dir w experiment config)) as [rd|e].
  2: { left. split; [|eauto]. intros gs Hgs.
       by rewrite app_nil_r, only_app, (Hnil gs Hgs _ Hseed),
         (Hnil gs Hgs _ Hcrd). }
  destruct (resolve_scene_path config) as [sp|e].
  2: { left. split; [|eauto]. intros gs Hgs.
       by rewrite app_nil_r, only_app, (Hnil gs Hgs _ Hseed),
         (Hnil gs Hgs _ Hcrd). }
  unfold getitem.
  destruct (config !! "data") as [data|].
  2: { left. split; [|eauto]. intros gs Hgs.
       by rewrite !only_app, (Hnil gs Hgs _ Hseed), (Hnil gs Hgs _ Hcrd),
         (Hone gs Hgs (EPrint _) _ Hprint). }
  destruct data as [| | | | |dc];
    try (left; split; [|by eauto]; intros gs Hgs;
         by rewrite !only_app, (Hnil gs Hgs _ Hseed), (Hnil gs Hgs _ Hcrd),
           (Hone gs Hgs (EPrint _) _ Hprint)).
  destruct (outcome (load_dataset w device dc)) as [l|e] eqn:Hl.
  2: { left. split; [|eauto]. intros gs Hgs.
       by rewrite !only_app, (Hnil gs Hgs _ Hseed), (Hnil gs Hgs _ Hcrd),
         (Hone gs Hgs (EPrint _) _ Hprint), only_app, (Hnil gs Hgs _ (Hld device dc)). }
  destruct (outcome (load_scene_data w (current_cuda_device w device) sp (l_params_opt_exclude l) "cuda"))
    as [params|e] eqn:Hparams.
  2: { left. split; [|eauto]. intros gs Hgs.
       by rewrite !only_app, (Hnil gs Hgs _ Hseed), (Hnil gs Hgs _ Hcrd),
         (Hone gs Hgs (EPrint _) _ Hprint), only_app, (Hnil gs Hgs _ (Hld device dc)),
         (Hone gs Hgs (ENpLoad _) _ Hnp). }
  right. exists device, rd, sp, dc, l, params.
  do 4 (split; [reflexivity|]). split; [exact Hl|]. split; [exact Hparams|].
  split; [|reflexivity]. intros gs Hgs.
  by rewrite !only_app, (Hnil gs Hgs _ Hseed), (Hnil gs Hgs _ Hcrd),
    (Hone gs Hgs (EPrint _) _ Hprint), only_app, (Hnil gs Hgs _ (Hld device dc)),
    (Hone gs Hgs (ENpLoad _) _ Hnp).
Qed.

(** ** The archive path *)

Lemma string_app_assoc (a b c : string) : (a ++ b) ++ c = a ++ (b ++ c).
Proof.
  induction a as [|x a IH]; [reflexivity|].
  change (String x ((a ++ b) ++ c) = String x (a ++ (b ++ c))).
  by rewrite IH.
Qed.

Lemma ends_with_sep_app (a b : string) :
  b ≠ "" → ends_with_sep (a ++ b) = ends_with_sep b.
Proof.
  intros Hb. induction a as [|x a IH]; [reflexivity|].
  change (String x a ++ b) with (String x (a ++ b)).
  cbn [ends_with_sep]. rewrite IH.
  destruct (a ++ b) eqn:Hab; [|reflexivity].
  destruct a; [contradiction|discriminate Hab].
Qed.

(** Joining a directory that does not end with a separator and a
    relative name puts one separator between them. *)
Lemma path_join_plain (a b : string) :
  a ≠ "" → ends_with_sep a = false → startswith "/" b = false →
  path_join a b = a ++ "/" ++ b.
Proof.
  intros Ha Hsep Hrel. unfold path_join. rewrite Hrel, Hsep.
  apply String.eqb_neq in Ha. by rewrite Ha.
Qed.

Lemma results_dir_of_strings (config : gmap string value)
    (workdir run_name : string) :
  config !! "workdir" = Some (VStr workdir) →
  config !! "run_name" = Some (VStr run_name) →
  results_dir_of config = Ok (path_join workdir run_name).
Proof.
  intros Hw Hr. unfold results_dir_of, getitem. by rewrite Hw, Hr.
Qed.

(** Every call of [np.load] the script makes is on the resolved path. *)
Lemma np_load_in_main (w : world) (experiment : string)
    (config : gmap string value) (p : value) :
  ENpLoad p ∈ trace (main w experiment config) →
  resolve_scene_path config = Ok p.
Proof.
  intros Hin. apply elem_of_main_trace in Hin
    as [Hin|[Hin|[Hin|(device & rd & sp & dc & _ & _ & Hsp & _ & Hin)]]].
  - exfalso. revert Hin.
    eapply not_in_tags; [apply set_experiment_seed_tags|].
    cbn. intros Hin.
    repeat (apply elem_of_cons in Hin as [Hin|Hin]; [discriminate Hin|]).
    by apply elem_of_nil in Hin.
  - exfalso. revert Hin.
    eapply not_in_tags; [apply create_results_dir_tags|].
    cbn. intros Hin.
    repeat (apply elem_of_cons in Hin as [Hin|Hin]; [discriminate Hin|]).
    by apply elem_of_nil in Hin.
  - discriminate Hin.
  - destruct Hin as [Hin|(l & _ & [Hin|(params & _ & Hin)])].
    + exfalso. revert Hin.
      eapply not_in_tags; [apply load_dataset_tags|].
      cbn. intros Hin.
      repeat (apply elem_of_cons in Hin as [Hin|Hin]; [discriminate Hin|]).
      by apply elem_of_nil in Hin.
    + by injection Hin as ->.
    + exfalso. revert Hin.
      eapply not_in_tags; [apply evaluate_tags|].
      cbn. intros Hin.
      repeat (apply elem_of_cons in Hin as [Hin|Hin]; [discriminate Hin|]).
      by apply elem_of_nil in Hin.
Qed.

(** A run that completes called [np.load] once. *)
Lemma np_load_once (w : world) (experiment : string)
    (config : gmap string value) :
  outcome (main w experiment config) = Ok tt →
  count TNpLoad (trace (main w experiment config)) = 1%nat.
Proof.
  assert (Hnil : ∀ (gs : list tag) t,
            Forall (λ ev, tag_of ev ∈ gs) t → TNpLoad ∉ gs →
            only [TNpLoad] t = []).
  { intros gs t Ht Hgs. eapply only_nil_tags; [exact Ht|].
    intros g Hg. apply list_elem_of_singleton in Hg as ->. exact Hgs. }
  assert (Hne : ∀ gs : list tag, Forall (λ g, TNpLoad ≠ g) gs → TNpLoad ∉ gs).
  { intros gs Hall Hin. rewrite Forall_forall in Hall.
    by apply (Hall _ Hin). }
  unfold count. rewrite main_trace, main_outcome, only_app.
  rewrite (Hnil _ _ (set_experiment_seed_tags w config))
    by (apply Hne; repeat constructor; discriminate).
  destruct (outcome (set_experiment_seed w config)) as [device|];
    [|discriminate].
  rewrite only_app.
  rewrite (Hnil _ _ (create_results_dir_tags w experiment config))
    by (apply Hne; repeat constructor; discriminate).
  destruct (outcome (create_results_dir w experiment config)) as [rd|];
    [|discriminate].
  destruct (resolve_scene_path config) as [sp|]; [|discriminate].
  rewrite only_cons. cbn [tag_of].
  destruct (decide (TPrint ∈ [TNpLoad])) as [Hin|_];
    [apply list_elem_of_singleton in Hin; discriminate Hin|].
  unfold getitem.
  destruct (config !! "data") as [[| | | | |dc]|]; try discriminate.
  rewrite only_app.
  rewrite (Hnil _ _ (load_dataset_tags w device dc))
    by (apply Hne; repeat constructor; discriminate).
  destruct (outcome (load_dataset w device dc)) as [l|]; [|discriminate].
  rewrite only_cons. cbn [tag_of].
  destruct (decide (TNpLoad ∈ [TNpLoad])) as [_|Hnin];
    [|exfalso; apply Hnin; by left].
  destruct (outcome (load_scene_data w (current_cuda_device w device) sp (l_params_opt_exclude l) "cuda"))
    as [params|]; [|discriminate].
  rewrite (Hnil _ _ (evaluate_tags w _ l params rd))
    by (apply Hne; repeat constructor; discriminate).
  reflexivity.
Qed.

(** C4: without a [scene_path] key the archive path is the join of the
    results directory [join(workdir, run_name)] with ["params.npz"], which
    for a [workdir] that does not end with a separator and a relative
    [run_name] is the text [<workdir>/<run_name>/params.npz]; with a
    [scene_path] key it is the value of that key, unmodified. In both
    cases it is the path of every [np.load] call of the script, and a run
    that completes makes that call once. *)
Theorem scene_path_choice (w : world) (experiment : string)
    (config : gmap string value) :
  (config !! "scene_path" = None →
   ∀ workdir run_name,
     config !! "workdir" = Some (VStr workdir) →
     config !! "run_name" = Some (VStr run_name) →
     resolve_scene_path config
     = Ok (VStr (path_join (path_join workdir run_name) "params.npz"))
     ∧ (∀ p, ENpLoad p ∈ trace (main w experiment config) →
             p = VStr (path_join (path_join workdir run_name) "params.npz"))
     ∧ (workdir ≠ "" → ends_with_sep workdir = false →
        run_name ≠ "" → startswith "/" run_name = false →
        ends_with_sep run_name = false →
        path_join (path_join workdir run_name) "params.npz"
        = workdir ++ "/" ++ run_name ++ "/params.npz"))
  ∧ (∀ v, config !! "scene_path" = Some v →
          resolve_scene_path config = Ok v
          ∧ ∀ p, ENpLoad p ∈ trace (main w experiment config) → p = v)
  ∧ (outcome (main w experiment config) = Ok tt →
     count TNpLoad (trace (main w experiment config)) = 1%nat).
Proof.
  split; [|split].
  - intros Hnone workdir run_name Hw Hr.
    assert (Hres : resolve_scene_path config
              = Ok (VStr (path_join (path_join workdir run_name) "params.npz"))).
    { unfold resolve_scene_path, has_key. rewrite Hnone. cbn [negb].
      by rewrite (results_dir_of_strings config workdir run_name Hw Hr). }
    split; [exact Hres|]. split.
    + intros p Hin. apply np_load_in_main in Hin. congruence.
    + intros Hw0 Hwsep Hr0 Hrel Hrsep.
      rewrite (path_join_plain workdir run_name) by assumption.
      rewrite path_join_plain.
      * by rewrite !string_app_assoc.
      * destruct workdir; [contradiction|discriminate].
      * rewrite ends_with_sep_app by (destruct run_name; [contradiction|discriminate]).
        change ("/" ++ run_name) with (String "/" run_name).
        destruct run_name; [contradiction|]. exact Hrsep.
      * reflexivity.
  - intros v Hv.
    assert (Hres : resolve_scene_path config = Ok v).
    { unfold resolve_scene_path, has_key, getitem. by rewrite Hv. }
    split; [exact Hres|].
    intros p Hin. apply np_load_in_main in Hin. congruence.
  - apply np_load_once.
Qed.

(** ** What the phases hand over *)

Lemma create_results_dir_ok (w : world) (experiment : string)
    (config : gmap string value) (results_dir : string) :
  outcome (create_results_dir w experiment config) = Ok results_dir →
  results_dir_of config = Ok results_dir.
Proof.
  rewrite create_results_dir_run.
  destruct (results_dir_of config) as [rd|]; [|discriminate].
  destruct (getitem config "load_checkpoint") as [lc|]; [|discriminate].
  destruct (truthy lc); [by intros [= ->]|].
  destruct (w_makedirs w rd true); [|discriminate].
  unfold outcome. cbn [snd].
  destruct (w_copy w experiment (path_join rd "config.py"));
    [by intros [= ->]|discriminate].
Qed.

(** When "Load Dataset" returns: the sub-record has its defaults, the
    semantics settings are those of [semantics_config], the dataset was
    constructed with them, and the frame count is resolved. *)
Lemma load_dataset_ok (w : world) (device : value) (dc : gmap string value)
    (l : loaded) :
  outcome (load_dataset w device dc) = Ok l →
  l_dataset_config l = apply_defaults dc
  ∧ semantics_config (apply_defaults dc)
    = Ok (l_load_semantics l,
          kw_num_semantic_classes (ds_kwargs (l_dataset l)),
          l_params_opt_exclude l)
  ∧ kw_load_semantics (ds_kwargs (l_dataset l)) = l_load_semantics l
  ∧ apply_defaults dc !! "ignore_bad"
    = Some (kw_ignore_bad (ds_kwargs (l_dataset l)))
  ∧ apply_defaults dc !! "use_train_split"
    = Some (kw_use_train_split (ds_kwargs (l_dataset l)))
  ∧ ∃ v, apply_defaults dc !! "num_frames" = Some v
         ∧ l_num_frames l
           = if py_eq_int v (-1)
             then VInt (Z.of_nat (ds_len (l_dataset l))) else v.
Proof.
  intros Hok.
  destruct (load_dataset_inv w device dc)
    as (pre & _ & [(_ & e & He)|(cls & cfg & basedir & sequence & kw & ls
         & nsc & excl & Hsem & Hib & Huts & Hls & Hnsc & _ & _ & _ & Hout)]).
  { rewrite He in Hok. discriminate Hok. }
  rewrite Hout in Hok.
  destruct (w_dataset_init w cls cfg basedir sequence kw) as [n|];
    [|discriminate Hok].
  destruct (apply_defaults dc !! "num_frames") as [v|]; [|discriminate Hok].
  injection Hok as <-. cbn.
  rewrite Hnsc, Hls. repeat split; try assumption. by exists v.
Qed.

(** The evaluation calls of the last part are as [evaluation_call] says. *)
Lemma evaluate_run_call (w : world) (config : gmap string value) (l : loaded)
    (params : gmap string pval) (results_dir : string)
    (t : list event) (r : result unit) (ev : event) :
  evaluate_run w config l params results_dir t r →
  ev ∈ t →
  tag_of ev = TEval ∨ tag_of ev = TEvalNvs →
  ∃ run r', evaluation_call w l params results_dir run ev r'.
Proof.
  intros Hrun Hin Htag.
  assert (Hinit : ∀ init run, wandb_started w config init run →
                              ev ∈ init → False).
  { intros init run Hs Hev.
    pose proof (wandb_started_tags _ _ _ _ Hs) as Hall.
    rewrite Forall_forall in Hall. specialize (Hall ev Hev).
    destruct Htag as [Ht|Ht]; rewrite Ht in Hall; discriminate Hall. }
  assert (Hnot : ∀ ev', tag_of ev' ≠ TEval → tag_of ev' ≠ TEvalNvs →
                        ev = ev' → False).
  { intros ev' H1 H2 ->. by destruct Htag. }
  destruct Hrun as [e|uw a e _ _ _|init run e Hs|init run ev' e Hs Hc
                   |init run ev' Hs Hc].
  - by apply elem_of_nil in Hin.
  - apply list_elem_of_singleton in Hin.
    exfalso. refine (Hnot _ _ _ Hin); discriminate.
  - apply elem_of_app in Hin as [Hin|Hin]; [by destruct (Hinit _ _ Hs)|].
    repeat (apply elem_of_cons in Hin as [Hin|Hin];
            [exfalso; refine (Hnot _ _ _ Hin); discriminate|]).
    by apply elem_of_nil in Hin.
  - apply elem_of_app in Hin as [Hin|Hin]; [by destruct (Hinit _ _ Hs)|].
    apply elem_of_cons in Hin as [Hin|Hin]; [exfalso; refine (Hnot _ _ _ Hin); discriminate|].
    apply elem_of_cons in Hin as [->|Hin]; [eauto|].
    apply elem_of_cons in Hin as [Hin|Hin]; [exfalso; refine (Hnot _ _ _ Hin); discriminate|].
    by apply elem_of_nil in Hin.
  - apply elem_of_app in Hin as [Hin|Hin]; [by destruct (Hinit _ _ Hs)|].
    apply elem_of_cons in Hin as [Hin|Hin]; [exfalso; refine (Hnot _ _ _ Hin); discriminate|].
    apply elem_of_cons in Hin as [->|Hin]; [eauto|].
    apply elem_of_cons in Hin as [Hin|Hin]; [exfalso; refine (Hnot _ _ _ Hin); discriminate|].
    destruct run as [h|]; [|by apply elem_of_nil in Hin].
    apply list_elem_of_singleton in Hin.
    exfalso. refine (Hnot _ _ _ Hin); discriminate.
Qed.

(** An evaluation call of the script is made by its last part, after
    every phase before it returned. *)
Lemma eval_in_main (w : world) (experiment : string)
    (config : gmap string value) (ev : event) :
  ev ∈ trace (main w experiment config) →
  tag_of ev = TEval ∨ tag_of ev = TEvalNvs →
  ∃ device results_dir scene_path dc l params run r,
    results_dir_of config = Ok results_dir
    ∧ resolve_scene_path config = Ok scene_path
    ∧ config !! "data" = Some (VDict dc)
    ∧ outcome (load_dataset w device dc) = Ok l
    ∧ outcome (load_scene_data w (current_cuda_device w device) scene_path (l_params_opt_exclude l) "cuda")
      = Ok params
    ∧ evaluation_call w l params results_dir run ev r.
Proof.
  intros Hin Htag.
  assert (Hout : ∀ (gs : list tag) t,
            Forall (λ ev, tag_of ev ∈ gs) t →
            TEval ∉ gs → TEvalNvs ∉ gs → ev ∈ t → False).
  { intros gs t Hall H1 H2 Hev. rewrite Forall_forall in Hall.
    specialize (Hall ev Hev). destruct Htag as [Ht|Ht]; rewrite Ht in Hall;
      contradiction. }
  assert (Hne : ∀ (g : tag) (gs : list tag), Forall (λ g', g ≠ g') gs → g ∉ gs).
  { intros g gs Hall Hg. rewrite Forall_forall in Hall. by apply (Hall _ Hg). }
  apply elem_of_main_trace in Hin
    as [Hin|[Hin|[->|(device & rd & sp & dc & _ & Hrd & Hsp & Hdc & Hin)]]].
  - exfalso. eapply Hout; [apply set_experiment_seed_tags| | |exact Hin];
      apply Hne; repeat constructor; discriminate.
  - exfalso. eapply Hout; [apply create_results_dir_tags| | |exact Hin];
      apply Hne; repeat constructor; discriminate.
  - destruct Htag as [Ht|Ht]; discriminate Ht.
  - destruct Hin as [Hin|(l & Hl & [->|(params & Hparams & Hin)])].
    + exfalso. eapply Hout; [apply load_dataset_tags| | |exact Hin];
        apply Hne; repeat constructor; discriminate.
    + destruct Htag as [Ht|Ht]; discriminate Ht.
    + destruct (evaluate_run_call w _ l params rd _ _ ev
                  (evaluate_inv w _ l params rd) Hin Htag) as (run & r & Hc).
      exists device, rd, sp, dc, l, params, run, r.
      split; [by eapply create_results_dir_ok|]. by repeat split.
Qed.

(** On the sample configuration the archive is
    [./experiments/Replica/room0_0/params.npz], loaded once; with a
    [scene_path] key it is that key's value. *)
Lemma scene_path_choice_witness :
  resolve_scene_path sample_config
  = Ok (VStr ("./experiments/Replica" ++ "/" ++ "room0_0" ++ "/params.npz"))
  ∧ count TNpLoad (trace (main calm_world "configs/replica.py" sample_config))
    = 1%nat
  ∧ resolve_scene_path (<["scene_path" := VStr "maps/final.npz"]> sample_config)
    = Ok (VStr "maps/final.npz").
Proof.
  destruct (scene_path_choice calm_world "configs/replica.py" sample_config)
    as (Habsent & _ & Honce).
  destruct (Habsent ltac:(vm_compute; reflexivity)
              "./experiments/Replica" "room0_0"
              ltac:(vm_compute; reflexivity) ltac:(vm_compute; reflexivity))
    as (Hres & _ & Htext).
  split; [|split].
  - rewrite Hres.
    rewrite Htext;
      [reflexivity|discriminate|reflexivity|discriminate
      |reflexivity|reflexivity].
  - apply Honce. vm_compute. reflexivity.
  - destruct (scene_path_choice calm_world "configs/replica.py"
                (<["scene_path" := VStr "maps/final.npz"]> sample_config))
      as (_ & Hpresent & _).
    apply (Hpresent (VStr "maps/final.npz")). apply lookup_insert_eq.
Defined.

(** ** The dispatch *)

(** Unfolds a run of the last part into its explicit trace. *)
Ltac invert_evaluate_run H :=
  let uw := fresh "uw" in
  let Huw := fresh "Huw" in
  let Hcall := fresh "Hcall" in
  destruct H as [?|? ? ? ? ? ?
                |? ? ? (uw & Huw & [(? & ? & ?)|(? & ? & ? & ? & ? & ? & ?)])
                |? ? ? ? (uw & Huw & [(? & ? & ?)|(? & ? & ? & ? & ? & ? & ?)])
                   Hcall
                |? ? ? (uw & Huw & [(? & ? & ?)|(? & ? & ? & ? & ? & ? & ?)])
                   Hcall];
  subst;
  try (destruct Hcall as (? & ? & ? & ? & ? & ? & ? & ? & ?
                          & [(? & ? & ? & ?)|(? & ? & ? & ?)]); subst).

(** How often the last part calls each evaluation routine. *)
Lemma evaluate_run_counts (w : world) (config : gmap string value)
    (l : loaded) (params : gmap string pval) (results_dir : string)
    (t : list event) (r : result unit) (uts : value) :
  evaluate_run w config l params results_dir t r →
  l_dataset_config l !! "use_train_split" = Some uts →
  (truthy uts = true →
   count TEvalNvs t = 0%nat ∧ (count TEval t ≤ 1)%nat
   ∧ (r = Ok tt → count TEval t = 1%nat))
  ∧ (truthy uts = false →
     count TEval t = 0%nat ∧ (count TEvalNvs t ≤ 1)%nat
     ∧ (r = Ok tt → count TEvalNvs t = 1%nat)).
Proof.
  intros Hrun Huts.
  invert_evaluate_run Hrun;
    repeat match goal with
           | H : l_dataset_config l !! "use_train_split" = Some _ |- _ =>
               rewrite Huts in H; injection H as <-
           end;
    (split; intros Htruthy;
     try (exfalso; congruence);
     repeat match goal with
            | |- context [count ?g ?t] =>
                let n := eval vm_compute in (count g t) in
                change (count g t) with n
            end;
     (split; [reflexivity|]);
     (split; [lia|]);
     first [ intros Hr; discriminate Hr | intros _; reflexivity ]).
Qed.

Lemma evaluation_tags_not_setup (g : tag) :
  g ∈ evaluate_tags_list → g ∉ setup_tags.
Proof.
  unfold evaluate_tags_list, setup_tags. intros Hg Hs.
  repeat (apply elem_of_cons in Hg as [->|Hg];
          [repeat (apply elem_of_cons in Hs as [Hs|Hs]; [discriminate Hs|]);
           by apply elem_of_nil in Hs|]).
  by apply elem_of_nil in Hg.
Qed.

(** C5: with a true [use_train_split] (the default included) the script
    never calls [eval_nvs] and calls [eval] at most once, exactly once in
    a run that completes, and every such call gets the output directory
    [join(results_dir, "eval_train")]; with a false [use_train_split] the
    same holds with [eval] and [eval_nvs] exchanged and the directory
    [join(results_dir, "eval_nvs")]. *)
Theorem evaluation_dispatch (w : world) (experiment : string)
    (config dc : gmap string value) (uts : value) :
  config !! "data" = Some (VDict dc) →
  apply_defaults dc !! "use_train_split" = Some uts →
  (truthy uts = true →
   count TEvalNvs (trace (main w experiment config)) = 0%nat
   ∧ (count TEval (trace (main w experiment config)) ≤ 1)%nat
   ∧ (outcome (main w experiment config) = Ok tt →
      count TEval (trace (main w experiment config)) = 1%nat)
   ∧ ∀ a, EEval a ∈ trace (main w experiment config) →
          ∃ results_dir, results_dir_of config = Ok results_dir
            ∧ ea_eval_dir a = path_join results_dir "eval_train")
  ∧ (truthy uts = false →
     count TEval (trace (main w experiment config)) = 0%nat
     ∧ (count TEvalNvs (trace (main w experiment config)) ≤ 1)%nat
     ∧ (outcome (main w experiment config) = Ok tt →
        count TEvalNvs (trace (main w experiment config)) = 1%nat)
     ∧ ∀ a, EEvalNvs a ∈ trace (main w experiment config) →
            ∃ results_dir, results_dir_of config = Ok results_dir
              ∧ ea_eval_dir a = path_join results_dir "eval_nvs").
Proof.
  intros Hdata Huts.
  assert (Hdisj : ∀ g0 : tag, g0 ∈ evaluate_tags_list →
            ∀ g, g ∈ [g0] → g ∉ setup_tags).
  { intros g0 Hg0 g Hg. apply list_elem_of_singleton in Hg as ->.
    by apply evaluation_tags_not_setup. }
  assert (He : TEval ∈ evaluate_tags_list)
    by (unfold evaluate_tags_list; repeat constructor).
  assert (Hn : TEvalNvs ∈ evaluate_tags_list)
    by (unfold evaluate_tags_list; repeat constructor).
  assert (Hcounts :
    (truthy uts = true →
     count TEvalNvs (trace (main w experiment config)) = 0%nat
     ∧ (count TEval (trace (main w experiment config)) ≤ 1)%nat
     ∧ (outcome (main w experiment config) = Ok tt →
        count TEval (trace (main w experiment config)) = 1%nat))
    ∧ (truthy uts = false →
       count TEval (trace (main w experiment config)) = 0%nat
       ∧ (count TEvalNvs (trace (main w experiment config)) ≤ 1)%nat
       ∧ (outcome (main w experiment config) = Ok tt →
          count TEvalNvs (trace (main w experiment config)) = 1%nat))).
  { destruct (main_evaluate_calls w experiment config)
      as [(Honly & e & Hout)
         |(device & rd & sp & dc' & l & params & _ & _ & _ & Hdc' & Hl & _
           & Honly & Hout)].
    - unfold count. rewrite !Honly by (apply Hdisj; assumption). rewrite Hout. cbn [length].
      split; intros _; (split; [reflexivity|]); (split; [lia|]);
        intros Hok; discriminate Hok.
    - rewrite Hdata in Hdc'. injection Hdc' as <-.
      destruct (load_dataset_ok w device dc l Hl) as (Hcfg & _).
      unfold count. rewrite !Honly by (apply Hdisj; assumption). rewrite Hout.
      apply (evaluate_run_counts w _ l params rd _ _ uts
               (evaluate_inv w _ l params rd)).
      by rewrite Hcfg. }
  assert (Hdir : ∀ ev, ev ∈ trace (main w experiment config) →
            tag_of ev = TEval ∨ tag_of ev = TEvalNvs →
            ∃ rd l params run r,
              results_dir_of config = Ok rd
              ∧ evaluation_call w l params rd run ev r).
  { intros ev Hin Htag.
    destruct (eval_in_main w experiment config ev Hin Htag)
      as (device & rd & sp & dc' & l & params & run & r & Hrd & _ & _
          & _ & _ & Hcall).
    exists rd, l, params, run, r. by split. }
  destruct Hcounts as [Htrain Hnvs].
  split; intros Htruthy.
  - destruct (Htrain Htruthy) as (H0 & H1 & Hok).
    do 3 (split; [assumption|]).
    intros a Hin.
    destruct (Hdir (EEval a) Hin ltac:(by left))
      as (rd & l & params & run & r & Hrd & Hcall).
    exists rd. split; [exact Hrd|].
    destruct Hcall as (uts' & a' & Huts' & _ & _ & _ & _ & _ & _
                       & [(_ & Hev & _ & Hd)|(_ & Hev & _)]);
      [by injection Hev as <-|discriminate Hev].
  - destruct (Hnvs Htruthy) as (H0 & H1 & Hok).
    do 3 (split; [assumption|]).
    intros a Hin.
    destruct (Hdir (EEvalNvs a) Hin ltac:(by right))
      as (rd & l & params & run & r & Hrd & Hcall).
    exists rd. split; [exact Hrd|].
    destruct Hcall as (uts' & a' & Huts' & _ & _ & _ & _ & _ & _
                       & [(_ & Hev & _)|(_ & Hev & _ & Hd)]);
      [discriminate Hev|by injection Hev as <-].
Qed.

(** With the defaults the sample configuration evaluates the train split
    once; with [use_train_split] false it runs [eval_nvs] once. *)
Lemma evaluation_dispatch_witness :
  count TEval (trace (main calm_world "configs/replica.py" sample_config))
  = 1%nat
  ∧ count TEvalNvs (trace (main calm_world "configs/replica.py" sample_config))
    = 0%nat
  ∧ count TEvalNvs
      (trace (main calm_world "configs/replica.py" sample_config_nvs))
    = 1%nat
  ∧ count TEval
      (trace (main calm_world "configs/replica.py" sample_config_nvs))
    = 0%nat.
Proof.
  destruct (evaluation_dispatch calm_world "configs/replica.py"
              sample_config sample_data (VBool true)
              ltac:(vm_compute; reflexivity) ltac:(vm_compute; reflexivity))
    as [Htrain _].
  destruct (Htrain eq_refl) as (Hnone & _ & Honce & _).
  destruct (evaluation_dispatch calm_world "configs/replica.py"
              sample_config_nvs sample_data_nvs (VBool false)
              ltac:(vm_compute; reflexivity) ltac:(vm_compute; reflexivity))
    as [_ Hnvs].
  destruct (Hnvs eq_refl) as (Hnone' & _ & Honce' & _).
  split; [apply Honce; vm_compute; reflexivity|].
  split; [exact Hnone|].
  split; [apply Honce'; vm_compute; reflexivity|exact Hnone'].
Defined.

(** ** The tracking run *)

Lemma elem_of_only (gs : list tag) (t : list event) (ev : event) :
  ev ∈ only gs t ↔ tag_of ev ∈ gs ∧ ev ∈ t.
Proof. unfold only. by rewrite list_elem_of_filter. Qed.

Lemma evaluation_returned_tag (w : world) (ev : event) :
  evaluation_returned w ev → tag_of ev ∈ [TEval; TEvalNvs].
Proof. destruct ev; cbn; try contradiction; intros _; repeat constructor. Qed.

(** The tracking calls of the last part of the script. *)
Lemma evaluate_run_lifecycle (w : world) (config : gmap string value)
    (l : loaded) (params : gmap string pval) (results_dir : string)
    (t : list event) (r : result unit) (uw : value) :
  evaluate_run w config l params results_dir t r →
  config !! "use_wandb" = Some uw →
  (truthy uw = false →
   lifecycle t ∈ untracked_lifecycles
   ∧ (r = Ok tt → lifecycle t = [TEval] ∨ lifecycle t = [TEvalNvs]))
  ∧ (truthy uw = true →
     lifecycle t ∈ tracked_lifecycles
     ∧ (TWandbFinish ∈ lifecycle t
        ↔ ∃ ev, ev ∈ only [TEval; TEvalNvs] t ∧ evaluation_returned w ev)
     ∧ (r = Ok tt → TWandbFinish ∈ lifecycle t)).
Proof.
  intros Hrun Huw.
  invert_evaluate_run Hrun;
    repeat match goal with
           | H : config !! "use_wandb" = Some _ |- _ =>
               rewrite Huw in H; injection H as <-
           end;
    (split; intros Htruthy; try (exfalso; congruence));
    repeat match goal with
           | |- context [lifecycle ?t] =>
               let n := eval vm_compute in (lifecycle t) in
               change (lifecycle t) with n
           | |- context [only ?gs ?t] =>
               let n := eval vm_compute in (only gs t) in
               change (only gs t) with n
           end;
    unfold untracked_lifecycles, tracked_lifecycles.
  all: split; [repeat constructor|].
  all: try (split; [|first [ intros Hr; discriminate Hr
                           | intros _; repeat constructor ]]).
  all: try (intros Hr; first [discriminate Hr | (left; reflexivity)
                              | (right; reflexivity)]).
  all: split.
  all: try (intros Hin;
            repeat (apply elem_of_cons in Hin as [Hin|Hin];
                    [discriminate Hin|]);
            by apply elem_of_nil in Hin).
  all: try (intros (ev & Hin & Hret);
            repeat (apply elem_of_cons in Hin as [->|Hin];
                    [cbn in Hret; congruence|]);
            by apply elem_of_nil in Hin).
  all: try (intros _; eexists; split; [by left|]; cbn; congruence).
  all: try (intros _; repeat constructor).
Qed.

(** C6, the claim as the specification words it, fails where it covers an
    evaluation that raises: on the sample configuration, when [eval]
    raises, the tracking run was opened and is never closed. *)
Lemma wandb_left_open_when_eval_raises :
  sample_config !! "use_wandb" = Some (VBool true)
  ∧ lifecycle (trace (main eval_raises_world "configs/replica.py"
                         sample_config))
    = [TWandbInit; TEval]
  ∧ count TWandbInit (trace (main eval_raises_world "configs/replica.py"
                                sample_config)) = 1%nat
  ∧ count TWandbFinish (trace (main eval_raises_world "configs/replica.py"
                                  sample_config)) = 0%nat
  ∧ outcome (main eval_raises_world "configs/replica.py" sample_config)
    = Raise (RuntimeError "CUDA out of memory").
Proof. repeat split; vm_compute; reflexivity. Qed.

(** C6, amended: with [use_wandb] false the script makes no tracking
    call. With [use_wandb] true it opens the tracking run at most once,
    before the one evaluation call, whichever routine that is, and closes
    it at most once, after that call; it closes the run exactly when the
    evaluation call returned, so a run that completes has closed it, and
    an evaluation that raises leaves it open. *)
Theorem wandb_lifecycle (w : world) (experiment : string)
    (config : gmap string value) (uw : value) :
  config !! "use_wandb" = Some uw →
  (truthy uw = false →
   lifecycle (trace (main w experiment config)) ∈ untracked_lifecycles
   ∧ ∀ ev, ev ∈ trace (main w experiment config) →
           tag_of ev ≠ TWandbInit ∧ tag_of ev ≠ TWandbFinish)
  ∧ (truthy uw = true →
     lifecycle (trace (main w experiment config)) ∈ tracked_lifecycles
     ∧ (TWandbFinish ∈ lifecycle (trace (main w experiment config))
        ↔ ∃ ev, ev ∈ trace (main w experiment config)
                ∧ evaluation_returned w ev)
     ∧ (outcome (main w experiment config) = Ok tt →
        TWandbFinish ∈ lifecycle (trace (main w experiment config)))).
Proof.
  intros Huw.
  assert (Hdisj : ∀ gs : list tag, gs ⊆ evaluate_tags_list →
            ∀ g, g ∈ gs → g ∉ setup_tags)
    by (intros gs Hgs g Hg; apply evaluation_tags_not_setup; by apply Hgs).
  assert (HL : [TWandbInit; TEval; TEvalNvs; TWandbFinish]
               ⊆ evaluate_tags_list).
  { unfold evaluate_tags_list. intros g Hg.
    repeat (apply elem_of_cons in Hg as [->|Hg]; [repeat constructor|]).
    by apply elem_of_nil in Hg. }
  assert (HE : [TEval; TEvalNvs] ⊆ evaluate_tags_list).
  { unfold evaluate_tags_list. intros g Hg.
    repeat (apply elem_of_cons in Hg as [->|Hg]; [repeat constructor|]).
    by apply elem_of_nil in Hg. }
  assert (Hret : ∀ t : list event,
            (∃ ev, ev ∈ t ∧ evaluation_returned w ev)
            ↔ (∃ ev, ev ∈ only [TEval; TEvalNvs] t ∧ evaluation_returned w ev)).
  { intros t. split; intros (ev & Hin & Hr); exists ev; (split; [|exact Hr]).
    - apply elem_of_only. split; [by eapply evaluation_returned_tag|exact Hin].
    - by apply elem_of_only in Hin as [_ Hin]. }
  assert (Hcalls : ∀ t : list event,
            lifecycle t ∈ untracked_lifecycles →
            ∀ ev, ev ∈ t → tag_of ev ≠ TWandbInit ∧ tag_of ev ≠ TWandbFinish).
  { intros t Hl ev Hin.
    assert (Hlc : ∀ g, g ∈ [TWandbInit; TWandbFinish] → tag_of ev = g →
                       g ∈ lifecycle t).
    { intros g Hg <-. unfold lifecycle. apply list_elem_of_fmap_2.
      apply elem_of_only. split; [|exact Hin].
      repeat (apply elem_of_cons in Hg as [->|Hg]; [repeat constructor|]).
      by apply elem_of_nil in Hg. }
    unfold untracked_lifecycles in Hl.
    split; intros Htag;
      (eapply Hlc in Htag; [|repeat constructor]);
      repeat (apply elem_of_cons in Hl as [Hl|Hl];
              [rewrite Hl in Htag;
               repeat (apply elem_of_cons in Htag as [Htag|Htag];
                       [discriminate Htag|]);
               by apply elem_of_nil in Htag|]);
      by apply elem_of_nil in Hl. }
  destruct (main_evaluate_calls w experiment config)
    as [(Honly & e & Hout)
       |(device & rd & sp & dc & l & params & _ & _ & _ & _ & _ & _
         & Honly & Hout)].
  - assert (Hlife : lifecycle (trace (main w experiment config)) = [])
      by (unfold lifecycle; by rewrite Honly by (by apply Hdisj)).
    split; intros Htruthy.
    + split; [rewrite Hlife; unfold untracked_lifecycles; repeat constructor|].
      apply Hcalls. rewrite Hlife. unfold untracked_lifecycles.
      repeat constructor.
    + rewrite Hlife, Hout, Hret, Honly by (by apply Hdisj).
      split; [unfold tracked_lifecycles; repeat constructor|]. split.
      * split; [intros Hin; by apply elem_of_nil in Hin|].
        intros (ev & Hin & _). by apply elem_of_nil in Hin.
      * intros Hok. discriminate Hok.
  - assert (Hlife : lifecycle (trace (main w experiment config))
              = lifecycle (trace (evaluate w
                             (<["data" := VDict (l_dataset_config l)]> config)
                             l params rd)))
      by (unfold lifecycle; by rewrite Honly by (by apply Hdisj)).
    assert (Huw' : (<["data" := VDict (l_dataset_config l)]> config)
                     !! "use_wandb" = Some uw)
      by (rewrite lookup_insert_ne by discriminate; exact Huw).
    destruct (evaluate_run_lifecycle w _ l params rd _ _ uw
                (evaluate_inv w _ l params rd) Huw') as [Hoff Hon].
    split; intros Htruthy.
    + destruct (Hoff Htruthy) as [Hl _].
      split; [by rewrite Hlife|]. apply Hcalls. by rewrite Hlife.
    + destruct (Hon Htruthy) as (Hl & Hiff & Hok).
      rewrite Hlife, Hout, Hret, Honly by (by apply Hdisj).
      split; [exact Hl|]. split; [exact Hiff|exact Hok].
Qed.

(** On the sample configuration a run in a calm world closes the tracking
    run; with tracking off it makes no tracking call. *)
Lemma wandb_lifecycle_witness :
  TWandbFinish
    ∈ lifecycle (trace (main calm_world "configs/replica.py" sample_config))
  ∧ ∀ ev, ev ∈ trace (main calm_world "configs/replica.py"
                        sample_config_untracked) →
          tag_of ev ≠ TWandbInit ∧ tag_of ev ≠ TWandbFinish.
Proof.
  destruct (wandb_lifecycle calm_world "configs/replica.py" sample_config
              (VBool true) ltac:(vm_compute; reflexivity)) as [_ Hon].
  destruct (Hon eq_refl) as (_ & _ & Hok).
  destruct (wandb_lifecycle calm_world "configs/replica.py"
              sample_config_untracked (VBool false)
              ltac:(vm_compute; reflexivity)) as [Hoff _].
  destruct (Hoff eq_refl) as (_ & Hnone).
  split; [apply Hok; vm_compute; reflexivity|exact Hnone].
Defined.

(** ** The results directory *)

Lemma only_all (gs : list tag) (t : list event) :
  Forall (λ ev, tag_of ev ∈ gs) t → only gs t = t.
Proof.
  intros Hall. unfold only. induction Hall as [|ev t Hev _ IH]; [reflexivity|].
  rewrite filter_cons_True by exact Hev. by rewrite IH.
Qed.

(** The directory and copy calls of the script are those of "Create
    Results Directory and Copy Config", which runs once the seed phase
    returned. *)
Lemma main_fs_calls (w : world) (experiment : string)
    (config : gmap string value) :
  only [TMakedirs; TCopy] (trace (main w experiment config)) =
    match outcome (set_experiment_seed w config) with
    | Ok _ => trace (create_results_dir w experiment config)
    | Raise _ => []
    end.
Proof.
  assert (Hnil : ∀ (gs : list tag) t,
            Forall (λ ev, tag_of ev ∈ gs) t →
            Forall (λ g, g ≠ TMakedirs ∧ g ≠ TCopy) gs →
            only [TMakedirs; TCopy] t = []).
  { intros gs t Ht Hgs. eapply only_nil_tags; [exact Ht|].
    intros g Hg Hin. rewrite Forall_forall in Hgs.
    destruct (Hgs g Hin) as [H1 H2].
    repeat (apply elem_of_cons in Hg as [Hg|Hg]; [contradiction|]).
    by apply elem_of_nil in Hg. }
  assert (Hone : ∀ ev t, tag_of ev ≠ TMakedirs → tag_of ev ≠ TCopy →
            only [TMakedirs; TCopy] (ev :: t) = only [TMakedirs; TCopy] t).
  { intros ev t H1 H2. rewrite only_cons.
    destruct (decide (tag_of ev ∈ [TMakedirs; TCopy])) as [Hin|]; [|done].
    repeat (apply elem_of_cons in Hin as [Hin|Hin]; [contradiction|]).
    by apply elem_of_nil in Hin. }
  rewrite main_trace, only_app.
  rewrite (Hnil _ _ (set_experiment_seed_tags w config))
    by (repeat constructor; discriminate).
  destruct (outcome (set_experiment_seed w config)) as [device|];
    [|reflexivity].
  rewrite only_app, (only_all _ _ (create_results_dir_tags w experiment config)).
  cbn [app]. rewrite <- (app_nil_r (trace (create_results_dir _ _ _))) at 2.
  f_equal.
  destruct (outcome (create_results_dir w experiment config)) as [rd|];
    [|reflexivity].
  destruct (resolve_scene_path config) as [sp|]; [|reflexivity].
  rewrite Hone by discriminate.
  destruct (getitem config "data") as [[| | | | |dc]|]; try reflexivity.
  rewrite only_app.
  rewrite (Hnil _ _ (load_dataset_tags w device dc))
    by (repeat constructor; discriminate).
  destruct (outcome (load_dataset w device dc)) as [l|]; [|reflexivity].
  rewrite Hone by discriminate.
  destruct (outcome (load_scene_data w (current_cuda_device w device) sp (l_params_opt_exclude l) "cuda"))
    as [params|]; [|reflexivity].
  apply (Hnil _ _ (evaluate_tags w _ l params rd)).
  repeat constructor; discriminate.
Qed.

(** C7: with a true [load_checkpoint] the script never calls
    [os.makedirs] nor [shutil.copy], and the step makes no call at all.
    With a false one the step calls [os.makedirs(results_dir,
    exist_ok=True)], then, if that returned, [shutil.copy(experiment,
    join(results_dir, "config.py"))], and nothing else; these are the only
    directory and copy calls of the script, and a run that completes made
    each exactly once. *)
Theorem results_dir_step (w : world) (experiment : string)
    (config : gmap string value) (lc : value) :
  config !! "load_checkpoint" = Some lc →
  (truthy lc = true →
   trace (create_results_dir w experiment config) = []
   ∧ only [TMakedirs; TCopy] (trace (main w experiment config)) = [])
  ∧ (truthy lc = false →
     ∀ results_dir, results_dir_of config = Ok results_dir →
       trace (create_results_dir w experiment config)
       = match w_makedirs w results_dir true with
         | Ok _ => [EMakedirs results_dir true;
                    ECopy experiment (path_join results_dir "config.py")]
         | Raise _ => [EMakedirs results_dir true]
         end
       ∧ (only [TMakedirs; TCopy] (trace (main w experiment config)) = []
          ∨ only [TMakedirs; TCopy] (trace (main w experiment config))
            = trace (create_results_dir w experiment config))
       ∧ (outcome (main w experiment config) = Ok tt →
          only [TMakedirs; TCopy] (trace (main w experiment config))
          = [EMakedirs results_dir true;
             ECopy experiment (path_join results_dir "config.py")]
          ∧ count TMakedirs (trace (main w experiment config)) = 1%nat
          ∧ count TCopy (trace (main w experiment config)) = 1%nat)).
Proof.
  intros Hlc.
  assert (Hg : getitem config "load_checkpoint" = Ok lc)
    by (unfold getitem; by rewrite Hlc).
  split; intros Htruthy.
  - assert (Hstep : trace (create_results_dir w experiment config) = []).
    { rewrite create_results_dir_run, Hg, Htruthy.
      by destruct (results_dir_of config). }
    split; [exact Hstep|].
    rewrite main_fs_calls, Hstep.
    by destruct (outcome (set_experiment_seed w config)).
  - intros rd Hrd.
    assert (Hstep : create_results_dir w experiment config
              = match w_makedirs w rd true with
                | Raise e => ([EMakedirs rd true], Raise e)
                | Ok _ =>
                    ([EMakedirs rd true;
                      ECopy experiment (path_join rd "config.py")],
                     match w_copy w experiment (path_join rd "config.py") with
                     | Ok _ => Ok rd
                     | Raise e => Raise e
                     end)
                end)
      by (by rewrite create_results_dir_run, Hrd, Hg, Htruthy).
    split; [rewrite Hstep; by destruct (w_makedirs w rd true)|].
    split.
    + rewrite main_fs_calls.
      destruct (outcome (set_experiment_seed w config)); [by right|by left].
    + intros Hok.
      assert (Hdone : only [TMakedirs; TCopy] (trace (main w experiment config))
                = [EMakedirs rd true;
                   ECopy experiment (path_join rd "config.py")]).
      { rewrite main_fs_calls. rewrite main_outcome in Hok.
        destruct (outcome (set_experiment_seed w config)); [|discriminate Hok].
        rewrite Hstep in Hok |- *.
        destruct (w_makedirs w rd true); [reflexivity|discriminate Hok]. }
      split; [exact Hdone|].
      assert (Hcount : ∀ g, g ∈ [TMakedirs; TCopy] →
                count g (trace (main w experiment config))
                = count g (only [TMakedirs; TCopy]
                             (trace (main w experiment config)))).
      { intros g Hg'. unfold count, only. rewrite list_filter_filter.
        f_equal. apply list_filter_iff. intros ev. split.
        - intros Hev. split; [exact Hev|].
          apply list_elem_of_singleton in Hev. by rewrite Hev.
        - by intros [Hev _]. }
      rewrite !Hcount, Hdone by repeat constructor.
      split; reflexivity.
Qed.

(** On the sample configuration the step creates
    [./experiments/Replica/room0_0] and copies the experiment file to
    [config.py] in it; resumed from a checkpoint it does neither. *)
Lemma results_dir_step_witness :
  only [TMakedirs; TCopy]
    (trace (main calm_world "configs/replica.py" sample_config))
  = [EMakedirs "./experiments/Replica/room0_0" true;
     ECopy "configs/replica.py" "./experiments/Replica/room0_0/config.py"]
  ∧ only [TMakedirs; TCopy]
      (trace (main calm_world "configs/replica.py" sample_config_resumed))
    = [].
Proof.
  destruct (results_dir_step calm_world "configs/replica.py" sample_config
              (VBool false) ltac:(vm_compute; reflexivity)) as [_ Hfresh].
  destruct (Hfresh eq_refl "./experiments/Replica/room0_0"
              ltac:(vm_compute; reflexivity)) as (_ & _ & Hdone).
  destruct (Hdone ltac:(vm_compute; reflexivity)) as (Hcalls & _).
  destruct (results_dir_step calm_world "configs/replica.py"
              sample_config_resumed (VBool true)
              ltac:(vm_compute; reflexivity)) as [Hresumed _].
  destruct (Hresumed eq_refl) as (_ & Hnone).
  split; [exact Hcalls|exact Hnone].
Defined.

(** ** The dataset sub-record *)

Lemma default_lookup (d : gmap string value) (key : string) (v : value)
    (k : string) :
  (if negb (has_key d key) then <[key := v]> d else d) !! k =
    match d !! k with
    | Some x => Some x
    | None => if String.eqb k key then Some v else None
    end.
Proof.
  unfold has_key. destruct (d !! key) as [x|] eqn:Hkey; cbn [negb].
  - destruct (d !! k) as [y|] eqn:Hk; [reflexivity|].
    destruct (String.eqb_spec k key) as [->|_]; [congruence|reflexivity].
  - destruct (String.eqb_spec k key) as [->|Hne].
    + by rewrite lookup_insert_eq, Hkey.
    + rewrite lookup_insert_ne by done. by destruct (d !! k).
Qed.

(** The defaults, key by key. *)
Lemma apply_defaults_lookup (dc : gmap string value) (k : string) :
  apply_defaults dc !! k =
    match dc !! k with
    | Some v => Some v
    | None =>
        if String.eqb k "ignore_bad" then Some (VBool false)
        else if String.eqb k "use_train_split" then Some (VBool true)
        else None
    end.
Proof.
  unfold apply_defaults. cbv zeta.
  rewrite default_lookup, default_lookup.
  destruct (dc !! k); [reflexivity|].
  by destruct (String.eqb k "ignore_bad").
Qed.

(** A constructor call of "Load Dataset" carries the defaults and the
    semantics settings, and decides how the phase ends. *)
Lemma dataset_init_in_load_dataset (w : world) (device : value)
    (dc : gmap string value) cls cfg basedir sequence kw :
  EDatasetInit cls cfg basedir sequence kw ∈ trace (load_dataset w device dc) →
  ∃ excl,
    semantics_config (apply_defaults dc)
    = Ok (kw_load_semantics kw, kw_num_semantic_classes kw, excl)
    ∧ apply_defaults dc !! "ignore_bad" = Some (kw_ignore_bad kw)
    ∧ apply_defaults dc !! "use_train_split" = Some (kw_use_train_split kw)
    ∧ outcome (load_dataset w device dc)
      = match w_dataset_init w cls cfg basedir sequence kw with
        | Raise e => Raise e
        | Ok n =>
            match apply_defaults dc !! "num_frames" with
            | None => Raise (KeyError "num_frames")
            | Some v =>
                Ok {| l_dataset_config := apply_defaults dc;
                      l_load_semantics := kw_load_semantics kw;
                      l_params_opt_exclude := excl;
                      l_dataset :=
                        {| ds_class := cls; ds_config := cfg;
                           ds_basedir := basedir; ds_sequence := sequence;
                           ds_kwargs := kw; ds_len := n |};
                      l_num_frames :=
                        if py_eq_int v (-1) then VInt (Z.of_nat n) else v |}
            end
        end.
Proof.
  intros Hin.
  assert (Hpre : ∀ pre, Forall (λ ev, tag_of ev = TLoadDatasetConfig) pre →
            EDatasetInit cls cfg basedir sequence kw ∈ pre → False).
  { intros pre Hall Hev. rewrite Forall_forall in Hall.
    specialize (Hall _ Hev). discriminate Hall. }
  destruct (load_dataset_inv w device dc)
    as (pre & Hall & [(Ht & _)|(cls' & cfg' & basedir' & sequence' & kw' & ls
         & nsc & excl & Hsem & Hib & Huts & Hls & Hnsc & _ & _ & Ht & Hout)]);
    rewrite Ht in Hin.
  { by destruct (Hpre pre Hall). }
  apply elem_of_app in Hin as [Hin|Hin]; [by destruct (Hpre pre Hall)|].
  apply list_elem_of_singleton in Hin. injection Hin as -> -> -> -> ->.
  exists excl. subst ls nsc. by repeat split.
Qed.

(** A constructor call of the script is made by "Load Dataset". *)
Lemma dataset_init_in_main (w : world) (experiment : string)
    (config : gmap string value) cls cfg basedir sequence kw :
  EDatasetInit cls cfg basedir sequence kw
    ∈ trace (main w experiment config) →
  ∃ device results_dir scene_path dc,
    outcome (set_experiment_seed w config) = Ok device
    ∧ outcome (create_results_dir w experiment config) = Ok results_dir
    ∧ resolve_scene_path config = Ok scene_path
    ∧ config !! "data" = Some (VDict dc)
    ∧ EDatasetInit cls cfg basedir sequence kw
        ∈ trace (load_dataset w device dc).
Proof.
  intros Hin.
  assert (Hout : ∀ (gs : list tag) t,
            Forall (λ ev, tag_of ev ∈ gs) t →
            Forall (λ g, g ≠ TDatasetInit) gs →
            EDatasetInit cls cfg basedir sequence kw ∈ t → False).
  { intros gs t Hall Hgs Hev.
    rewrite Forall_forall in Hall. rewrite Forall_forall in Hgs.
    by apply (Hgs _ (Hall _ Hev)). }
  apply elem_of_main_trace in Hin
    as [Hin|[Hin|[Hin|(device & rd & sp & dc & Hseed & Hrd & Hsp & Hdc & Hin)]]].
  - exfalso. eapply Hout; [apply set_experiment_seed_tags| |exact Hin].
    repeat constructor; discriminate.
  - exfalso. eapply Hout; [apply create_results_dir_tags| |exact Hin].
    repeat constructor; discriminate.
  - discriminate Hin.
  - exists device, rd, sp, dc. do 4 (split; [assumption|]).
    destruct Hin as [Hin|(l & _ & [Hin|(params & _ & Hin)])].
    + exact Hin.
    + discriminate Hin.
    + exfalso. eapply Hout; [apply evaluate_tags| |exact Hin].
      repeat constructor; discriminate.
Qed.

(** C8: an absent [ignore_bad] is set to [False] and an absent
    [use_train_split] to [True]; a key that is present keeps its value and
    no other key changes; and every dataset constructor the script calls
    is given the values the sub-record holds after that. *)
Theorem dataset_defaults (w : world) (experiment : string)
    (config dc : gmap string value) :
  (dc !! "ignore_bad" = None →
   apply_defaults dc !! "ignore_bad" = Some (VBool false))
  ∧ (∀ v, dc !! "ignore_bad" = Some v →
          apply_defaults dc !! "ignore_bad" = Some v)
  ∧ (dc !! "use_train_split" = None →
     apply_defaults dc !! "use_train_split" = Some (VBool true))
  ∧ (∀ v, dc !! "use_train_split" = Some v →
          apply_defaults dc !! "use_train_split" = Some v)
  ∧ (∀ k, k ≠ "ignore_bad" → k ≠ "use_train_split" →
          apply_defaults dc !! k = dc !! k)
  ∧ (config !! "data" = Some (VDict dc) →
     ∀ cls cfg basedir sequence kw,
       EDatasetInit cls cfg basedir sequence kw
         ∈ trace (main w experiment config) →
       apply_defaults dc !! "ignore_bad" = Some (kw_ignore_bad kw)
       ∧ apply_defaults dc !! "use_train_split"
         = Some (kw_use_train_split kw)).
Proof.
  split; [|split; [|split; [|split; [|split]]]].
  - intros Hnone. by rewrite apply_defaults_lookup, Hnone.
  - intros v Hv. by rewrite apply_defaults_lookup, Hv.
  - intros Hnone. by rewrite apply_defaults_lookup, Hnone.
  - intros v Hv. by rewrite apply_defaults_lookup, Hv.
  - intros k H1 H2. rewrite apply_defaults_lookup.
    destruct (dc !! k); [reflexivity|].
    apply String.eqb_neq in H1, H2. by rewrite H1, H2.
  - intros Hdata cls cfg basedir sequence kw Hin.
    apply dataset_init_in_main in Hin
      as (device & rd & sp & dc' & _ & _ & _ & Hdc' & Hin).
    rewrite Hdata in Hdc'. injection Hdc' as <-.
    apply dataset_init_in_load_dataset in Hin as (excl & _ & Hib & Huts & _).
    by split.
Qed.

(** The defaults at work on the sample sub-records. *)
Lemma dataset_defaults_witness :
  apply_defaults sample_data !! "ignore_bad" = Some (VBool false)
  ∧ apply_defaults sample_data !! "use_train_split" = Some (VBool true)
  ∧ apply_defaults sample_data_nvs !! "use_train_split" = Some (VBool false)
  ∧ apply_defaults sample_data !! "stride" = sample_data !! "stride".
Proof.
  destruct (dataset_defaults calm_world "configs/replica.py" sample_config
              sample_data) as (Hib & _ & Huts & _ & Hother & _).
  destruct (dataset_defaults calm_world "configs/replica.py" sample_config_nvs
              sample_data_nvs) as (_ & _ & _ & Hkeep & _).
  split; [apply Hib; vm_compute; reflexivity|].
  split; [apply Huts; vm_compute; reflexivity|].
  split; [apply Hkeep; vm_compute; reflexivity|].
  apply Hother; discriminate.
Defined.

(** ** The frame count *)

Lemma apply_defaults_num_frames (dc : gmap string value) :
  apply_defaults dc !! "num_frames" = dc !! "num_frames".
Proof. rewrite apply_defaults_lookup. by destruct (dc !! "num_frames"). Qed.

(** C9: without a [num_frames] key in the dataset sub-record the script
    raises and evaluates nothing; once the dataset is constructed the
    error is the [KeyError] of that key. With the key, the frame count
    handed to the evaluation routine is [len(dataset)] when the value
    equals [-1], and the value itself otherwise. *)
Theorem num_frames_required (w : world) (experiment : string)
    (config dc : gmap string value) :
  config !! "data" = Some (VDict dc) →
  (dc !! "num_frames" = None →
   (∃ e, outcome (main w experiment config) = Raise e)
   ∧ (∀ ev, ev ∈ trace (main w experiment config) →
            tag_of ev ≠ TEval ∧ tag_of ev ≠ TEvalNvs)
   ∧ (∀ cls cfg basedir sequence kw n,
        EDatasetInit cls cfg basedir sequence kw
          ∈ trace (main w experiment config) →
        w_dataset_init w cls cfg basedir sequence kw = Ok n →
        outcome (main w experiment config) = Raise (KeyError "num_frames")))
  ∧ (∀ v, dc !! "num_frames" = Some v →
     ∀ a, EEval a ∈ trace (main w experiment config)
          ∨ EEvalNvs a ∈ trace (main w experiment config) →
          ea_num_frames a
          = if py_eq_int v (-1)
            then VInt (Z.of_nat (ds_len (ea_dataset a))) else v).
Proof.
  intros Hdata.
  assert (Hg : getitem config "data" = Ok (VDict dc))
    by (unfold getitem; by rewrite Hdata).
  split.
  - intros Hnone.
    assert (Hnot : ∀ device l, outcome (load_dataset w device dc) = Ok l →
                               False).
    { intros device l Hl.
      destruct (load_dataset_ok w device dc l Hl)
        as (_ & _ & _ & _ & _ & v & Hv & _).
      rewrite apply_defaults_num_frames, Hnone in Hv. discriminate Hv. }
    split; [|split].
    + rewrite main_outcome, Hg.
      destruct (outcome (set_experiment_seed w config)) as [device|];
        [|eauto].
      destruct (outcome (create_results_dir w experiment config)); [|eauto].
      destruct (resolve_scene_path config); [|eauto].
      destruct (outcome (load_dataset w device dc)) as [l|] eqn:Hl; [|eauto].
      by destruct (Hnot device l Hl).
    + intros ev Hin.
      assert (Hno : tag_of ev = TEval ∨ tag_of ev = TEvalNvs → False).
      { intros Htag.
        destruct (eval_in_main w experiment config ev Hin Htag)
          as (device & rd & sp & dc' & l & params & run & r & _ & _ & Hdc'
              & Hl & _).
        rewrite Hdata in Hdc'. injection Hdc' as <-.
        exact (Hnot device l Hl). }
      split; intros Htag; apply Hno; [by left|by right].
    + intros cls cfg basedir sequence kw n Hin Hinit.
      apply dataset_init_in_main in Hin
        as (device & rd & sp & dc' & Hseed & Hrd & Hsp & Hdc' & Hin).
      rewrite Hdata in Hdc'. injection Hdc' as <-.
      apply dataset_init_in_load_dataset in Hin as (excl & _ & _ & _ & Hout).
      rewrite Hinit, apply_defaults_num_frames, Hnone in Hout.
      by rewrite main_outcome, Hseed, Hrd, Hsp, Hg, Hout.
  - intros v Hv a Hin.
    assert (Hcall : ∃ device l params rd run ev r,
              outcome (load_dataset w device dc) = Ok l
              ∧ (ev = EEval a ∨ ev = EEvalNvs a)
              ∧ evaluation_call w l params rd run ev r).
    { destruct Hin as [Hin|Hin].
      - destruct (eval_in_main w experiment config _ Hin ltac:(by left))
          as (device & rd & sp & dc' & l & params & run & r & _ & _ & Hdc'
              & Hl & _ & Hcall).
        rewrite Hdata in Hdc'. injection Hdc' as <-.
        exists device, l, params, rd, run, (EEval a), r. eauto.
      - destruct (eval_in_main w experiment config _ Hin ltac:(by right))
          as (device & rd & sp & dc' & l & params & run & r & _ & _ & Hdc'
              & Hl & _ & Hcall).
        rewrite Hdata in Hdc'. injection Hdc' as <-.
        exists device, l, params, rd, run, (EEvalNvs a), r. eauto. }
    destruct Hcall as (device & l & params & rd & run & ev & r & Hl & Hev
                       & Hcall).
    destruct (load_dataset_ok w device dc l Hl)
      as (_ & _ & _ & _ & _ & v' & Hv' & Hnum).
    rewrite apply_defaults_num_frames, Hv in Hv'. injection Hv' as <-.
    destruct Hcall as (uts & a' & _ & Hds & _ & Hnf & _ & _ & _
                       & [(_ & Hev' & _)|(_ & Hev' & _)]);
      destruct Hev as [-> | ->]; try discriminate Hev';
      injection Hev' as <-; by rewrite Hnf, Hds.
Qed.

(** On the sample configuration, where [num_frames] is [-1], the frame
    count of every evaluation call is the length of its dataset; without
    the key the script raises. *)
Lemma num_frames_required_witness :
  Forall (λ ev, match ev with
                | EEval a | EEvalNvs a =>
                    ea_num_frames a = VInt (Z.of_nat (ds_len (ea_dataset a)))
                | _ => True
                end)
         (trace (main calm_world "configs/replica.py" sample_config))
  ∧ ∃ e, outcome (main calm_world "configs/replica.py"
                    sample_config_no_frames) = Raise e.
Proof.
  destruct (num_frames_required calm_world "configs/replica.py" sample_config
              sample_data ltac:(vm_compute; reflexivity)) as [_ Hpresent].
  destruct (num_frames_required calm_world "configs/replica.py"
              sample_config_no_frames sample_data_no_frames
              ltac:(vm_compute; reflexivity)) as [Habsent _].
  split.
  - apply Forall_forall. intros ev Hin.
    destruct ev as [| | | | | | | | | | | |a|a|]; try exact I.
    + exact (Hpresent (VInt (-1)) ltac:(vm_compute; reflexivity) a
               (or_introl Hin)).
    + exact (Hpresent (VInt (-1)) ltac:(vm_compute; reflexivity) a
               (or_intror Hin)).
  - exact (proj1 (Habsent ltac:(vm_compute; reflexivity))).
Defined.

(** ** The semantics settings *)

(** What [load_scene_data] returns, key by key. *)
Lemma load_scene_data_ok (w : world) (current : Z) (scene_path : value)
    (exclude : gset string) (device : string) (params : gmap string pval) :
  outcome (load_scene_data w current scene_path exclude device) = Ok params →
  ∃ archive,
    w_np_load w scene_path = Ok archive
    ∧ ∀ k,
        match archive !! k with
        | None => params !! k = None
        | Some a =>
            ∃ d, a_dtype a = Numeric d
              ∧ params !! k
                = Some (PTen {| t_dtype := if bool_decide (k ∉ exclude)
                                           then Float32 else d;
                                t_device := resolve_device current device;
                                t_requires_grad := bool_decide (k ∉ exclude);
                                t_data := if bool_decide (k ∉ exclude)
                                          then map_tdata to_float32 (a_data a)
                                          else a_data a |})
        end.
Proof.
  unfold load_scene_data. rewrite outcome_bind. rewrite outcome_call.
  destruct (w_np_load w scene_path) as [archive|]; [|discriminate].
  rewrite outcome_lift. intros Hloop. exists archive. split; [reflexivity|].
  apply load_scene_loop_ok in Hloop as [Hout Hin];
    [|apply NoDup_fst_map_to_list].
  intros k. destruct (archive !! k) as [a|] eqn:Ha.
  - destruct (Hin k) as (x & t & Hx & Ht & Hres).
    { apply elem_of_keys. rewrite lookup_fmap, Ha. by eexists. }
    rewrite lookup_fmap, Ha in Hx. injection Hx as <-.
    apply converted_array in Ht as (_ & d & Hd & ->).
    exists d. by split.
  - rewrite Hout; [by rewrite lookup_fmap, Ha|].
    rewrite elem_of_keys, lookup_fmap, Ha. by intros [? ?].
Qed.

Lemma semantics_config_present (dc : gmap string value) (v : value) :
  dc !! "load_semantics" = Some v →
  semantics_config (apply_defaults dc) =
    match dc !! "num_semantic_classes" with
    | Some n => Ok (v, n, {["semantic_ids"]})
    | None => Raise (KeyError "num_semantic_classes")
    end.
Proof.
  intros Hv. unfold semantics_config, has_key, getitem.
  rewrite !apply_defaults_lookup, Hv. cbn [mbind result_bind].
  destruct (dc !! "num_semantic_classes"); [|reflexivity].
  cbn [mbind result_bind mret result_ret]. by rewrite union_empty_r_L.
Qed.

Lemma semantics_config_absent (dc : gmap string value) :
  dc !! "load_semantics" = None →
  semantics_config (apply_defaults dc) = Ok (VBool false, VInt 0, ∅).
Proof.
  intros Hnone. unfold semantics_config, has_key.
  by rewrite apply_defaults_lookup, Hnone.
Qed.

(** What an evaluation call of the script is given for the semantics
    flag and for the parameters. *)
Lemma eval_semantics_in_main (w : world) (experiment : string)
    (config dc : gmap string value) (a : eval_args) :
  config !! "data" = Some (VDict dc) →
  EEval a ∈ trace (main w experiment config)
  ∨ EEvalNvs a ∈ trace (main w experiment config) →
  ∃ nsc excl,
    semantics_config (apply_defaults dc) = Ok (ea_load_semantics a, nsc, excl)
    ∧ ∀ k x, ea_params a !! k = Some x →
             ∃ t, x = PTen t ∧ t_requires_grad t = bool_decide (k ∉ excl).
Proof.
  intros Hdata Hin.
  assert (Hcall : ∃ device sp l params rd run ev r,
            outcome (load_dataset w device dc) = Ok l
            ∧ outcome (load_scene_data w (current_cuda_device w device) sp (l_params_opt_exclude l) "cuda")
              = Ok params
            ∧ (ev = EEval a ∨ ev = EEvalNvs a)
            ∧ evaluation_call w l params rd run ev r).
  { destruct Hin as [Hin|Hin].
    - destruct (eval_in_main w experiment config _ Hin ltac:(by left))
        as (device & rd & sp & dc' & l & params & run & r & _ & _ & Hdc'
            & Hl & Hp & Hcall).
      rewrite Hdata in Hdc'. injection Hdc' as <-.
      exists device, sp, l, params, rd, run, (EEval a), r. eauto.
    - destruct (eval_in_main w experiment config _ Hin ltac:(by right))
        as (device & rd & sp & dc' & l & params & run & r & _ & _ & Hdc'
            & Hl & Hp & Hcall).
      rewrite Hdata in Hdc'. injection Hdc' as <-.
      exists device, sp, l, params, rd, run, (EEvalNvs a), r. eauto. }
  destruct Hcall as (device & sp & l & params & rd & run & ev & r & Hl & Hp
                     & Hev & Hcall).
  destruct (load_dataset_ok w device dc l Hl) as (_ & Hsem & _).
  destruct (load_scene_data_ok w _ sp _ "cuda" params Hp)
    as (archive & _ & Hk).
  assert (Hargs : ea_load_semantics a = l_load_semantics l
                  ∧ ea_params a = params).
  { destruct Hcall as (uts & a' & _ & _ & Hpar & _ & Hls & _ & _
                       & [(_ & Hev' & _)|(_ & Hev' & _)]);
      destruct Hev as [-> | ->]; try discriminate Hev';
      injection Hev' as <-; by split. }
  destruct Hargs as [Hls Hpar].
  exists (kw_num_semantic_classes (ds_kwargs (l_dataset l))),
    (l_params_opt_exclude l).
  split; [by rewrite Hls|].
  intros k x Hx. rewrite Hpar in Hx. specialize (Hk k).
  destruct (archive !! k) as [arr|]; [|congruence].
  destruct Hk as (d & _ & Hpk). rewrite Hpk in Hx. injection Hx as <-.
  by eexists.
Qed.

(** C10: the semantics settings follow the presence of the
    [load_semantics] key, whatever its value. With the key,
    [num_semantic_classes] is required: without it [semantics_config]
    raises its [KeyError], the script raises and constructs no dataset;
    with it, the constructor and the evaluation routine get the two
    values, and [semantic_ids] is the one parameter that does not track
    gradients. Without the key they get [False] and [0], and every
    parameter tracks gradients. *)
Theorem semantics_keyed_on_presence (w : world) (experiment : string)
    (config dc : gmap string value) :
  config !! "data" = Some (VDict dc) →
  (∀ v, dc !! "load_semantics" = Some v →
     (dc !! "num_semantic_classes" = None →
      semantics_config (apply_defaults dc)
      = Raise (KeyError "num_semantic_classes")
      ∧ (∃ e, outcome (main w experiment config) = Raise e)
      ∧ (∀ ev, ev ∈ trace (main w experiment config) →
               tag_of ev ≠ TDatasetInit))
     ∧ (∀ n, dc !! "num_semantic_classes" = Some n →
        semantics_config (apply_defaults dc) = Ok (v, n, {["semantic_ids"]})
        ∧ (∀ cls cfg basedir sequence kw,
             EDatasetInit cls cfg basedir sequence kw
               ∈ trace (main w experiment config) →
             kw_load_semantics kw = v ∧ kw_num_semantic_classes kw = n)
        ∧ (∀ a, EEval a ∈ trace (main w experiment config)
                ∨ EEvalNvs a ∈ trace (main w experiment config) →
                ea_load_semantics a = v
                ∧ ∀ k x, ea_params a !! k = Some x →
                    ∃ t, x = PTen t
                      ∧ t_requires_grad t
                        = bool_decide (k ≠ "semantic_ids"))))
  ∧ (dc !! "load_semantics" = None →
     semantics_config (apply_defaults dc) = Ok (VBool false, VInt 0, ∅)
     ∧ (∀ cls cfg basedir sequence kw,
          EDatasetInit cls cfg basedir sequence kw
            ∈ trace (main w experiment config) →
          kw_load_semantics kw = VBool false
          ∧ kw_num_semantic_classes kw = VInt 0)
     ∧ (∀ a, EEval a ∈ trace (main w experiment config)
             ∨ EEvalNvs a ∈ trace (main w experiment config) →
             ea_load_semantics a = VBool false
             ∧ ∀ k x, ea_params a !! k = Some x →
                 ∃ t, x = PTen t ∧ t_requires_grad t = true)).
Proof.
  intros Hdata.
  assert (Hg : getitem config "data" = Ok (VDict dc))
    by (unfold getitem; by rewrite Hdata).
  assert (Hinit : ∀ cls cfg basedir sequence kw,
            EDatasetInit cls cfg basedir sequence kw
              ∈ trace (main w experiment config) →
            ∃ excl, semantics_config (apply_defaults dc)
                    = Ok (kw_load_semantics kw, kw_num_semantic_classes kw,
                          excl)).
  { intros cls cfg basedir sequence kw Hin.
    apply dataset_init_in_main in Hin
      as (device & rd & sp & dc' & _ & _ & _ & Hdc' & Hin).
    rewrite Hdata in Hdc'. injection Hdc' as <-.
    apply dataset_init_in_load_dataset in Hin as (excl & Hsem & _).
    by exists excl. }
  split.
  - intros v Hv. pose proof (semantics_config_present dc v Hv) as Hsem.
    split.
    + intros Hnone. rewrite Hnone in Hsem. split; [exact Hsem|]. split.
      * rewrite main_outcome, Hg.
        destruct (outcome (set_experiment_seed w config)) as [device|];
          [|eauto].
        destruct (outcome (create_results_dir w experiment config)); [|eauto].
        destruct (resolve_scene_path config); [|eauto].
        destruct (outcome (load_dataset w device dc)) as [l|] eqn:Hl;
          [|eauto].
        destruct (load_dataset_ok w device dc l Hl) as (_ & Hsem' & _).
        rewrite Hsem in Hsem'. discriminate Hsem'.
      * intros ev Hin Htag.
        destruct ev; try discriminate Htag.
        apply Hinit in Hin as (excl & Hsem').
        rewrite Hsem in Hsem'. discriminate Hsem'.
    + intros n Hn. rewrite Hn in Hsem. split; [exact Hsem|]. split.
      * intros cls cfg basedir sequence kw Hin.
        apply Hinit in Hin as (excl & Hsem').
        rewrite Hsem in Hsem'. by injection Hsem' as -> -> _.
      * intros a Hin.
        destruct (eval_semantics_in_main w experiment config dc a Hdata Hin)
          as (nsc & excl & Hsem' & Hgrad).
        rewrite Hsem in Hsem'. injection Hsem' as -> _ <-.
        split; [reflexivity|].
        intros k x Hx. destruct (Hgrad k x Hx) as (t & -> & Ht).
        exists t. split; [reflexivity|]. rewrite Ht.
        apply bool_decide_ext. by rewrite elem_of_singleton.
  - intros Hnone. pose proof (semantics_config_absent dc Hnone) as Hsem.
    split; [exact Hsem|]. split.
    + intros cls cfg basedir sequence kw Hin.
      apply Hinit in Hin as (excl & Hsem').
      rewrite Hsem in Hsem'. by injection Hsem' as -> -> _.
    + intros a Hin.
      destruct (eval_semantics_in_main w experiment config dc a Hdata Hin)
        as (nsc & excl & Hsem' & Hgrad).
      rewrite Hsem in Hsem'. injection Hsem' as -> _ <-.
      split; [reflexivity|].
      intros k x Hx. destruct (Hgrad k x Hx) as (t & -> & Ht).
      exists t. split; [reflexivity|]. rewrite Ht.
      apply bool_decide_eq_true. apply not_elem_of_empty.
Qed.

(** On the sample configuration with [load_semantics] present and
    [False], the constructor still gets the 101 classes and the flag
    [False], and the settings exclude [semantic_ids]; without the key the
    settings are [False], [0] and the empty set. *)
Lemma semantics_keyed_on_presence_witness :
  semantics_config (apply_defaults sample_data_semantics)
  = Ok (VBool false, VInt 101, {["semantic_ids"]})
  ∧ Forall (λ ev, match ev with
                  | EDatasetInit _ _ _ _ kw =>
                      kw_load_semantics kw = VBool false
                      ∧ kw_num_semantic_classes kw = VInt 101
                  | EEval a | EEvalNvs a => ea_load_semantics a = VBool false
                  | _ => True
                  end)
           (trace (main calm_world "configs/replica.py"
                     sample_config_semantics))
  ∧ semantics_config (apply_defaults sample_data)
    = Ok (VBool false, VInt 0, ∅).
Proof.
  destruct (semantics_keyed_on_presence calm_world "configs/replica.py"
              sample_config_semantics sample_data_semantics
              ltac:(vm_compute; reflexivity)) as [Hpresent _].
  destruct (Hpresent (VBool false) ltac:(vm_compute; reflexivity))
    as [_ Hclasses].
  destruct (Hclasses (VInt 101) ltac:(vm_compute; reflexivity))
    as (Hsem & Hinit & Heval).
  destruct (semantics_keyed_on_presence calm_world "configs/replica.py"
              sample_config sample_data
              ltac:(vm_compute; reflexivity)) as [_ Habsent].
  destruct (Habsent ltac:(vm_compute; reflexivity)) as (Hsem0 & _).
  split; [exact Hsem|]. split; [|exact Hsem0].
  apply Forall_forall. intros ev Hin.
  destruct ev as [| | | | | | |cls cfg basedir sequence kw| | | | |a|a|];
    try exact I.
  - exact (Hinit cls cfg basedir sequence kw Hin).
  - exact (proj1 (Heval a (or_introl Hin))).
  - exact (proj1 (Heval a (or_intror Hin))).
Defined.

(* ===================================================================== *)
(** * Further properties                                                  *)
(* ===================================================================== *)

(** ** [filter_semantic_params], edge cases and composition *)

Lemma with_data_same (t : tensor) : with_data t (t_data t) = t.
Proof. by destruct t. Qed.

Lemma kept_rows_absent {A} (ids sids : list Z) (rows : list A) :
  Forall (λ s, s ∉ ids) sids →
  length sids = length rows → kept_rows ids sids rows = rows.
Proof.
  unfold kept_rows. intros Hall. revert rows.
  induction Hall as [|s sids Hs _ IH]; intros [|r rows] Hlen;
    try discriminate Hlen; [reflexivity|].
  injection Hlen as Hlen.
  change (zip (s :: sids) (r :: rows)) with ((s, r) :: zip sids rows).
  rewrite filter_cons_True by exact Hs.
  cbn [fmap list_fmap snd]. f_equal. by apply IH.
Qed.

Lemma kept_rows_map {A} (f : Z → A) (ids sids : list Z) :
  kept_rows ids sids (map f sids) = map f (filter (λ s, s ∉ ids) sids).
Proof.
  unfold kept_rows. induction sids as [|s sids IH]; [reflexivity|].
  change (zip (s :: sids) (map f (s :: sids)))
    with ((s, f s) :: zip sids (map f sids)).
  destruct (decide (s ∉ ids)) as [Hnin|Hin].
  - rewrite !filter_cons_True by done. cbn [fmap list_fmap snd map].
    f_equal. exact IH.
  - rewrite !filter_cons_False by done. exact IH.
Qed.

Lemma kept_rows_kept_rows {A} (ids1 ids2 sids : list Z) (rows : list A) :
  kept_rows ids2 (filter (λ s, s ∉ ids1) sids) (kept_rows ids1 sids rows)
  = kept_rows (ids1 ++ ids2)%list sids rows.
Proof.
  unfold kept_rows. revert rows.
  induction sids as [|s sids IH]; intros [|r rows]; try reflexivity.
  - cbn [zip zip_with]. by destruct (filter (λ s, s ∉ ids1) (s :: sids)).
  - change (zip (s :: sids) (r :: rows)) with ((s, r) :: zip sids rows).
    destruct (decide (s ∈ ids1)) as [Hin1|Hnin1].
    + rewrite (filter_cons_False (λ s, s ∉ ids1)) by tauto.
      rewrite (filter_cons_False (λ p : Z * A, p.1 ∉ ids1)) by (cbn; tauto).
      rewrite (filter_cons_False (λ p : Z * A, p.1 ∉ (ids1 ++ ids2)%list))
        by (cbn; rewrite elem_of_app; tauto).
      apply IH.
    + rewrite (filter_cons_True (λ s, s ∉ ids1)) by done.
      rewrite (filter_cons_True (λ p : Z * A, p.1 ∉ ids1)) by done.
      cbn [fmap list_fmap snd].
      change (zip (s :: filter (λ s, s ∉ ids1) sids)
                  (r :: (filter (λ p : Z * A, p.1 ∉ ids1) (zip sids rows)).*2))
        with ((s, r) :: zip (filter (λ s, s ∉ ids1) sids)
                  ((filter (λ p : Z * A, p.1 ∉ ids1) (zip sids rows)).*2)).
      destruct (decide (s ∈ ids2)) as [Hin2|Hnin2].
      * rewrite (filter_cons_False (λ p : Z * A, p.1 ∉ ids2)) by (cbn; tauto).
        rewrite (filter_cons_False (λ p : Z * A, p.1 ∉ (ids1 ++ ids2)%list))
          by (cbn; rewrite elem_of_app; tauto).
        apply IH.
      * rewrite (filter_cons_True (λ p : Z * A, p.1 ∉ ids2)) by done.
        rewrite (filter_cons_True (λ p : Z * A, p.1 ∉ (ids1 ++ ids2)%list))
          by (cbn; rewrite elem_of_app; tauto).
        cbn [fmap list_fmap snd]. f_equal. apply IH.
Qed.

Lemma filtered_lookup (ids sids : list Z) (params : gmap string tensor)
    (k : string) :
  filtered ids sids params !! k =
    (λ t, if bool_decide (k ∈ camera_keys) then t else masked ids sids t)
      <$> params !! k.
Proof.
  unfold filtered. rewrite map_lookup_imap.
  by destruct (params !! k).
Qed.

(** On aligned parameters with one id per row, for ids the dtype holds
    and a mask that can index the tensors, the function returns the
    mapping [filtered]. *)
Lemma filter_semantic_params_filtered (params : gmap string tensor)
    (ids sids : list Z) (sem : tensor) :
  params !! "semantic_ids" = Some sem →
  t_data sem = column sids →
  aligned (length sids) params →
  usable (t_device sem) params →
  held_by (t_dtype sem) ids →
  filter_semantic_params params ids = Some (Ok (filtered ids sids params)).
Proof.
  intros Hsem Hdata Haligned Husable Hheld.
  set (mask := map negb (map (λ s, bool_decide (s ∈ ids)) sids)).
  set (keys := filter (λ k, negb (str_in k ["cam_unnorm_rots"; "cam_trans"]))
                 (map_to_list params).*1).
  set (dev := t_device sem).
  assert (Hlen : length mask = length sids)
    by (unfold mask; by rewrite !length_map).
  assert (Hnd : NoDup keys)
    by (apply NoDup_filter, NoDup_fst_map_to_list).
  assert (Hrun : filter_semantic_params params ids
                 = Some (filter_loop dev mask keys params)).
  { unfold filter_semantic_params.
    rewrite Hsem, Hdata, to_remove_mask_column by exact Hheld. reflexivity. }
  destruct (filter_loop_total dev mask keys params Hnd) as [params' Hloop].
  { intros k Hk. apply elem_of_filter_keys in Hk as [Hcam [t Ht]].
    destruct (index_mask_rows dev mask t) as (trail & rows & _ & Hmask).
    { by apply (Husable k). }
    { rewrite Hlen. by apply (Haligned k). }
    eauto. }
  rewrite Hrun, Hloop. do 2 f_equal.
  destruct (filter_loop_ok dev mask keys params params' Hnd Hloop)
    as [Hout Hin].
  apply map_eq. intros k. rewrite filtered_lookup.
  destruct (decide (k ∈ camera_keys)) as [Hcam|Hcam].
  - rewrite bool_decide_eq_true_2 by done.
    rewrite Hout.
    + by destruct (params !! k).
    + intros Hk. apply elem_of_filter_keys in Hk as [Hk _]. contradiction.
  - rewrite bool_decide_eq_false_2 by done.
    destruct (params !! k) as [t|] eqn:Ht.
    + destruct (Hin k) as (t1 & t1' & Ht1 & Hmask1 & Hres).
      { apply elem_of_filter_keys. split; [done|by eexists]. }
      rewrite Ht in Ht1. injection Ht1 as <-.
      destruct (index_mask_rows dev mask t) as (trail & rows & Hrows & Hmask).
      { by apply (Husable k). }
      { rewrite Hlen. by apply (Haligned k). }
      rewrite Hmask in Hmask1. injection Hmask1 as <-.
      rewrite Hres. cbn [fmap option_fmap option_map]. f_equal.
      unfold masked. rewrite Hrows. unfold mask.
      by rewrite select_kept_rows.
    + rewrite Hout; [by rewrite Ht|].
      intros Hk. apply elem_of_filter_keys in Hk as [_ [t Ht']]. congruence.
Qed.

Lemma masked_absent (ids sids : list Z) (t : tensor) :
  Forall (λ s, s ∉ ids) sids →
  num_rows (t_data t) = Some (length sids) → masked ids sids t = t.
Proof.
  intros Hall. unfold masked.
  destruct (t_data t) as [x|trail rows] eqn:Hdata; [done|].
  intros [= Hlen].
  rewrite kept_rows_absent by done. rewrite <- Hdata. apply with_data_same.
Qed.

Lemma masked_masked (ids1 ids2 sids : list Z) (t : tensor) :
  masked ids2 (filter (λ s, s ∉ ids1) sids) (masked ids1 sids t)
  = masked (ids1 ++ ids2)%list sids t.
Proof.
  unfold masked. destruct (t_data t) as [x|trail rows] eqn:Hdata.
  - by rewrite Hdata.
  - cbn [with_data t_data]. unfold with_data; cbn.
    by rewrite kept_rows_kept_rows.
Qed.

Lemma masked_attributes (ids sids : list Z) (t : tensor) :
  t_device (masked ids sids t) = t_device t
  ∧ t_dtype (masked ids sids t) = t_dtype t.
Proof. unfold masked. by destruct (t_data t). Qed.

Lemma filtered_absent (ids sids : list Z) (params : gmap string tensor) :
  Forall (λ s, s ∉ ids) sids →
  aligned (length sids) params → filtered ids sids params = params.
Proof.
  intros Hall Haligned. apply map_eq. intros k. rewrite filtered_lookup.
  destruct (params !! k) as [t|] eqn:Ht; [|reflexivity].
  cbn [fmap option_fmap option_map]. f_equal.
  destruct (decide (k ∈ camera_keys)) as [Hcam|Hcam].
  - by rewrite bool_decide_eq_true_2.
  - rewrite bool_decide_eq_false_2 by done.
    apply masked_absent; [exact Hall|]. by apply (Haligned k).
Qed.

Lemma Forall_not_in_nil (sids : list Z) : Forall (λ s, s ∉ []) sids.
Proof. apply Forall_forall. intros s _. apply not_elem_of_nil. Qed.

Lemma filtered_filtered (ids1 ids2 sids : list Z)
    (params : gmap string tensor) :
  filtered ids2 (filter (λ s, s ∉ ids1) sids) (filtered ids1 sids params)
  = filtered (ids1 ++ ids2)%list sids params.
Proof.
  apply map_eq. intros k. rewrite !filtered_lookup.
  destruct (params !! k) as [t|]; [|reflexivity].
  cbn [fmap option_fmap option_map]. f_equal.
  destruct (bool_decide (k ∈ camera_keys)); [reflexivity|].
  apply masked_masked.
Qed.

Lemma semantic_ids_not_camera : "semantic_ids" ∉ camera_keys.
Proof.
  unfold camera_keys. rewrite !elem_of_cons, elem_of_nil.
  intros [H|[H|[]]]; discriminate H.
Qed.

Lemma filtered_semantic_ids (ids sids : list Z)
    (params : gmap string tensor) (sem : tensor) :
  params !! "semantic_ids" = Some sem →
  t_data sem = column sids →
  ∃ sem', filtered ids sids params !! "semantic_ids" = Some sem'
          ∧ t_data sem' = column (filter (λ s, s ∉ ids) sids)
          ∧ t_device sem' = t_device sem
          ∧ t_dtype sem' = t_dtype sem.
Proof.
  intros Hsem Hdata. exists (masked ids sids sem). split; [|split].
  - rewrite filtered_lookup, Hsem.
    by rewrite (bool_decide_eq_false_2 _ semantic_ids_not_camera).
  - unfold masked. rewrite Hdata. unfold column. cbn [with_data t_data].
    by rewrite kept_rows_map.
  - apply masked_attributes.
Qed.

Lemma filtered_aligned (ids sids : list Z) (params : gmap string tensor) :
  aligned (length sids) params →
  aligned (length (filter (λ s, s ∉ ids) sids)) (filtered ids sids params).
Proof.
  intros Haligned k t' Hk Hcam. rewrite filtered_lookup in Hk.
  destruct (params !! k) as [t|] eqn:Ht; [|discriminate Hk].
  cbn in Hk. rewrite bool_decide_eq_false_2 in Hk by done.
  injection Hk as <-.
  specialize (Haligned k t Ht Hcam).
  unfold masked. destruct (t_data t) as [x|trail rows]; [done|].
  injection Haligned as Hlen. cbn [with_data t_data num_rows].
  by rewrite kept_rows_length.
Qed.

Lemma filtered_usable (dev : string) (ids sids : list Z)
    (params : gmap string tensor) :
  usable dev params → usable dev (filtered ids sids params).
Proof.
  intros Husable k t' Hk Hcam. rewrite filtered_lookup in Hk.
  destruct (params !! k) as [t|] eqn:Ht; [|discriminate Hk].
  cbn in Hk. rewrite bool_decide_eq_false_2 in Hk by done.
  injection Hk as <-.
  rewrite (proj1 (masked_attributes ids sids t)). by apply (Husable k).
Qed.

(** Checks of [aligned] and [usable] that run. *)
Lemma aligned_check (n : nat) (params : gmap string tensor) :
  forallb (λ p, bool_decide (p.1 ∈ camera_keys)
                || bool_decide (num_rows (t_data p.2) = Some n))
          (map_to_list params) = true →
  aligned n params.
Proof.
  intros Hall k t Hk Hcam. rewrite forallb_forall in Hall.
  apply elem_of_map_to_list, list_elem_of_In in Hk.
  specialize (Hall _ Hk). cbn in Hall.
  rewrite bool_decide_eq_false_2 in Hall by done.
  by apply bool_decide_eq_true in Hall.
Qed.

Lemma usable_check (dev : string) (params : gmap string tensor) :
  forallb (λ p, bool_decide (p.1 ∈ camera_keys)
                || mask_usable dev (t_device p.2))
          (map_to_list params) = true →
  usable dev params.
Proof.
  intros Hall k t Hk Hcam. rewrite forallb_forall in Hall.
  apply elem_of_map_to_list, list_elem_of_In in Hk.
  specialize (Hall _ Hk). cbn in Hall.
  by rewrite bool_decide_eq_false_2 in Hall by done.
Qed.

Lemma index_mask_raises (dev : string) (mask : list bool) (t : tensor)
    (e : exn) :
  mask_usable dev (t_device t) = true →
  index_mask dev mask t = Raise e → e = IndexError.
Proof.
  intros Hdev. unfold index_mask. rewrite Hdev.
  destruct (t_data t) as [x|trail rows].
  - by intros [= <-].
  - cbn [negb].
    destruct (length rows =? length mask)%nat; [done|by intros [= <-]].
Qed.

(** The loop stops with [IndexError] as soon as one tensor does not fit
    the mask, when the mask can index every tensor it visits. *)
Lemma filter_loop_raises (dev : string) (mask : list bool)
    (keys : list string) :
  ∀ params : gmap string tensor,
    NoDup keys →
    (∀ k, k ∈ keys → ∃ t, params !! k = Some t
                          ∧ mask_usable dev (t_device t) = true) →
    (∃ k t, k ∈ keys ∧ params !! k = Some t
            ∧ index_mask dev mask t = Raise IndexError) →
    filter_loop dev mask keys params = Raise IndexError.
Proof.
  induction keys as [|k0 keys IH];
    intros params Hnd Hall (k & t & Hk & Ht & Hraise).
  - by apply elem_of_nil in Hk.
  - apply NoDup_cons in Hnd as [Hk0 Hnd].
    cbn [filter_loop].
    destruct (Hall k0) as (t0 & Ht0 & Hdev0); [apply elem_of_cons; by left|].
    rewrite Ht0.
    destruct (index_mask dev mask t0) as [t0'|e] eqn:Hm0.
    + cbn. apply IH; [done| |].
      * intros k' Hk'. rewrite lookup_insert_ne by (intros ->; contradiction).
        apply Hall, elem_of_cons. by right.
      * apply elem_of_cons in Hk as [->|Hk]; [congruence|].
        exists k, t. split; [done|]. split; [|done].
        rewrite lookup_insert_ne by (intros ->; contradiction). done.
    + cbn. by rewrite (index_mask_raises _ _ _ _ Hdev0 Hm0).
Qed.

Lemma filter_keys_usable (dev : string) (params : gmap string tensor)
    (k : string) :
  usable dev params →
  k ∈ filter (λ k, negb (str_in k ["cam_unnorm_rots"; "cam_trans"]))
        ((map_to_list params).*1) →
  ∃ t, params !! k = Some t ∧ mask_usable dev (t_device t) = true.
Proof.
  intros Husable Hk. apply elem_of_filter_keys in Hk as [Hcam [t Ht]].
  exists t. split; [exact Ht|]. by apply (Husable k).
Qed.

(** X1. Removing ids that no element has changes nothing: when every
    per-element tensor has one row per semantic id and can be indexed by
    the mask, and the ids of [to_remove_ids] are values of the dtype of
    [semantic_ids] none of which occurs, [filter_semantic_params] returns
    the parameters as they were. An empty [to_remove_ids] is the first
    such case. *)
Theorem filter_semantic_params_absent_ids (params : gmap string tensor)
    (ids sids : list Z) (sem : tensor) :
  params !! "semantic_ids" = Some sem →
  t_data sem = column sids →
  aligned (length sids) params →
  usable (t_device sem) params →
  held_by (t_dtype sem) ids →
  Forall (λ s, s ∉ ids) sids →
  filter_semantic_params params ids = Some (Ok params).
Proof.
  intros Hsem Hdata Haligned Husable Hheld Hall.
  rewrite (filter_semantic_params_filtered params ids sids sem) by done.
  by rewrite filtered_absent.
Qed.

Lemma sample_params_aligned : aligned 4 sample_params.
Proof. apply aligned_check. vm_compute. reflexivity. Qed.

Lemma sample_params_usable : usable "cuda:0" sample_params.
Proof. apply usable_check. vm_compute. reflexivity. Qed.

Lemma filter_semantic_params_absent_ids_witness :
  filter_semantic_params sample_params [] = Some (Ok sample_params)
  ∧ filter_semantic_params sample_params [14; 3] = Some (Ok sample_params).
Proof.
  split.
  - apply (filter_semantic_params_absent_ids sample_params [] [0; 1; 2; 0]
             sample_semantic_ids).
    + vm_compute; reflexivity.
    + reflexivity.
    + exact sample_params_aligned.
    + exact sample_params_usable.
    + constructor.
    + apply Forall_not_in_nil.
  - apply (filter_semantic_params_absent_ids sample_params [14; 3]
             [0; 1; 2; 0] sample_semantic_ids).
    + vm_compute; reflexivity.
    + reflexivity.
    + exact sample_params_aligned.
    + exact sample_params_usable.
    + repeat constructor.
    + repeat constructor; intros H;
        repeat (apply elem_of_cons in H as [H|H]; [discriminate H|]);
        by apply elem_of_nil in H.
Defined.

(** X2. Filtering composes, for ids that are values of the dtype of
    [semantic_ids]: removing the ids [ids1] and then the ids [ids2] from
    the result gives what removing [ids1 ++ ids2] at once gives, and
    removing [ids1] a second time changes nothing. *)
Theorem filter_semantic_params_twice (params : gmap string tensor)
    (ids1 ids2 sids : list Z) (sem : tensor) :
  params !! "semantic_ids" = Some sem →
  t_data sem = column sids →
  aligned (length sids) params →
  usable (t_device sem) params →
  held_by (t_dtype sem) ids1 →
  held_by (t_dtype sem) ids2 →
  ∃ params1,
    filter_semantic_params params ids1 = Some (Ok params1)
    ∧ filter_semantic_params params1 ids2
      = filter_semantic_params params (ids1 ++ ids2)%list
    ∧ filter_semantic_params params1 ids1 = Some (Ok params1).
Proof.
  intros Hsem Hdata Haligned Husable Hheld1 Hheld2.
  exists (filtered ids1 sids params).
  destruct (filtered_semantic_ids ids1 sids params sem Hsem Hdata)
    as (sem1 & Hsem1 & Hdata1 & Hdev1 & Hdt1).
  pose proof (filtered_aligned ids1 sids params Haligned) as Haligned1.
  pose proof (filtered_usable _ ids1 sids params Husable) as Husable1.
  rewrite <- Hdev1 in Husable1. rewrite <- Hdt1 in Hheld1, Hheld2.
  assert (Hheld12 : held_by (t_dtype sem) (ids1 ++ ids2)%list).
  { rewrite <- Hdt1. by apply Forall_app. }
  split.
  { apply (filter_semantic_params_filtered _ _ _ sem); try done.
    by rewrite <- Hdt1. }
  split.
  - rewrite (filter_semantic_params_filtered _ ids2 _ sem1 Hsem1 Hdata1
               Haligned1 Husable1 Hheld2).
    rewrite (filter_semantic_params_filtered _ (ids1 ++ ids2)%list _ sem
               Hsem Hdata Haligned Husable Hheld12).
    by rewrite filtered_filtered.
  - rewrite (filter_semantic_params_filtered _ ids1 _ sem1 Hsem1 Hdata1
               Haligned1 Husable1 Hheld1).
    do 2 f_equal.
    rewrite <- (filtered_absent [] (filter (λ s, s ∉ ids1) sids)
                  (filtered ids1 sids params)) at 2
      by (try apply Forall_not_in_nil; done).
    rewrite !filtered_filtered.
    apply map_eq. intros k. rewrite !filtered_lookup.
    destruct (params !! k) as [t|]; [|reflexivity].
    cbn [fmap option_fmap option_map]. f_equal.
    destruct (bool_decide (k ∈ camera_keys)); [reflexivity|].
    unfold masked. destruct (t_data t) as [x|trail rows]; [reflexivity|].
    do 2 f_equal. unfold kept_rows. f_equal.
    apply list_filter_iff. intros [s r]. cbn.
    rewrite app_nil_r, elem_of_app. tauto.
Qed.

Lemma filter_semantic_params_twice_witness :
  ∃ params1,
    filter_semantic_params sample_params [0] = Some (Ok params1)
    ∧ filter_semantic_params params1 [2]
      = filter_semantic_params sample_params ([0] ++ [2])%list
    ∧ filter_semantic_params params1 [0] = Some (Ok params1).
Proof.
  apply (filter_semantic_params_twice sample_params [0] [2] [0; 1; 2; 0]
           sample_semantic_ids).
  - vm_compute; reflexivity.
  - reflexivity.
  - exact sample_params_aligned.
  - exact sample_params_usable.
  - repeat constructor.
  - repeat constructor.
Defined.

(** X3. A tensor other than the two camera poses whose first dimension
    is not the number of semantic ids makes [filter_semantic_params]
    raise [IndexError], for every list of ids that are values of the
    dtype of [semantic_ids], when the mask can index the tensors: nothing
    is returned. *)
Theorem filter_semantic_params_misaligned (params : gmap string tensor)
    (ids sids : list Z) (sem : tensor) (k : string) (t : tensor) :
  params !! "semantic_ids" = Some sem →
  t_data sem = column sids →
  usable (t_device sem) params →
  held_by (t_dtype sem) ids →
  params !! k = Some t →
  k ∉ camera_keys →
  num_rows (t_data t) ≠ Some (length sids) →
  filter_semantic_params params ids = Some (Raise IndexError).
Proof.
  intros Hsem Hdata Husable Hheld Hk Hcam Hrows.
  unfold filter_semantic_params.
  rewrite Hsem, Hdata, to_remove_mask_column by exact Hheld.
  cbv zeta. f_equal.
  apply filter_loop_raises.
  - apply NoDup_filter, NoDup_fst_map_to_list.
  - intros k' Hk'. by apply filter_keys_usable.
  - exists k, t. split; [|split; [done|]].
    + apply elem_of_filter_keys. split; [done|by eexists].
    + unfold index_mask. rewrite (Husable k t Hk Hcam). cbn [negb].
      destruct (t_data t) as [x|trail rows]; [done|].
      rewrite !length_map.
      destruct (length rows =? length sids)%nat eqn:Heq; [|done].
      apply Nat.eqb_eq in Heq. cbn in Hrows. congruence.
Qed.

Lemma filter_semantic_params_misaligned_witness :
  filter_semantic_params sample_params_misaligned [1] = Some (Raise IndexError).
Proof.
  apply (filter_semantic_params_misaligned sample_params_misaligned [1]
           [0; 1; 2; 0] sample_semantic_ids
           "intrinsics"
           {| t_dtype := Float32; t_device := "cuda:0";
              t_requires_grad := true;
              t_data := Rows [3%nat]
                          (ints [[1; 0; 0]; [0; 1; 0]; [0; 0; 1]]) |}).
  - vm_compute; reflexivity.
  - reflexivity.
  - apply usable_check. vm_compute. reflexivity.
  - repeat constructor.
  - vm_compute; reflexivity.
  - unfold camera_keys. rewrite !elem_of_cons, elem_of_nil.
    intros [H|[H|[]]]; discriminate H.
  - cbn. discriminate.
Defined.

(** X4. Semantic ids stored as a flat vector of two or more entries
    (shape [(N,)] instead of [(N, 1)]) are never filtered, for ids that
    are values of their dtype and a mask that can index the tensors: the
    comparison either cannot be broadcast, or gives a mask of one entry,
    which does not fit the vector itself. *)
Theorem filter_semantic_params_flat_ids (params : gmap string tensor)
    (ids : list Z) (sem : tensor) (rows : list (list num)) :
  params !! "semantic_ids" = Some sem →
  t_data sem = Rows [] rows →
  (2 ≤ length rows)%nat →
  usable (t_device sem) params →
  held_by (t_dtype sem) ids →
  filter_semantic_params params ids = Some (Raise IndexError)
  ∨ filter_semantic_params params ids
    = Some (Raise (RuntimeError "shapes cannot be broadcast")).
Proof.
  intros Hsem Hdata Hlen Husable Hheld.
  unfold filter_semantic_params. rewrite Hsem, Hdata.
  unfold to_remove_mask. rewrite (convert_ids_representable _ _ Hheld).
  destruct (broadcast_ok (length rows) (length (map Fin ids)));
    [left|by right].
  cbv zeta. f_equal.
  apply filter_loop_raises.
  - apply NoDup_filter, NoDup_fst_map_to_list.
  - intros k' Hk'. by apply filter_keys_usable.
  - exists "semantic_ids", sem. split; [|split; [done|]].
    + apply elem_of_filter_keys.
      split; [exact semantic_ids_not_camera|by eexists].
    + unfold index_mask.
      rewrite (Husable "semantic_ids" sem Hsem semantic_ids_not_camera).
      rewrite Hdata. cbn [map length negb].
      destruct (length rows =? 1)%nat eqn:Heq; [|done].
      apply Nat.eqb_eq in Heq. lia.
Qed.

Lemma filter_semantic_params_flat_ids_witness :
  filter_semantic_params sample_params_flat [1] = Some (Raise IndexError)
  ∨ filter_semantic_params sample_params_flat [1]
    = Some (Raise (RuntimeError "shapes cannot be broadcast")).
Proof.
  apply (filter_semantic_params_flat_ids sample_params_flat [1]
           {| t_dtype := Int64; t_device := "cuda:0";
              t_requires_grad := false;
              t_data := Rows [] (ints [[0]; [1]; [2]; [0]]) |}
           (ints [[0]; [1]; [2]; [0]])).
  - vm_compute; reflexivity.
  - reflexivity.
  - cbn. lia.
  - apply usable_check. vm_compute. reflexivity.
  - repeat constructor.
Defined.

(** ** [load_scene_data], when a value does not convert *)

(** The loop raises as soon as one visited value does not convert, and
    what it raises is what one of the conversions raises. *)
Lemma load_scene_loop_raises (w : world) (current : Z)
    (exclude : gset string)
    (device : string) (P : exn → Prop) (keys : list string) :
  ∀ params : gmap string pval,
    NoDup keys →
    (∀ k, k ∈ keys → is_Some (params !! k)) →
    (∀ k x e, k ∈ keys → params !! k = Some x →
              converted w current exclude device k x = Raise e → P e) →
    (∃ k x e, k ∈ keys ∧ params !! k = Some x
              ∧ converted w current exclude device k x = Raise e) →
    ∃ e, load_scene_loop w current exclude device keys params = Raise e
         ∧ P e.
Proof.
  induction keys as [|k0 keys IH];
    intros params Hnd Hall HP (k & x & e & Hk & Hx & Hraise).
  - by apply elem_of_nil in Hk.
  - apply NoDup_cons in Hnd as [Hk0 Hnd].
    cbn [load_scene_loop]. rewrite load_scene_step_converted.
    destruct (Hall k0) as [x0 Hx0]; [apply elem_of_cons; by left|].
    rewrite Hx0.
    destruct (converted w current exclude device k0 x0) as [t0|e0] eqn:Hc0.
    + cbn. apply IH; [done| | |].
      * intros k' Hk'. rewrite lookup_insert_ne by (intros ->; contradiction).
        apply Hall, elem_of_cons. by right.
      * intros k' x' e' Hk' Hx' He'.
        rewrite lookup_insert_ne in Hx' by (intros ->; contradiction).
        apply (HP k' x' e'); [apply elem_of_cons; by right|done..].
      * apply elem_of_cons in Hk as [->|Hk]; [congruence|].
        exists k, x, e. split; [done|]. split; [|done].
        rewrite lookup_insert_ne by (intros ->; contradiction). done.
    + cbn. exists e0. split; [reflexivity|].
      apply (HP k0 x0 e0); [apply elem_of_cons; by left|done..].
Qed.

Lemma converted_unsupported (w : world) (current : Z)
    (exclude : gset string) (device : string) (k : string) (a : ndarray) :
  a_dtype a = Unsupported →
  converted w current exclude device k (PArr a) = Raise TypeError.
Proof.
  intros Hd. unfold converted, torch_tensor. rewrite Hd.
  by destruct (bool_decide (k ∉ exclude)).
Qed.

Lemma converted_array_raises (w : world) (current : Z)
    (exclude : gset string)
    (device : string) (k : string) (a : ndarray) (e : exn) :
  converted w current exclude device k (PArr a) = Raise e →
  (w_device_available w device = true
   → e = TypeError ∧ a_dtype a = Unsupported)
  ∧ (w_device_available w device = false
     → e = TypeError ∨ ∃ d, a_dtype a = Numeric d).
Proof.
  unfold converted, torch_tensor, to, requires_grad_.
  destruct (a_dtype a) as [d|].
  - destruct (bool_decide (k ∉ exclude)); cbn;
      destruct (w_device_available w device); cbn; try discriminate;
      intros _; (split; [discriminate|]); intros _; right; by exists d.
  - destruct (bool_decide (k ∉ exclude)); cbn; intros [= <-];
      (split; [done|]); intros _; by left.
Qed.

(** X5. An archive that holds one array [torch.tensor] cannot convert
    (strings, objects) is not loaded at all: [load_scene_data] raises
    after the one [np.load] call, with [TypeError] when the device is
    there, and no tensor of the other arrays is returned. *)
Theorem load_scene_data_unsupported (w : world) (current : Z)
    (scene_path : value) (exclude : gset string) (device : string)
    (archive : gmap string ndarray) (k : string) (a : ndarray) :
  w_np_load w scene_path = Ok archive →
  archive !! k = Some a →
  a_dtype a = Unsupported →
  trace (load_scene_data w current scene_path exclude device)
  = [ENpLoad scene_path]
  ∧ ∃ e, outcome (load_scene_data w current scene_path exclude device)
         = Raise e
         ∧ (w_device_available w device = true → e = TypeError).
Proof.
  intros Hload Hk Hd. split; [apply load_scene_data_trace|].
  unfold load_scene_data. rewrite outcome_bind, outcome_call, Hload.
  rewrite outcome_lift.
  apply (load_scene_loop_raises w current exclude device
           (λ e, w_device_available w device = true → e = TypeError)).
  - apply NoDup_fst_map_to_list.
  - intros k' Hk'. by apply elem_of_keys in Hk'.
  - intros k' x e _ Hx He Hdev.
    rewrite lookup_fmap in Hx.
    destruct (archive !! k') as [a'|]; [|discriminate Hx].
    injection Hx as <-.
    by apply (converted_array_raises w current exclude device k' a' e He).
  - exists k, (PArr a), TypeError. split; [|split].
    + apply elem_of_keys. rewrite lookup_fmap, Hk. by eexists.
    + by rewrite lookup_fmap, Hk.
    + by apply converted_unsupported.
Qed.

Lemma load_scene_data_unsupported_witness :
  trace (load_scene_data labels_world 0 (VStr "params.npz") ∅ "cuda")
  = [ENpLoad (VStr "params.npz")]
  ∧ ∃ e, outcome (load_scene_data labels_world 0 (VStr "params.npz") ∅ "cuda")
         = Raise e
         ∧ (w_device_available labels_world "cuda" = true → e = TypeError).
Proof.
  apply (load_scene_data_unsupported labels_world 0 (VStr "params.npz") ∅
           "cuda" sample_archive_labels "class_names"
           {| a_dtype := Unsupported; a_data := Rows [] (ints [[0]; [1]]) |}).
  - reflexivity.
  - vm_compute; reflexivity.
  - reflexivity.
Defined.

(** X6. On a machine without the device, [load_scene_data] returns only
    for an archive without arrays: with one array or more it raises, and
    when it does return the mapping is empty. *)
Theorem load_scene_data_no_device (w : world) (current : Z)
    (scene_path : value) (exclude : gset string) (device : string)
    (archive : gmap string ndarray) :
  w_np_load w scene_path = Ok archive →
  w_device_available w device = false →
  (archive ≠ ∅ →
   ∃ e, outcome (load_scene_data w current scene_path exclude device)
        = Raise e)
  ∧ (∀ params,
       outcome (load_scene_data w current scene_path exclude device)
       = Ok params →
       archive = ∅ ∧ params = ∅).
Proof.
  intros Hload Hdev.
  assert (Hout : outcome (load_scene_data w current scene_path exclude device) =
                 load_scene_loop w current exclude device
                   (map_to_list (PArr <$> archive)).*1 (PArr <$> archive)).
  { unfold load_scene_data. by rewrite outcome_bind, outcome_call, Hload. }
  assert (Hret : ∀ params,
            outcome (load_scene_data w current scene_path exclude device)
            = Ok params →
            archive = ∅).
  { intros params Hok. rewrite Hout in Hok.
    apply load_scene_loop_ok in Hok as [_ Hin];
      [|apply NoDup_fst_map_to_list].
    apply map_empty. intros k.
    destruct (archive !! k) as [a|] eqn:Ha; [|reflexivity].
    destruct (Hin k) as (x & t & Hx & Ht & _).
    { apply elem_of_keys. rewrite lookup_fmap, Ha. by eexists. }
    rewrite lookup_fmap, Ha in Hx. injection Hx as <-.
    apply converted_array in Ht as [Htrue _]. congruence. }
  split.
  - intros Hne.
    destruct (outcome (load_scene_data w current scene_path exclude device))
      as [params|e] eqn:Hres; [|by exists e].
    destruct Hne. by apply (Hret params).
  - intros params Hok. pose proof (Hret params Hok) as ->.
    split; [reflexivity|].
    rewrite Hout in Hok. rewrite fmap_empty, map_to_list_empty in Hok.
    cbn in Hok. by injection Hok as <-.
Qed.

Lemma load_scene_data_no_device_witness :
  (sample_archive ≠ ∅ →
   ∃ e, outcome (load_scene_data cpu_only_world 0 (VStr "params.npz") ∅ "cuda")
        = Raise e)
  ∧ (∀ params,
       outcome (load_scene_data cpu_only_world 0 (VStr "params.npz") ∅ "cuda")
       = Ok params →
       sample_archive = ∅ ∧ params = ∅).
Proof.
  apply (load_scene_data_no_device cpu_only_world 0 (VStr "params.npz") ∅
           "cuda" sample_archive).
  - reflexivity.
  - reflexivity.
Defined.

(** ** [get_dataset], what reaches the constructor *)

Lemma get_dataset_forms (w : world) (config_dict basedir : value)
    (sequence : string) (kw : dataset_kwargs) :
  (∃ e, get_dataset w config_dict basedir sequence kw = raise e)
  ∨ (∃ cls s, subscript config_dict "dataset_name" = Ok (VStr s)
              ∧ get_dataset w config_dict basedir sequence kw
                = construct w cls (ctor_config cls config_dict)
                    basedir sequence kw).
Proof.
  unfold get_dataset.
  destruct (subscript config_dict "dataset_name") as [name|e];
    [|left; by exists e].
  rewrite bind_lift_ok.
  destruct name as [| | | |s|]; try (left; by eexists).
  cbn [str_lower]. rewrite bind_lift_ok.
  repeat match goal with
         | |- context [if ?b then _ else _] =>
             destruct b;
               [match goal with
                | |- context [construct w ?c _ basedir sequence kw = _] =>
                    right; exists c, s; split; reflexivity
                end|]
         end.
  left. by eexists.
Qed.

(** X7. [get_dataset] calls at most one constructor, and only hands
    over: the constructor gets [basedir], [sequence] and the keyword
    arguments unchanged, the config dict unless the class is
    [ScannetPPDataset], and its dataset or its exception is the result. A
    call that raises with no constructor called stopped at the name. *)
Theorem get_dataset_forwards (w : world) (config_dict basedir : value)
    (sequence : string) (kw : dataset_kwargs) :
  (trace (get_dataset w config_dict basedir sequence kw) = []
   ∧ ∃ e, outcome (get_dataset w config_dict basedir sequence kw) = Raise e)
  ∨ (∃ cls,
       trace (get_dataset w config_dict basedir sequence kw)
       = [EDatasetInit cls (ctor_config cls config_dict) basedir sequence kw]
       ∧ outcome (get_dataset w config_dict basedir sequence kw)
         = match w_dataset_init w cls (ctor_config cls config_dict)
                   basedir sequence kw with
           | Ok n => Ok {| ds_class := cls;
                           ds_config := ctor_config cls config_dict;
                           ds_basedir := basedir; ds_sequence := sequence;
                           ds_kwargs := kw; ds_len := n |}
           | Raise e => Raise e
           end).
Proof.
  destruct (get_dataset_forms w config_dict basedir sequence kw)
    as [[e He]|(cls & s & _ & He)]; rewrite He.
  - left. split; [reflexivity|by exists e].
  - right. exists cls. rewrite construct_trace, construct_outcome.
    split; [reflexivity|].
    by destruct (w_dataset_init w cls (ctor_config cls config_dict)
                   basedir sequence kw).
Qed.

(** X8. What [get_dataset] raises before it looks at the name: a config
    that is not a dictionary gives [TypeError], a dictionary without
    [dataset_name] the [KeyError] of that key, a name that is not a
    string [AttributeError]; no constructor is called in any of these. *)
Theorem get_dataset_bad_config (w : world) (config_dict basedir : value)
    (sequence : string) (kw : dataset_kwargs) :
  ((∀ d, config_dict ≠ VDict d) →
   get_dataset w config_dict basedir sequence kw = raise TypeError)
  ∧ (∀ d, config_dict = VDict d →
       (d !! "dataset_name" = None →
        get_dataset w config_dict basedir sequence kw
        = raise (KeyError "dataset_name"))
       ∧ (∀ v, d !! "dataset_name" = Some v → (∀ s, v ≠ VStr s) →
               get_dataset w config_dict basedir sequence kw
               = raise AttributeError)).
Proof.
  split.
  - intros Hnd. unfold get_dataset.
    destruct config_dict as [| | | | |d]; try reflexivity.
    by destruct (Hnd d).
  - intros d ->. split.
    + intros Hnone. unfold get_dataset, subscript, getitem.
      by rewrite Hnone.
    + intros v Hv Hns. unfold get_dataset, subscript, getitem.
      rewrite Hv, bind_lift_ok.
      destruct v as [| | | |s|]; try reflexivity.
      by destruct (Hns s).
Qed.

Lemma get_dataset_bad_config_witness :
  get_dataset calm_world (VStr "replica.yaml") (VStr "./data") "room0"
    sample_kwargs = raise TypeError.
Proof.
  apply (get_dataset_bad_config calm_world (VStr "replica.yaml")
           (VStr "./data") "room0" sample_kwargs).
  intros d H. discriminate H.
Defined.

(** ** "Set Experiment Seed" *)

(** What the step does, call by call. *)
Lemma set_experiment_seed_run (w : world) (config : gmap string value) :
  set_experiment_seed w config =
    match getitem config "seed" with
    | Raise e => ([], Raise e)
    | Ok seed =>
      match w_seed_everything w seed with
      | Raise e => ([ESeedEverything seed], Raise e)
      | Ok _ =>
        match getitem config "primary_device" with
        | Raise e => ([ESeedEverything seed], Raise e)
        | Ok pd =>
          match w_torch_device w pd with
          | Raise e => ([ESeedEverything seed; ETorchDevice pd], Raise e)
          | Ok _ =>
            match pd with
            | VStr s =>
              if startswith "cuda:" s then
                match split_colon_1 s with
                | None =>
                    ([ESeedEverything seed; ETorchDevice pd], Raise IndexError)
                | Some field =>
                  match w_int w field with
                  | Raise e =>
                      ([ESeedEverything seed; ETorchDevice pd], Raise e)
                  | Ok device_id =>
                      ([ESeedEverything seed; ETorchDevice pd;
                        ECudaSetDevice device_id],
                       match w_cuda_set_device w device_id with
                       | Ok _ => Ok pd
                       | Raise e => Raise e
                       end)
                  end
                end
              else ([ESeedEverything seed; ETorchDevice pd], Ok pd)
            | _ => ([ESeedEverything seed; ETorchDevice pd],
                    Raise AttributeError)
            end
          end
        end
      end
    end.
Proof.
  unfold set_experiment_seed.
  destruct (getitem config "seed") as [seed|e]; [|reflexivity].
  cbn -[startswith split_colon_1 getitem].
  destruct (w_seed_everything w seed) as [[]|e]; [|reflexivity].
  destruct (getitem config "primary_device") as [pd|e]; [|reflexivity].
  cbn -[startswith split_colon_1 getitem].
  destruct (w_torch_device w pd) as [[]|e]; [|reflexivity].
  destruct pd as [| | | |s|]; try reflexivity.
  destruct (startswith "cuda:" s); [|reflexivity].
  destruct (split_colon_1 s) as [field|]; [|reflexivity].
  cbn -[startswith split_colon_1 getitem].
  destruct (w_int w field) as [device_id|e]; [|reflexivity].
  destruct (w_cuda_set_device w device_id) as [[]|e]; reflexivity.
Qed.

Lemma startswith_app (p s : string) :
  startswith p s = true → ∃ rest, s = p ++ rest.
Proof.
  revert s. induction p as [|a p IH]; intros s Hs.
  - by exists s.
  - destruct s as [|b s]; [discriminate Hs|]. cbn in Hs.
    apply andb_true_iff in Hs as [Hab Hs].
    apply Ascii.eqb_eq in Hab as ->.
    destruct (IH s Hs) as [rest ->]. by exists rest.
Qed.

(** A string that starts with ["cuda:"] has a second field when split
    at the colons: what follows, up to the next colon. *)
Lemma split_colon_1_cuda (rest : string) :
  split_colon_1 ("cuda:" ++ rest) = Some (cut_colon rest).1.
Proof. reflexivity. Qed.

(** The calls of the seed phase that have a tag of [gs] are the calls of
    the script that have one, when only the seed phase makes such calls. *)
Lemma main_seed_calls (w : world) (experiment : string)
    (config : gmap string value) (gs : list tag) :
  (∀ g, g ∈ gs → g ∈ [TSeedEverything; TTorchDevice; TCudaSetDevice]) →
  only gs (trace (main w experiment config))
  = only gs (trace (set_experiment_seed w config)).
Proof.
  intros Hgs.
  assert (Hnil : ∀ (gs' : list tag) t,
            Forall (λ ev, tag_of ev ∈ gs') t →
            Forall (λ g, g ≠ TSeedEverything ∧ g ≠ TTorchDevice
                         ∧ g ≠ TCudaSetDevice) gs' →
            only gs t = []).
  { intros gs' t Ht Hgs'. eapply only_nil_tags; [exact Ht|].
    intros g Hg Hin. rewrite Forall_forall in Hgs'.
    destruct (Hgs' g Hin) as (H1 & H2 & H3).
    specialize (Hgs g Hg).
    repeat (apply elem_of_cons in Hgs as [Hgs|Hgs]; [contradiction|]).
    by apply elem_of_nil in Hgs. }
  assert (Hone : ∀ ev t, tag_of ev ≠ TSeedEverything →
            tag_of ev ≠ TTorchDevice → tag_of ev ≠ TCudaSetDevice →
            only gs (ev :: t) = only gs t).
  { intros ev t H1 H2 H3. rewrite only_cons.
    destruct (decide (tag_of ev ∈ gs)) as [Hin|]; [|done].
    specialize (Hgs _ Hin).
    repeat (apply elem_of_cons in Hgs as [Hgs|Hgs]; [contradiction|]).
    by apply elem_of_nil in Hgs. }
  rewrite main_trace, only_app.
  rewrite <- (app_nil_r (only gs (trace (set_experiment_seed w config)))) at 2.
  f_equal.
  destruct (outcome (set_experiment_seed w config)) as [device|];
    [|reflexivity].
  rewrite only_app.
  rewrite (Hnil _ _ (create_results_dir_tags w experiment config))
    by (repeat constructor; discriminate).
  destruct (outcome (create_results_dir w experiment config)) as [rd|];
    [|reflexivity].
  destruct (resolve_scene_path config) as [sp|]; [|reflexivity].
  cbn [app]. rewrite Hone by discriminate.
  destruct (getitem config "data") as [[| | | | |dc]|]; try reflexivity.
  rewrite only_app.
  rewrite (Hnil _ _ (load_dataset_tags w device dc))
    by (repeat constructor; discriminate).
  destruct (outcome (load_dataset w device dc)) as [l|]; [|reflexivity].
  cbn [app]. rewrite Hone by discriminate.
  destruct (outcome (load_scene_data w (current_cuda_device w device) sp (l_params_opt_exclude l) "cuda"))
    as [params|]; [|reflexivity].
  apply (Hnil _ _ (evaluate_tags w _ l params rd)).
  repeat constructor; discriminate.
Qed.

Lemma main_seed_returned (w : world) (experiment : string)
    (config : gmap string value) :
  outcome (main w experiment config) = Ok tt →
  ∃ device, outcome (set_experiment_seed w config) = Ok device.
Proof.
  rewrite main_outcome.
  destruct (outcome (set_experiment_seed w config)) as [device|];
    [by exists device|discriminate].
Qed.

(** X9. The CUDA device is selected only for a [primary_device] that
    starts with ["cuda:"]: the id handed to [torch.cuda.set_device] is
    what [int] makes of the text between that colon and the next one.
    The script selects a device at most once, and a run that completes
    selected one exactly when the name starts with ["cuda:"]: a plain
    ["cuda"] or ["cpu"] selects none. *)
Theorem cuda_device_selection (w : world) (experiment : string)
    (config : gmap string value) :
  (∀ id, ECudaSetDevice id ∈ trace (main w experiment config) →
     ∃ rest, config !! "primary_device" = Some (VStr ("cuda:" ++ rest))
             ∧ w_int w (cut_colon rest).1 = Ok id)
  ∧ (count TCudaSetDevice (trace (main w experiment config)) ≤ 1)%nat
  ∧ (outcome (main w experiment config) = Ok tt →
     ∃ s, config !! "primary_device" = Some (VStr s)
          ∧ count TCudaSetDevice (trace (main w experiment config))
            = if startswith "cuda:" s then 1%nat else 0%nat).
Proof.
  assert (Hsub : ∀ g, g ∈ [TCudaSetDevice] →
            g ∈ [TSeedEverything; TTorchDevice; TCudaSetDevice]).
  { intros g Hg. apply list_elem_of_singleton in Hg as ->.
    repeat constructor. }
  pose proof (main_seed_calls w experiment config [TCudaSetDevice] Hsub)
    as Hcalls.
  split; [|split].
  - intros id Hin.
    assert (Hin' : ECudaSetDevice id
                   ∈ only [TCudaSetDevice] (trace (main w experiment config))).
    { apply elem_of_only. split; [by left|exact Hin]. }
    rewrite Hcalls in Hin'. apply elem_of_only in Hin' as [_ Hin'].
    rewrite set_experiment_seed_run in Hin'. unfold getitem in Hin'.
    destruct (config !! "seed") as [seed|];
      [|by apply elem_of_nil in Hin'].
    destruct (w_seed_everything w seed) as [[]|].
    2: { cbn in Hin'. apply list_elem_of_singleton in Hin'. discriminate Hin'. }
    destruct (config !! "primary_device") as [pd|].
    2: { cbn in Hin'. apply list_elem_of_singleton in Hin'. discriminate Hin'. }
    assert (Hno : ECudaSetDevice id ∉ [ESeedEverything seed; ETorchDevice pd]).
    { intros H. repeat (apply elem_of_cons in H as [H|H]; [discriminate H|]).
      by apply elem_of_nil in H. }
    destruct (w_torch_device w pd) as [[]|]; [|by destruct Hno].
    destruct pd as [| | | |s|]; try by destruct Hno.
    destruct (startswith "cuda:" s) eqn:Hstart; [|by destruct Hno].
    apply startswith_app in Hstart as [rest ->].
    rewrite split_colon_1_cuda in Hin'.
    destruct (w_int w (cut_colon rest).1) as [id'|] eqn:Hint;
      [|by destruct Hno].
    exists rest. split; [reflexivity|].
    cbn in Hin'.
    repeat (apply elem_of_cons in Hin' as [Hin'|Hin'];
            [try discriminate Hin'|]).
    + by injection Hin' as ->.
    + by apply elem_of_nil in Hin'.
  - unfold count. rewrite Hcalls, set_experiment_seed_run.
    repeat match goal with
           | |- context [match ?r with Ok _ => _ | Raise _ => _ end] =>
               destruct r
           | |- context [match ?v with VStr _ => _ | _ => _ end] =>
               destruct v
           | |- context [if ?b then _ else _] => destruct b
           | |- context [match ?o with Some _ => _ | None => _ end] =>
               destruct o
           end; vm_compute; lia.
  - intros Hok. destruct (main_seed_returned w experiment config Hok)
      as [device Hdev].
    unfold count. rewrite Hcalls.
    rewrite set_experiment_seed_run in Hdev |- *. unfold getitem in *.
    destruct (config !! "seed") as [seed|]; [|discriminate Hdev].
    destruct (w_seed_everything w seed) as [[]|]; [|discriminate Hdev].
    destruct (config !! "primary_device") as [pd|]; [|discriminate Hdev].
    destruct (w_torch_device w pd) as [[]|]; [|discriminate Hdev].
    destruct pd as [| | | |s|]; try discriminate Hdev.
    exists s. split; [reflexivity|].
    destruct (startswith "cuda:" s); [|reflexivity].
    destruct (split_colon_1 s) as [field|]; [|discriminate Hdev].
    destruct (w_int w field) as [id|]; [|discriminate Hdev].
    reflexivity.
Qed.

(** ** "Load Dataset", the arguments of its calls *)

Lemma getitem_apply_defaults (dc : gmap string value) (k : string)
    (v : value) :
  k ≠ "ignore_bad" → k ≠ "use_train_split" →
  getitem (apply_defaults dc) k = Ok v → dc !! k = Some v.
Proof.
  intros H1 H2. unfold getitem. rewrite apply_defaults_lookup.
  destruct (dc !! k) as [x|]; [by intros [= ->]|].
  destruct (String.eqb_spec k "ignore_bad"); [contradiction|].
  destruct (String.eqb_spec k "use_train_split"); [contradiction|].
  discriminate.
Qed.

Lemma load_dataset_calls (w : world) (device : value)
    (dc : gmap string value) :
  Forall (dataset_call_from w device dc) (trace (load_dataset w device dc)).
Proof.
  set (gradslam :=
    (if negb (has_key dc "gradslam_data_cfg") then
       name ← lift (getitem dc "dataset_name");
       mret (VDict (<["dataset_name" := name]> ∅))
     else
       path ← lift (getitem dc "gradslam_data_cfg");
       call (ELoadDatasetConfig path) (w_load_dataset_config w path)) : M value).
  assert (Hg : Forall (dataset_call_from w device dc) (trace gradslam)
               ∧ ∀ gcfg, outcome gradslam = Ok gcfg →
                   match dc !! "gradslam_data_cfg" with
                   | Some p => w_load_dataset_config w p = Ok gcfg
                   | None => ∃ name, dc !! "dataset_name" = Some name
                               ∧ gcfg = VDict (<["dataset_name" := name]> ∅)
                   end).
  { unfold gradslam, has_key, getitem.
    destruct (dc !! "gradslam_data_cfg") as [p|] eqn:Hp; cbn [negb].
    - rewrite trace_bind_lift, outcome_bind_lift, trace_call, outcome_call.
      split; [|done]. constructor; [exact Hp|constructor].
    - destruct (dc !! "dataset_name") as [name|].
      + rewrite trace_bind_lift, outcome_bind_lift, trace_ret, outcome_ret.
        split; [constructor|]. intros gcfg [= <-]. by exists name.
      + rewrite trace_bind_lift, outcome_bind_lift.
        split; [constructor|]. discriminate. }
  assert (Hld : load_dataset w device dc
    = gradslam ≫= λ gradslam_data_cfg,
      let dataset_config := apply_defaults dc in
      '(load_semantics, num_semantic_classes, params_opt_exclude) ←
        lift (semantics_config dataset_config);
      basedir ← lift (getitem dataset_config "basedir");
      sequence ← lift (getitem dataset_config "sequence");
      sequence ← lift (as_str sequence);
      start ← lift (getitem dataset_config "start");
      end_ ← lift (getitem dataset_config "end");
      stride ← lift (getitem dataset_config "stride");
      desired_height ← lift (getitem dataset_config "desired_image_height");
      desired_width ← lift (getitem dataset_config "desired_image_width");
      ignore_bad ← lift (getitem dataset_config "ignore_bad");
      use_train_split ← lift (getitem dataset_config "use_train_split");
      dataset ← get_dataset w gradslam_data_cfg basedir (basename sequence)
        {| kw_start := start; kw_end := end_; kw_stride := stride;
           kw_desired_height := desired_height;
           kw_desired_width := desired_width;
           kw_device := device; kw_relative_pose := true;
           kw_ignore_bad := ignore_bad;
           kw_use_train_split := use_train_split;
           kw_load_semantics := load_semantics;
           kw_num_semantic_classes := num_semantic_classes |};
      num_frames ← lift (getitem dataset_config "num_frames");
      let num_frames :=
        if py_eq_int num_frames (-1) then VInt (Z.of_nat (ds_len dataset))
        else num_frames in
      mret {| l_dataset_config := dataset_config;
              l_load_semantics := load_semantics;
              l_params_opt_exclude := params_opt_exclude;
              l_dataset := dataset;
              l_num_frames := num_frames |}) by reflexivity.
  rewrite Hld. clear Hld. destruct Hg as [Htrace Hout].
  revert Htrace Hout. generalize gradslam. clear gradslam.
  intros gradslam Htrace Hout. rewrite trace_bind.
  destruct (outcome gradslam) as [gcfg|e]; [|exact Htrace].
  apply Forall_app. split; [exact Htrace|].
  specialize (Hout gcfg eq_refl). cbv zeta.
  rewrite trace_bind_lift.
  destruct (semantics_config (apply_defaults dc)) as [[[ls nsc] excl]|e];
    [|constructor].
  rewrite trace_bind_lift.
  destruct (getitem (apply_defaults dc) "basedir") as [basedir|] eqn:Hbasedir;
    [|constructor].
  rewrite trace_bind_lift.
  destruct (getitem (apply_defaults dc) "sequence") as [sequence|] eqn:Hseq;
    [|constructor].
  rewrite trace_bind_lift.
  destruct sequence as [| | | |s|]; try constructor. cbn [as_str].
  rewrite trace_bind_lift.
  destruct (getitem (apply_defaults dc) "start") as [start|] eqn:Hstart;
    [|constructor].
  rewrite trace_bind_lift.
  destruct (getitem (apply_defaults dc) "end") as [end_|] eqn:Hend;
    [|constructor].
  rewrite trace_bind_lift.
  destruct (getitem (apply_defaults dc) "stride") as [stride|] eqn:Hstride;
    [|constructor].
  rewrite trace_bind_lift.
  destruct (getitem (apply_defaults dc) "desired_image_height")
    as [height|] eqn:Hheight; [|constructor].
  rewrite trace_bind_lift.
  destruct (getitem (apply_defaults dc) "desired_image_width")
    as [width|] eqn:Hwidth; [|constructor].
  rewrite trace_bind_lift.
  destruct (getitem (apply_defaults dc) "ignore_bad") as [ib|];
    [|constructor].
  rewrite trace_bind_lift.
  destruct (getitem (apply_defaults dc) "use_train_split") as [uts|];
    [|constructor].
  apply getitem_apply_defaults in Hbasedir, Hseq, Hstart, Hend, Hstride,
    Hheight, Hwidth; try discriminate.
  rewrite trace_bind.
  match goal with
  | |- context [get_dataset w ?c ?b ?q ?k] =>
      destruct (get_dataset_forms w c b q k) as [[e He]|(cls & n & _ & He)];
        rewrite He
  end.
  { rewrite trace_raise, outcome_raise. constructor. }
  rewrite construct_trace, construct_outcome.
  assert (Hcall : dataset_call_from w device dc
            (EDatasetInit cls (ctor_config cls gcfg) basedir (basename s)
               {| kw_start := start; kw_end := end_; kw_stride := stride;
                  kw_desired_height := height; kw_desired_width := width;
                  kw_device := device; kw_relative_pose := true;
                  kw_ignore_bad := ib; kw_use_train_split := uts;
                  kw_load_semantics := ls;
                  kw_num_semantic_classes := nsc |})).
  { exists gcfg, s. split; [exact Hout|]. split; [reflexivity|].
    split; [exact He|]. by repeat split. }
  match goal with
  | |- context [w_dataset_init w ?a ?b ?c ?d ?e] =>
      destruct (w_dataset_init w a b c d e) as [m|e']
  end; [|by repeat constructor].
  rewrite trace_bind_lift.
  destruct (getitem (apply_defaults dc) "num_frames");
    cbn [app]; by repeat constructor.
Qed.

Lemma ends_with_sep_exists (s : string) :
  ends_with_sep s = true
  → existsb (Ascii.eqb "/") (list_ascii_of_string s) = true.
Proof.
  induction s as [|c s IH]; [discriminate|].
  intros Hs. cbn [list_ascii_of_string existsb].
  destruct s as [|c' s'].
  - cbn in Hs. rewrite Ascii.eqb_sym in Hs. by rewrite Hs.
  - rewrite IH; [apply orb_true_r|exact Hs].
Qed.

(** The name after a trailing separator is empty. *)
Lemma basename_sep (s : string) :
  ends_with_sep s = true → basename s = "".
Proof.
  induction s as [|c s IH]; [discriminate|].
  intros Hs. cbn [basename].
  destruct s as [|c' s'].
  - cbn in Hs. by rewrite Hs.
  - change (ends_with_sep (String c (String c' s')))
      with (ends_with_sep (String c' s')) in Hs.
    rewrite (ends_with_sep_exists _ Hs), (IH Hs).
    by destruct (Ascii.eqb c "/").
Qed.

(** X10. Every dataset constructor the script calls gets the entries of
    the dataset sub-record: [basedir], the last component of [sequence]
    (which has to be a string, and is empty for a [sequence] that ends
    with a separator), [start], [end], [stride], the two image sizes, the
    configured [primary_device] as its device, and [relative_pose=True]. *)
Theorem dataset_arguments (w : world) (experiment : string)
    (config dc : gmap string value) cls cfg basedir sequence kw :
  config !! "data" = Some (VDict dc) →
  EDatasetInit cls cfg basedir sequence kw
    ∈ trace (main w experiment config) →
  dc !! "basedir" = Some basedir
  ∧ (∃ s, dc !! "sequence" = Some (VStr s) ∧ sequence = basename s
          ∧ (ends_with_sep s = true → sequence = ""))
  ∧ dc !! "start" = Some (kw_start kw)
  ∧ dc !! "end" = Some (kw_end kw)
  ∧ dc !! "stride" = Some (kw_stride kw)
  ∧ dc !! "desired_image_height" = Some (kw_desired_height kw)
  ∧ dc !! "desired_image_width" = Some (kw_desired_width kw)
  ∧ config !! "primary_device" = Some (kw_device kw)
  ∧ kw_relative_pose kw = true.
Proof.
  intros Hdata Hin.
  destruct (dataset_init_in_main w experiment config _ _ _ _ _ Hin)
    as (device & rd & sp & dc' & Hseed & _ & _ & Hdc' & Hld).
  rewrite Hdata in Hdc'. injection Hdc' as <-.
  pose proof (load_dataset_calls w device dc) as Hall.
  rewrite Forall_forall in Hall. specialize (Hall _ Hld).
  destruct Hall as (gcfg & s & _ & _ & _ & Hb & Hs & Hseq & H1 & H2 & H3
                    & H4 & H5 & Hdev & Hrel).
  split; [exact Hb|].
  split. { exists s. split; [exact Hs|]. split; [exact Hseq|].
           intros Hsep. rewrite Hseq. by apply basename_sep. }
  do 5 (split; [assumption|]).
  split; [|exact Hrel].
  rewrite Hdev. rewrite set_experiment_seed_run in Hseed.
  unfold getitem in Hseed.
  destruct (config !! "seed") as [seed|]; [|discriminate Hseed].
  destruct (w_seed_everything w seed) as [[]|]; [|discriminate Hseed].
  destruct (config !! "primary_device") as [pd|]; [|discriminate Hseed].
  destruct (w_torch_device w pd) as [[]|]; [|discriminate Hseed].
  destruct pd as [| | | |s'|]; try discriminate Hseed.
  destruct (startswith "cuda:" s'); [|by injection Hseed as <-].
  destruct (split_colon_1 s') as [field|]; [|discriminate Hseed].
  destruct (w_int w field) as [id|]; [|discriminate Hseed].
  unfold outcome in Hseed. cbn [snd] in Hseed.
  destruct (w_cuda_set_device w id) as [[]|]; [|discriminate Hseed].
  by injection Hseed as <-.
Qed.

Lemma dataset_arguments_witness :
  sample_data !! "basedir" = Some (VStr "./data/Replica")
  ∧ (∃ s, sample_data !! "sequence" = Some (VStr s) ∧ "room0" = basename s
          ∧ (ends_with_sep s = true → "room0" = ""))
  ∧ sample_data !! "start" = Some (kw_start sample_replica_kwargs)
  ∧ sample_data !! "end" = Some (kw_end sample_replica_kwargs)
  ∧ sample_data !! "stride" = Some (kw_stride sample_replica_kwargs)
  ∧ sample_data !! "desired_image_height"
    = Some (kw_desired_height sample_replica_kwargs)
  ∧ sample_data !! "desired_image_width"
    = Some (kw_desired_width sample_replica_kwargs)
  ∧ sample_config !! "primary_device"
    = Some (kw_device sample_replica_kwargs)
  ∧ kw_relative_pose sample_replica_kwargs = true.
Proof.
  apply (dataset_arguments calm_world "configs/replica.py" sample_config
           sample_data ReplicaDataset (Some sample_gradslam_cfg)
           (VStr "./data/Replica") "room0" sample_replica_kwargs).
  - vm_compute; reflexivity.
  - apply list_elem_of_lookup. exists 6%nat. vm_compute; reflexivity.
Defined.

(** A call of "Load Dataset" that the script makes. *)
Lemma load_dataset_call_in_main (w : world) (experiment : string)
    (config : gmap string value) (ev : event) :
  ev ∈ trace (main w experiment config) →
  tag_of ev ∈ [TLoadDatasetConfig; TDatasetInit] →
  ∃ device dc,
    outcome (set_experiment_seed w config) = Ok device
    ∧ config !! "data" = Some (VDict dc)
    ∧ ev ∈ trace (load_dataset w device dc).
Proof.
  intros Hin Htag.
  assert (Hout : ∀ (gs : list tag) t,
            Forall (λ ev, tag_of ev ∈ gs) t →
            Forall (λ g, g ≠ TLoadDatasetConfig ∧ g ≠ TDatasetInit) gs →
            ev ∈ t → False).
  { intros gs t Hall Hgs Hev.
    rewrite Forall_forall in Hall. rewrite Forall_forall in Hgs.
    destruct (Hgs _ (Hall _ Hev)) as [H1 H2].
    repeat (apply elem_of_cons in Htag as [Htag|Htag]; [contradiction|]).
    by apply elem_of_nil in Htag. }
  assert (Hne : ∀ ev', tag_of ev' ≠ TLoadDatasetConfig →
            tag_of ev' ≠ TDatasetInit → ev = ev' → False).
  { intros ev' H1 H2 ->.
    repeat (apply elem_of_cons in Htag as [Htag|Htag]; [contradiction|]).
    by apply elem_of_nil in Htag. }
  apply elem_of_main_trace in Hin
    as [Hin|[Hin|[Hin|(device & rd & sp & dc & Hseed & Hrd & Hsp & Hdc & Hin)]]].
  - exfalso. eapply Hout; [apply set_experiment_seed_tags| |exact Hin].
    repeat constructor; discriminate.
  - exfalso. eapply Hout; [apply create_results_dir_tags| |exact Hin].
    repeat constructor; discriminate.
  - exfalso. refine (Hne _ _ _ Hin); discriminate.
  - exists device, dc. do 2 (split; [assumption|]).
    destruct Hin as [Hin|(l & _ & [Hin|(params & _ & Hin)])].
    + exact Hin.
    + exfalso. refine (Hne _ _ _ Hin); discriminate.
    + exfalso. eapply Hout; [apply evaluate_tags| |exact Hin].
      repeat constructor; discriminate.
Qed.

(** X11. Where the dataset's config dict comes from. A dataset config
    file is loaded only from the path under [gradslam_data_cfg], so never
    without that key. With the key, the constructor is the one
    [get_dataset] selects for the loaded file: the [dataset_name] of the
    sub-record plays no part. Without it, the config dict is the
    dictionary with the one entry [dataset_name], and that entry is
    required. *)
Theorem dataset_config_source (w : world) (experiment : string)
    (config dc : gmap string value) :
  config !! "data" = Some (VDict dc) →
  (∀ p, ELoadDatasetConfig p ∈ trace (main w experiment config) →
        dc !! "gradslam_data_cfg" = Some p)
  ∧ (∀ cls cfg basedir sequence kw,
       EDatasetInit cls cfg basedir sequence kw
         ∈ trace (main w experiment config) →
       ∃ gcfg,
         cfg = ctor_config cls gcfg
         ∧ get_dataset w gcfg basedir sequence kw
           = construct w cls cfg basedir sequence kw
         ∧ match dc !! "gradslam_data_cfg" with
           | Some p => w_load_dataset_config w p = Ok gcfg
           | None => ∃ name, dc !! "dataset_name" = Some name
                       ∧ gcfg = VDict (<["dataset_name" := name]> ∅)
           end).
Proof.
  intros Hdata. split.
  - intros p Hin.
    destruct (load_dataset_call_in_main w experiment config _ Hin)
      as (device & dc' & _ & Hdc' & Hld); [repeat constructor|].
    rewrite Hdata in Hdc'. injection Hdc' as <-.
    pose proof (load_dataset_calls w device dc) as Hall.
    rewrite Forall_forall in Hall. exact (Hall _ Hld).
  - intros cls cfg basedir sequence kw Hin.
    destruct (load_dataset_call_in_main w experiment config _ Hin)
      as (device & dc' & _ & Hdc' & Hld); [repeat constructor|].
    rewrite Hdata in Hdc'. injection Hdc' as <-.
    pose proof (load_dataset_calls w device dc) as Hall.
    rewrite Forall_forall in Hall.
    destruct (Hall _ Hld) as (gcfg & s & Hsrc & Hcfg & Hget & _).
    exists gcfg. by repeat split.
Qed.

Lemma dataset_config_source_witness :
  ∃ gcfg,
    Some sample_gradslam_cfg = ctor_config ReplicaDataset gcfg
    ∧ get_dataset calm_world gcfg (VStr "./data/Replica") "room0"
        sample_replica_kwargs
      = construct calm_world ReplicaDataset (Some sample_gradslam_cfg)
          (VStr "./data/Replica") "room0" sample_replica_kwargs
    ∧ match sample_data !! "gradslam_data_cfg" with
      | Some p => w_load_dataset_config calm_world p = Ok gcfg
      | None => ∃ name, sample_data !! "dataset_name" = Some name
                  ∧ gcfg = VDict (<["dataset_name" := name]> ∅)
      end.
Proof.
  apply (dataset_config_source calm_world "configs/replica.py" sample_config
           sample_data ltac:(vm_compute; reflexivity)).
  apply list_elem_of_lookup. exists 6%nat. vm_compute; reflexivity.
Defined.

(** ** The last part of the script, the arguments of its calls *)

Lemma getitem_Some (d : gmap string value) (k : string) (v : value) :
  getitem d k = Ok v ↔ d !! k = Some v.
Proof.
  unfold getitem. destruct (d !! k); split; intros H;
    try discriminate H; by injection H as ->.
Qed.

Lemma getitem2_insert_ne (config : gmap string value) (k k1 k2 : string)
    (v : value) :
  k ≠ k1 → getitem2 (<[k := v]> config) k1 k2 = getitem2 config k1 k2.
Proof.
  intros Hne. unfold getitem2, getitem. by rewrite lookup_insert_ne.
Qed.

Lemma eval_names_ok (config dc : gmap string value) (results_dir : string)
    (eval_dir wandb_name : string) :
  eval_names config dc results_dir = Ok (eval_dir, wandb_name) →
  ∃ uts name,
    dc !! "use_train_split" = Some uts
    ∧ getitem2 config "wandb" "name" = Ok (VStr name)
    ∧ eval_dir = path_join results_dir
                   (if truthy uts then "eval_train" else "eval_nvs")
    ∧ wandb_name = name ++ (if truthy uts then "_Train_Split"
                            else "_NVS_Split").
Proof.
  unfold eval_names, getitem.
  destruct (dc !! "use_train_split") as [uts|]; [|discriminate].
  cbn [mbind result_bind].
  destruct (truthy uts) eqn:Htruthy;
    (destruct (getitem2 config "wandb" "name") as [name|]; [|discriminate]);
    cbn [mbind result_bind];
    (destruct name as [| | | |name|]; try discriminate);
    cbn [str_add mbind result_bind mret result_ret];
    intros [= <- <-]; exists uts, name; by rewrite Htruthy.
Qed.

Lemma init_wandb_calls (w : world) (config : gmap string value)
    (wandb_name : string) :
  Forall (tracking_init_from config wandb_name)
         (trace (init_wandb w config wandb_name)).
Proof.
  unfold init_wandb. run.
  all: repeat constructor; assumption.
Qed.

Lemma dispatch_calls (w : world) (config : gmap string value) (l : loaded)
    (params : gmap string pval) (eval_dir : string)
    (wandb_run : option run_handle) :
  Forall (evaluation_from config wandb_run)
         (trace (dispatch w config l params eval_dir wandb_run)).
Proof.
  unfold dispatch. run.
  all: try (constructor; fail).
  all: constructor; [|constructor].
  all: cbn [evaluation_from ea_sil_thres ea_mapping_iters
            ea_add_new_gaussians ea_eval_every ea_save_frames ea_wandb_run
            ea_wandb_save_qual].
  all: repeat match goal with
              | H : getitem _ _ = Ok _ |- _ => apply getitem_Some in H
              end.
  all: do 5 (split; [done|]).
  all: eexists; (split; [eassumption|]).
  all: match goal with H : truthy _ = _ |- _ => rewrite H end.
  all: try (split; reflexivity).
  all: destruct wandb_run as [r|]; [|discriminate].
  all: match goal with H : the_wandb_run _ = Ok _ |- _ =>
         injection H as <- end.
  all: by eexists _, _.
Qed.

(** Where a call of the last part comes from. *)
Lemma elem_of_evaluate_trace (w : world) (config : gmap string value)
    (l : loaded) (params : gmap string pval) (results_dir : string)
    (ev : event) :
  ev ∈ trace (evaluate w config l params results_dir) →
  ∃ eval_dir wandb_name,
    eval_names config (l_dataset_config l) results_dir
    = Ok (eval_dir, wandb_name)
    ∧ (ev ∈ trace (init_wandb w config wandb_name)
       ∨ ∃ wandb_run,
           outcome (init_wandb w config wandb_name) = Ok wandb_run
           ∧ (ev = ENoGradEnter ∨ ev = ENoGradExit
              ∨ ev ∈ trace (dispatch w config l params eval_dir wandb_run)
              ∨ ev ∈ trace (close_wandb w config wandb_run))).
Proof.
  unfold evaluate. rewrite trace_bind_lift.
  destruct (eval_names config (l_dataset_config l) results_dir)
    as [[eval_dir wandb_name]|]; [|intros H; by apply elem_of_nil in H].
  intros Hin. exists eval_dir, wandb_name. split; [reflexivity|].
  rewrite trace_bind in Hin.
  destruct (outcome (init_wandb w config wandb_name)) as [wandb_run|];
    [|by left].
  apply elem_of_app in Hin as [Hin|Hin]; [by left|].
  right. exists wandb_run. split; [reflexivity|].
  rewrite trace_bind, trace_with_no_grad, outcome_with_no_grad in Hin.
  assert (Hscope : ev ∈ ENoGradEnter
                     :: trace (dispatch w config l params eval_dir wandb_run)
                     ++ [ENoGradExit] →
                   ev = ENoGradEnter ∨ ev = ENoGradExit
                   ∨ ev ∈ trace (dispatch w config l params eval_dir
                                   wandb_run)).
  { intros H. apply elem_of_cons in H as [->|H]; [by left|].
    apply elem_of_app in H as [H|H]; [by right; right|].
    apply list_elem_of_singleton in H as ->. right; by left. }
  destruct (outcome (dispatch w config l params eval_dir wandb_run)).
  - apply elem_of_app in Hin as [Hin|Hin].
    + destruct (Hscope Hin) as [?|[?|?]]; tauto.
    + by do 3 right.
  - destruct (Hscope Hin) as [?|[?|?]]; tauto.
Qed.

(** A call of the last part that the script makes. *)
Lemma evaluate_call_in_main (w : world) (experiment : string)
    (config : gmap string value) (ev : event) :
  ev ∈ trace (main w experiment config) →
  tag_of ev ∈ evaluate_tags_list →
  ∃ device results_dir scene_path dc l params,
    outcome (set_experiment_seed w config) = Ok device
    ∧ outcome (create_results_dir w experiment config) = Ok results_dir
    ∧ resolve_scene_path config = Ok scene_path
    ∧ config !! "data" = Some (VDict dc)
    ∧ outcome (load_dataset w device dc) = Ok l
    ∧ outcome (load_scene_data w (current_cuda_device w device) scene_path (l_params_opt_exclude l) "cuda")
      = Ok params
    ∧ ev ∈ trace (evaluate w (<["data" := VDict (l_dataset_config l)]> config)
                    l params results_dir).
Proof.
  intros Hin Htag.
  pose proof (evaluation_tags_not_setup _ Htag) as Hns.
  assert (Hout : ∀ t, Forall (λ ev, tag_of ev ∈ setup_tags) t →
                      ev ∈ t → False).
  { intros t Hall Hev. rewrite Forall_forall in Hall.
    exact (Hns (Hall _ Hev)). }
  assert (Hne : ∀ ev', tag_of ev' ∈ setup_tags → ev = ev' → False).
  { intros ev' H ->. exact (Hns H). }
  destruct (setup_phase_tags w experiment config) as (Hseed & Hcrd & Hld).
  apply elem_of_main_trace in Hin
    as [Hin|[Hin|[Hin|(device & rd & sp & dc & Hsd & Hrd & Hsp & Hdc & Hin)]]].
  - by destruct (Hout _ Hseed).
  - by destruct (Hout _ Hcrd).
  - exfalso. refine (Hne _ _ Hin). unfold setup_tags. cbn.
    repeat constructor.
  - destruct Hin as [Hin|(l & Hl & [Hin|(params & Hp & Hin)])].
    + by destruct (Hout _ (Hld device dc)).
    + exfalso. refine (Hne _ _ Hin). unfold setup_tags. cbn.
      repeat constructor.
    + exists device, rd, sp, dc, l, params. by repeat split.
Qed.

(** X12. Every tracking run the script opens gets the [project],
    [entity] and [group] of the [wandb] record, the name of that record
    with ["_Train_Split"] or ["_NVS_Split"] appended, by the value of
    [use_train_split] after the defaults, and as its config the whole
    configuration, in which the dataset sub-record holds the defaults
    that were written into it. *)
Theorem wandb_init_arguments (w : world) (experiment : string)
    (config dc : gmap string value) (a : wandb_init_args) :
  config !! "data" = Some (VDict dc) →
  EWandbInit a ∈ trace (main w experiment config) →
  getitem2 config "wandb" "project" = Ok (wi_project a)
  ∧ getitem2 config "wandb" "entity" = Ok (wi_entity a)
  ∧ getitem2 config "wandb" "group" = Ok (wi_group a)
  ∧ (∃ name uts,
       getitem2 config "wandb" "name" = Ok (VStr name)
       ∧ apply_defaults dc !! "use_train_split" = Some uts
       ∧ wi_name a = name ++ (if truthy uts then "_Train_Split"
                              else "_NVS_Split"))
  ∧ wi_config a = <["data" := VDict (apply_defaults dc)]> config.
Proof.
  intros Hdata Hin.
  destruct (evaluate_call_in_main w experiment config _ Hin)
    as (device & rd & sp & dc' & l & params & _ & _ & _ & Hdc' & Hl & _ & Hev).
  { unfold evaluate_tags_list. cbn. repeat constructor. }
  rewrite Hdata in Hdc'. injection Hdc' as <-.
  destruct (load_dataset_ok w device dc l Hl) as (Hcfg & _).
  rewrite Hcfg in Hev.
  apply elem_of_evaluate_trace in Hev
    as (eval_dir & wandb_name & Hnames & Hev).
  rewrite Hcfg in Hnames.
  apply eval_names_ok in Hnames as (uts & name & Huts & Hname & _ & ->).
  rewrite getitem2_insert_ne in Hname by discriminate.
  assert (Hinit : EWandbInit a
            ∈ trace (init_wandb w
                       (<["data" := VDict (apply_defaults dc)]> config)
                       (name ++ (if truthy uts then "_Train_Split"
                                 else "_NVS_Split")))).
  { destruct Hev as [Hev|(run & _ & [Hev|[Hev|[Hev|Hev]]])];
      [exact Hev|discriminate Hev|discriminate Hev| |].
    - pose proof (dispatch_calls w
                    (<["data" := VDict (apply_defaults dc)]> config)
                    l params eval_dir run) as Hall.
      rewrite Forall_forall in Hall. destruct (Hall _ Hev).
    - exfalso. revert Hev. unfold close_wandb. run.
      all: intros Hev; try (by apply elem_of_nil in Hev).
      all: apply list_elem_of_singleton in Hev; discriminate Hev. }
  pose proof (init_wandb_calls w
                (<["data" := VDict (apply_defaults dc)]> config)
                (name ++ (if truthy uts then "_Train_Split"
                          else "_NVS_Split"))) as Hall.
  rewrite Forall_forall in Hall.
  destruct (Hall _ Hinit) as (Hn & Hc & Hp & He & Hg).
  rewrite getitem2_insert_ne in Hp, He, Hg by discriminate.
  do 3 (split; [assumption|]).
  split; [by exists name, uts|exact Hc].
Qed.

Lemma wandb_init_arguments_witness :
  getitem2 sample_config "wandb" "project"
  = Ok (wi_project sample_wandb_init_args)
  ∧ getitem2 sample_config "wandb" "entity"
    = Ok (wi_entity sample_wandb_init_args)
  ∧ getitem2 sample_config "wandb" "group"
    = Ok (wi_group sample_wandb_init_args)
  ∧ (∃ name uts,
       getitem2 sample_config "wandb" "name" = Ok (VStr name)
       ∧ apply_defaults sample_data !! "use_train_split" = Some uts
       ∧ wi_name sample_wandb_init_args
         = name ++ (if truthy uts then "_Train_Split" else "_NVS_Split"))
  ∧ wi_config sample_wandb_init_args
    = <["data" := VDict (apply_defaults sample_data)]> sample_config.
Proof.
  apply (wandb_init_arguments calm_world "configs/replica.py" sample_config
           sample_data sample_wandb_init_args).
  - vm_compute; reflexivity.
  - apply list_elem_of_lookup. exists 8%nat. vm_compute; reflexivity.
Defined.

Lemma close_wandb_calls (w : world) (config : gmap string value)
    (wandb_run : option run_handle) :
  Forall (λ ev, match ev with
                | EWandbFinish r => wandb_run = Some r
                | _ => False
                end)
         (trace (close_wandb w config wandb_run)).
Proof.
  unfold close_wandb. run.
  all: try (constructor; fail).
  all: constructor; [|constructor].
  all: destruct wandb_run as [r|]; [|discriminate].
  all: match goal with H : the_wandb_run _ = Ok _ |- _ =>
         by injection H as <- end.
Qed.

(** An evaluation call of the script is the call of the dispatch, made
    once "Init WandB" returned. *)
Lemma eval_call_in_dispatch (w : world) (experiment : string)
    (config : gmap string value) (ev : event) :
  ev ∈ trace (main w experiment config) →
  tag_of ev = TEval ∨ tag_of ev = TEvalNvs →
  ∃ device results_dir scene_path dc l params eval_dir wandb_name wandb_run,
    outcome (set_experiment_seed w config) = Ok device
    ∧ outcome (create_results_dir w experiment config) = Ok results_dir
    ∧ resolve_scene_path config = Ok scene_path
    ∧ config !! "data" = Some (VDict dc)
    ∧ outcome (load_dataset w device dc) = Ok l
    ∧ outcome (load_scene_data w (current_cuda_device w device) scene_path (l_params_opt_exclude l) "cuda")
      = Ok params
    ∧ eval_names (<["data" := VDict (l_dataset_config l)]> config)
        (l_dataset_config l) results_dir = Ok (eval_dir, wandb_name)
    ∧ outcome (init_wandb w (<["data" := VDict (l_dataset_config l)]> config)
                 wandb_name) = Ok wandb_run
    ∧ ev ∈ trace (dispatch w (<["data" := VDict (l_dataset_config l)]> config)
                    l params eval_dir wandb_run).
Proof.
  intros Hin Htag.
  destruct (evaluate_call_in_main w experiment config _ Hin)
    as (device & rd & sp & dc & l & params & Hsd & Hrd & Hsp & Hdc & Hl & Hp
        & Hev).
  { unfold evaluate_tags_list. destruct Htag as [-> | ->]; repeat constructor. }
  apply elem_of_evaluate_trace in Hev
    as (eval_dir & wandb_name & Hnames & Hev).
  exists device, rd, sp, dc, l, params, eval_dir, wandb_name.
  assert (Hne : ∀ ev', tag_of ev' ≠ TEval → tag_of ev' ≠ TEvalNvs →
                       ev = ev' → False).
  { intros ev' H1 H2 ->. by destruct Htag. }
  destruct Hev as [Hev|(run & Hrun & [Hev|[Hev|[Hev|Hev]]])].
  - exfalso.
    pose proof (init_wandb_calls w
                  (<["data" := VDict (l_dataset_config l)]> config)
                  wandb_name) as Hall.
    rewrite Forall_forall in Hall. specialize (Hall _ Hev).
    destruct ev; try contradiction. destruct Htag; discriminate.
  - exfalso. refine (Hne _ _ _ Hev); discriminate.
  - exfalso. refine (Hne _ _ _ Hev); discriminate.
  - exists run. by repeat split.
  - exfalso.
    pose proof (close_wandb_calls w
                  (<["data" := VDict (l_dataset_config l)]> config) run)
      as Hall.
    rewrite Forall_forall in Hall. specialize (Hall _ Hev).
    destruct ev; try contradiction. destruct Htag; discriminate.
Qed.

(** X13. What an evaluation call is given from the configuration:
    [sil_thres], [num_iters] and [add_new_gaussians] of the [mapping]
    record, [eval_every], and [save_frames=True]; with tracking on also
    the tracking run and [eval_save_qual] of the [wandb] record, with
    tracking off neither of the two. *)
Theorem evaluation_arguments (w : world) (experiment : string)
    (config : gmap string value) (a : eval_args) :
  EEval a ∈ trace (main w experiment config)
  ∨ EEvalNvs a ∈ trace (main w experiment config) →
  getitem2 config "mapping" "sil_thres" = Ok (ea_sil_thres a)
  ∧ getitem2 config "mapping" "num_iters" = Ok (ea_mapping_iters a)
  ∧ getitem2 config "mapping" "add_new_gaussians"
    = Ok (ea_add_new_gaussians a)
  ∧ config !! "eval_every" = Some (ea_eval_every a)
  ∧ ea_save_frames a = true
  ∧ ∃ use_wandb, config !! "use_wandb" = Some use_wandb
      ∧ if truthy use_wandb
        then ∃ run save_qual,
               ea_wandb_run a = Some run
               ∧ getitem2 config "wandb" "eval_save_qual" = Ok save_qual
               ∧ ea_wandb_save_qual a = Some save_qual
        else ea_wandb_run a = None ∧ ea_wandb_save_qual a = None.
Proof.
  intros Hin.
  assert (Hcall : ∃ l params eval_dir wandb_run ev,
            (ev = EEval a ∨ ev = EEvalNvs a)
            ∧ ev ∈ trace (dispatch w
                            (<["data" := VDict (l_dataset_config l)]> config)
                            l params eval_dir wandb_run)).
  { destruct Hin as [Hin|Hin].
    - destruct (eval_call_in_dispatch w experiment config _ Hin
                  ltac:(by left))
        as (_ & _ & _ & _ & l & params & eval_dir & _ & run & _ & _ & _ & _
            & _ & _ & _ & _ & Hev).
      exists l, params, eval_dir, run, (EEval a). eauto.
    - destruct (eval_call_in_dispatch w experiment config _ Hin
                  ltac:(by right))
        as (_ & _ & _ & _ & l & params & eval_dir & _ & run & _ & _ & _ & _
            & _ & _ & _ & _ & Hev).
      exists l, params, eval_dir, run, (EEvalNvs a). eauto. }
  destruct Hcall as (l & params & eval_dir & run & ev & Hev & Hd).
  pose proof (dispatch_calls w
                (<["data" := VDict (l_dataset_config l)]> config)
                l params eval_dir run) as Hall.
  rewrite Forall_forall in Hall. specialize (Hall _ Hd).
  assert (Hfrom : evaluation_from
                    (<["data" := VDict (l_dataset_config l)]> config) run
                    (EEval a)).
  { by destruct Hev as [-> | ->]. }
  destruct Hfrom as (H1 & H2 & H3 & H4 & H5 & uw & Huw & Hrun).
  rewrite getitem2_insert_ne in H1, H2, H3 by discriminate.
  rewrite lookup_insert_ne in H4, Huw by discriminate.
  do 5 (split; [assumption|]).
  exists uw. split; [exact Huw|].
  destruct (truthy uw); [|exact Hrun].
  destruct Hrun as (r & q & _ & Hr & Hq & Hsq).
  rewrite getitem2_insert_ne in Hq by discriminate.
  by exists r, q.
Qed.

Lemma sample_eval_call :
  EEval sample_eval_args
    ∈ trace (main calm_world "configs/replica.py" sample_config).
Proof.
  apply list_elem_of_lookup. exists 10%nat. vm_compute; reflexivity.
Defined.

Lemma evaluation_arguments_witness :
  getitem2 sample_config "mapping" "sil_thres"
  = Ok (ea_sil_thres sample_eval_args)
  ∧ getitem2 sample_config "mapping" "num_iters"
    = Ok (ea_mapping_iters sample_eval_args)
  ∧ getitem2 sample_config "mapping" "add_new_gaussians"
    = Ok (ea_add_new_gaussians sample_eval_args)
  ∧ sample_config !! "eval_every" = Some (ea_eval_every sample_eval_args)
  ∧ ea_save_frames sample_eval_args = true
  ∧ ∃ use_wandb, sample_config !! "use_wandb" = Some use_wandb
      ∧ if truthy use_wandb
        then ∃ run save_qual,
               ea_wandb_run sample_eval_args = Some run
               ∧ getitem2 sample_config "wandb" "eval_save_qual"
                 = Ok save_qual
               ∧ ea_wandb_save_qual sample_eval_args = Some save_qual
        else ea_wandb_run sample_eval_args = None
             ∧ ea_wandb_save_qual sample_eval_args = None.
Proof.
  apply (evaluation_arguments calm_world "configs/replica.py" sample_config
           sample_eval_args).
  left. exact sample_eval_call.
Defined.

(** The calls of "Load Dataset" and of the last part are calls of the
    script, once the phases before them returned. *)
Lemma phase_calls_in_main (w : world) (experiment : string)
    (config dc : gmap string value) (device : value) (results_dir : string)
    (scene_path : value) :
  outcome (set_experiment_seed w config) = Ok device →
  outcome (create_results_dir w experiment config) = Ok results_dir →
  resolve_scene_path config = Ok scene_path →
  config !! "data" = Some (VDict dc) →
  (∀ ev, ev ∈ trace (load_dataset w device dc) →
         ev ∈ trace (main w experiment config))
  ∧ (∀ l params ev,
       outcome (load_dataset w device dc) = Ok l →
       outcome (load_scene_data w (current_cuda_device w device) scene_path (l_params_opt_exclude l) "cuda")
       = Ok params →
       ev ∈ trace (evaluate w
                     (<["data" := VDict (l_dataset_config l)]> config)
                     l params results_dir) →
       ev ∈ trace (main w experiment config)).
Proof.
  intros Hsd Hrd Hsp Hdc. rewrite main_trace, Hsd, Hrd, Hsp.
  unfold getitem. rewrite Hdc. split.
  - intros ev Hev. apply elem_of_app. right. apply elem_of_app. right.
    apply elem_of_cons. right. apply elem_of_app. by left.
  - intros l params ev Hl Hp Hev. rewrite Hl, Hp.
    apply elem_of_app. right. apply elem_of_app. right.
    apply elem_of_cons. right. apply elem_of_app. right.
    apply elem_of_cons. by right.
Qed.

Lemma init_calls_in_evaluate (w : world) (config : gmap string value)
    (l : loaded) (params : gmap string pval) (results_dir : string)
    (eval_dir wandb_name : string) (ev : event) :
  eval_names config (l_dataset_config l) results_dir
  = Ok (eval_dir, wandb_name) →
  ev ∈ trace (init_wandb w config wandb_name) →
  ev ∈ trace (evaluate w config l params results_dir).
Proof.
  intros Hnames Hev. unfold evaluate. rewrite trace_bind_lift, Hnames.
  rewrite trace_bind.
  destruct (outcome (init_wandb w config wandb_name)); [|exact Hev].
  apply elem_of_app. by left.
Qed.

Lemma init_wandb_returned (w : world) (config : gmap string value)
    (wandb_name : string) (r : run_handle) :
  outcome (init_wandb w config wandb_name) = Ok (Some r) →
  ∃ a, EWandbInit a ∈ trace (init_wandb w config wandb_name)
       ∧ w_wandb_init w a = Ok r.
Proof.
  intros Hok.
  destruct (init_wandb_inv w config wandb_name)
    as [(_ & e & He)|[(uw & a & e & _ & _ & _ & _ & He)
                     |(init & run & Hs & Ht & Ho)]].
  - rewrite He in Hok. discriminate Hok.
  - rewrite He in Hok. discriminate Hok.
  - rewrite Ho in Hok. injection Hok as ->.
    destruct Hs as (uw & _ & [(_ & _ & Hnone)|(_ & a & r' & -> & Hinit & _
                                               & Hsome)]);
      [discriminate Hnone|].
    injection Hsome as <-. exists a. split; [|exact Hinit].
    rewrite Ht. by left.
Qed.

(** X14. What the calls hand on to each other. The dataset an
    evaluation call gets is the one a constructor call of the script
    returned, with the arguments of that call; a tracking run it gets is
    the one a [wandb.init] call of the script returned; and the run that
    is finished is such a run too. *)
Theorem results_handed_on (w : world) (experiment : string)
    (config : gmap string value) :
  (∀ a, EEval a ∈ trace (main w experiment config)
        ∨ EEvalNvs a ∈ trace (main w experiment config) →
     EDatasetInit (ds_class (ea_dataset a)) (ds_config (ea_dataset a))
       (ds_basedir (ea_dataset a)) (ds_sequence (ea_dataset a))
       (ds_kwargs (ea_dataset a)) ∈ trace (main w experiment config)
     ∧ w_dataset_init w (ds_class (ea_dataset a)) (ds_config (ea_dataset a))
         (ds_basedir (ea_dataset a)) (ds_sequence (ea_dataset a))
         (ds_kwargs (ea_dataset a)) = Ok (ds_len (ea_dataset a))
     ∧ ∀ r, ea_wandb_run a = Some r →
            ∃ ia, EWandbInit ia ∈ trace (main w experiment config)
                  ∧ w_wandb_init w ia = Ok r)
  ∧ (∀ r, EWandbFinish r ∈ trace (main w experiment config) →
          ∃ ia, EWandbInit ia ∈ trace (main w experiment config)
                ∧ w_wandb_init w ia = Ok r).
Proof.
  split.
  - intros a Hin.
    assert (Hcall : ∃ ev, (ev = EEval a ∨ ev = EEvalNvs a)
              ∧ ev ∈ trace (main w experiment config)
              ∧ (tag_of ev = TEval ∨ tag_of ev = TEvalNvs)).
    { destruct Hin as [Hin|Hin]; eexists; (split; [|split; [exact Hin|]]);
        [by left|by left|by right|by right]. }
    destruct Hcall as (ev & Hev & Hin' & Htag).
    destruct (eval_call_in_dispatch w experiment config _ Hin' Htag)
      as (device & rd & sp & dc & l & params & eval_dir & wandb_name & run
          & Hsd & Hrd & Hsp & Hdc & Hl & Hp & Hnames & Hrun & Hd).
    destruct (phase_calls_in_main w experiment config dc device rd sp
                Hsd Hrd Hsp Hdc) as [Hld Hevm].
    assert (Hargs : ea_dataset a = l_dataset l
              ∧ ∀ r, ea_wandb_run a = Some r → run = Some r).
    { pose proof (dispatch_calls w
                    (<["data" := VDict (l_dataset_config l)]> config)
                    l params eval_dir run) as Hall.
      rewrite Forall_forall in Hall. specialize (Hall _ Hd).
      assert (Hds : ∀ ev', ev' ∈ trace (dispatch w
                       (<["data" := VDict (l_dataset_config l)]> config)
                       l params eval_dir run) →
                match ev' with
                | EEval a' | EEvalNvs a' => ea_dataset a' = l_dataset l
                | _ => True
                end).
      { apply Forall_forall. unfold dispatch. run.
        all: repeat constructor. }
      specialize (Hds _ Hd).
      assert (Hfrom : evaluation_from
                (<["data" := VDict (l_dataset_config l)]> config) run
                (EEval a) ∧ ea_dataset a = l_dataset l).
      { by destruct Hev as [-> | ->]. }
      destruct Hfrom as [(_ & _ & _ & _ & _ & uw & _ & Hr) Hdata].
      split; [exact Hdata|]. intros r Hr'.
      destruct (truthy uw).
      - destruct Hr as (r0 & q & -> & Hr0 & _). congruence.
      - destruct Hr as [Hr _]. congruence. }
    destruct Hargs as [Hds Hr]. rewrite Hds.
    destruct (load_dataset_inv w device dc)
      as (pre & _ & [(_ & e & He)|(cls & cfg & basedir & sequence & kw & ls
           & nsc & excl & _ & _ & _ & _ & _ & _ & _ & Ht & Hout)]).
    { rewrite He in Hl. discriminate Hl. }
    pose proof Hl as Hl0. rewrite Hout in Hl.
    destruct (w_dataset_init w cls cfg basedir sequence kw) as [n|] eqn:Hn;
      [|discriminate Hl].
    destruct (apply_defaults dc !! "num_frames") as [v|];
      [|discriminate Hl].
    injection Hl as <-. cbn [l_dataset ds_class ds_config ds_basedir
                             ds_sequence ds_kwargs ds_len].
    split; [|split; [exact Hn|]].
    + apply Hld. rewrite Ht. apply elem_of_app. right. by left.
    + intros r Hr'. specialize (Hr r Hr'). subst run.
      destruct (init_wandb_returned w _ _ r Hrun) as (ia & Hia & Hinit).
      exists ia. split; [|exact Hinit].
      eapply Hevm; [exact Hl0|exact Hp|].
      by eapply init_calls_in_evaluate.
  - intros r Hin.
    destruct (evaluate_call_in_main w experiment config _ Hin)
      as (device & rd & sp & dc & l & params & Hsd & Hrd & Hsp & Hdc & Hl
          & Hp & Hev).
    { unfold evaluate_tags_list. cbn. repeat constructor. }
    destruct (phase_calls_in_main w experiment config dc device rd sp
                Hsd Hrd Hsp Hdc) as [_ Hevm].
    apply elem_of_evaluate_trace in Hev
      as (eval_dir & wandb_name & Hnames & Hev).
    destruct Hev as [Hev|(run & Hrun & [Hev|[Hev|[Hev|Hev]]])].
    + pose proof (init_wandb_calls w
                    (<["data" := VDict (l_dataset_config l)]> config)
                    wandb_name) as Hall.
      rewrite Forall_forall in Hall. destruct (Hall _ Hev).
    + discriminate Hev.
    + discriminate Hev.
    + pose proof (dispatch_calls w
                    (<["data" := VDict (l_dataset_config l)]> config)
                    l params eval_dir run) as Hall.
      rewrite Forall_forall in Hall. destruct (Hall _ Hev).
    + pose proof (close_wandb_calls w
                    (<["data" := VDict (l_dataset_config l)]> config) run)
        as Hall.
      rewrite Forall_forall in Hall. specialize (Hall _ Hev). cbn in Hall.
      subst run.
      destruct (init_wandb_returned w _ _ r Hrun) as (ia & Hia & Hinit).
      exists ia. split; [|exact Hinit].
      eapply Hevm; [exact Hl|exact Hp|].
      by eapply init_calls_in_evaluate.
Qed.

Lemma results_handed_on_witness :
  EDatasetInit (ds_class (ea_dataset sample_eval_args))
    (ds_config (ea_dataset sample_eval_args))
    (ds_basedir (ea_dataset sample_eval_args))
    (ds_sequence (ea_dataset sample_eval_args))
    (ds_kwargs (ea_dataset sample_eval_args))
    ∈ trace (main calm_world "configs/replica.py" sample_config)
  ∧ w_dataset_init calm_world (ds_class (ea_dataset sample_eval_args))
      (ds_config (ea_dataset sample_eval_args))
      (ds_basedir (ea_dataset sample_eval_args))
      (ds_sequence (ea_dataset sample_eval_args))
      (ds_kwargs (ea_dataset sample_eval_args))
    = Ok (ds_len (ea_dataset sample_eval_args))
  ∧ ∀ r, ea_wandb_run sample_eval_args = Some r →
         ∃ ia, EWandbInit ia
                 ∈ trace (main calm_world "configs/replica.py" sample_config)
               ∧ w_wandb_init calm_world ia = Ok r.
Proof.
  exact (proj1 (results_handed_on calm_world "configs/replica.py"
                  sample_config)
           sample_eval_args (or_introl sample_eval_call)).
Defined.

(** ** The devices *)

Lemma set_experiment_seed_ok (w : world) (config : gmap string value)
    (device : value) :
  outcome (set_experiment_seed w config) = Ok device →
  config !! "primary_device" = Some device ∧ ∃ s, device = VStr s.
Proof.
  rewrite set_experiment_seed_run. unfold getitem. intros Hseed.
  destruct (config !! "seed") as [seed|]; [|discriminate Hseed].
  destruct (w_seed_everything w seed) as [[]|]; [|discriminate Hseed].
  destruct (config !! "primary_device") as [pd|]; [|discriminate Hseed].
  destruct (w_torch_device w pd) as [[]|]; [|discriminate Hseed].
  destruct pd as [| | | |s|]; try discriminate Hseed.
  destruct (startswith "cuda:" s).
  2: { injection Hseed as <-. split; [reflexivity|by exists s]. }
  destruct (split_colon_1 s) as [field|]; [|discriminate Hseed].
  destruct (w_int w field) as [id|]; [|discriminate Hseed].
  unfold outcome in Hseed. cbn [snd] in Hseed.
  destruct (w_cuda_set_device w id) as [[]|]; [|discriminate Hseed].
  injection Hseed as <-. split; [reflexivity|by exists s].
Qed.

(** What the dispatch passes on from the earlier phases. *)
Lemma dispatch_passes (w : world) (config : gmap string value) (l : loaded)
    (params : gmap string pval) (eval_dir : string)
    (wandb_run : option run_handle) :
  Forall (λ ev, match ev with
                | EEval a | EEvalNvs a =>
                    ea_dataset a = l_dataset l ∧ ea_params a = params
                | _ => True
                end)
         (trace (dispatch w config l params eval_dir wandb_run)).
Proof.
  unfold dispatch. run.
  all: repeat constructor.
Qed.

(** X15. The parameters an evaluation call gets are all on the current
    CUDA device, which is what the index-less ["cuda"] of
    [load_scene_data] names: the device "Set Experiment Seed" selected
    when [primary_device] is ["cuda:<id>"], and device 0 otherwise, for
    instance when [primary_device] is ["cpu"]. The dataset of the same
    call was constructed for [primary_device]. *)
Theorem evaluation_devices (w : world) (experiment : string)
    (config : gmap string value) (a : eval_args) :
  EEval a ∈ trace (main w experiment config)
  ∨ EEvalNvs a ∈ trace (main w experiment config) →
  ∃ primary_device,
    config !! "primary_device" = Some (VStr primary_device)
    ∧ kw_device (ds_kwargs (ea_dataset a)) = VStr primary_device
    ∧ (∀ k x, ea_params a !! k = Some x →
         ∃ t, x = PTen t
              ∧ t_device t
                = "cuda:" ++ pretty (current_cuda_device w
                                       (VStr primary_device))
              ∧ (startswith "cuda:" primary_device = false →
                 t_device t = "cuda:0")).
Proof.
  intros Hin.
  assert (Hcall : ∃ ev, (ev = EEval a ∨ ev = EEvalNvs a)
            ∧ ev ∈ trace (main w experiment config)
            ∧ (tag_of ev = TEval ∨ tag_of ev = TEvalNvs)).
  { destruct Hin as [Hin|Hin]; eexists; (split; [|split; [exact Hin|]]);
      [by left|by left|by right|by right]. }
  destruct Hcall as (ev & Hev & Hin' & Htag).
  destruct (eval_call_in_dispatch w experiment config _ Hin' Htag)
    as (device & rd & sp & dc & l & params & eval_dir & wandb_name & run
        & Hsd & _ & _ & _ & Hl & Hp & _ & _ & Hd).
  pose proof (dispatch_passes w
                (<["data" := VDict (l_dataset_config l)]> config)
                l params eval_dir run) as Hall.
  rewrite Forall_forall in Hall. specialize (Hall _ Hd).
  assert (Hargs : ea_dataset a = l_dataset l ∧ ea_params a = params)
    by (by destruct Hev as [-> | ->]).
  destruct Hargs as [Hds Hpar]. rewrite Hds, Hpar.
  destruct (set_experiment_seed_ok w config device Hsd) as [Hpd [s ->]].
  exists s. split; [exact Hpd|]. split.
  - destruct (load_dataset_inv w (VStr s) dc)
      as (pre & _ & [(_ & e & He)|(cls & cfg & basedir & sequence & kw & ls
           & nsc & excl & _ & _ & _ & _ & _ & Hdev & _ & _ & Hout)]).
    { rewrite He in Hl. discriminate Hl. }
    rewrite Hout in Hl.
    destruct (w_dataset_init w cls cfg basedir sequence kw) as [n|];
      [|discriminate Hl].
    destruct (apply_defaults dc !! "num_frames") as [v|];
      [|discriminate Hl].
    injection Hl as <-. cbn [l_dataset ds_kwargs]. exact Hdev.
  - destruct (load_scene_data_ok w _ sp _ "cuda" params Hp)
      as (archive & _ & Hk).
    intros k x Hx. specialize (Hk k).
    destruct (archive !! k) as [arr|]; [|congruence].
    destruct Hk as (d & _ & Hpk). rewrite Hpk in Hx. injection Hx as <-.
    eexists. split; [reflexivity|]. split; [reflexivity|].
    intros Hcpu.
    change (resolve_device (current_cuda_device w (VStr s)) "cuda"
            = "cuda:0").
    cbv beta match delta [current_cuda_device]. by rewrite Hcpu.
Qed.

Lemma sample_eval_call_cpu :
  EEval sample_eval_args_cpu
    ∈ trace (main calm_world "configs/replica.py" sample_config_cpu).
Proof.
  apply list_elem_of_lookup. exists 9%nat. vm_compute; reflexivity.
Defined.

Lemma evaluation_devices_witness :
  ∃ primary_device,
    sample_config_cpu !! "primary_device" = Some (VStr primary_device)
    ∧ kw_device (ds_kwargs (ea_dataset sample_eval_args_cpu))
      = VStr primary_device
    ∧ (∀ k x, ea_params sample_eval_args_cpu !! k = Some x →
         ∃ t, x = PTen t
              ∧ t_device t
                = "cuda:" ++ pretty (current_cuda_device calm_world
                                       (VStr primary_device))
              ∧ (startswith "cuda:" primary_device = false →
                 t_device t = "cuda:0")).
Proof.
  apply (evaluation_devices calm_world "configs/replica.py"
           sample_config_cpu sample_eval_args_cpu).
  left. exact sample_eval_call_cpu.
Defined.

(** ** The [wandb] name *)

(** X16. The name of the [wandb] record is read whether tracking is on
    or off: without a string under [config["wandb"]["name"]] the script
    raises, and opens no tracking run, enters no [no_grad] scope and
    evaluates nothing. *)
Theorem wandb_name_required (w : world) (experiment : string)
    (config : gmap string value) :
  (∀ name, getitem2 config "wandb" "name" ≠ Ok (VStr name)) →
  only evaluate_tags_list (trace (main w experiment config)) = []
  ∧ ∃ e, outcome (main w experiment config) = Raise e.
Proof.
  intros Hname.
  destruct (main_evaluate_calls w experiment config)
    as [[Hnone He]|(device & rd & sp & dc & l & params & _ & _ & _ & _ & _
                    & _ & Honly & Hout)].
  - split; [|exact He]. apply Hnone. apply evaluation_tags_not_setup.
  - rewrite (Honly evaluate_tags_list evaluation_tags_not_setup), Hout.
    unfold evaluate. rewrite trace_bind_lift, outcome_bind_lift.
    destruct (eval_names (<["data" := VDict (l_dataset_config l)]> config)
                (l_dataset_config l) rd) as [[eval_dir wandb_name]|e]
      eqn:Hnames.
    + apply eval_names_ok in Hnames as (uts & name & _ & Hn & _).
      rewrite getitem2_insert_ne in Hn by discriminate.
      by destruct (Hname name).
    + split; [reflexivity|by exists e].
Qed.

Lemma wandb_name_required_witness :
  only evaluate_tags_list
    (trace (main calm_world "configs/replica.py" sample_config_no_wandb)) = []
  ∧ ∃ e, outcome (main calm_world "configs/replica.py" sample_config_no_wandb)
         = Raise e.
Proof.
  apply (wandb_name_required calm_world "configs/replica.py"
           sample_config_no_wandb).
  intros name H. vm_compute in H. discriminate H.
Defined.

(** ** The [no_grad] scope *)

(** X17. Evaluation happens inside the [torch.no_grad()] scope only: the
    script enters the scope at most once, makes its one evaluation call
    inside it, if any, and leaves it, also when the evaluation raises or
    is never reached. *)
Theorem no_grad_scope (w : world) (experiment : string)
    (config : gmap string value) :
  tag_of <$> only [TNoGradEnter; TEval; TEvalNvs; TNoGradExit]
               (trace (main w experiment config))
  ∈ no_grad_scopes.
Proof.
  assert (Hgs : ∀ g, g ∈ [TNoGradEnter; TEval; TEvalNvs; TNoGradExit] →
                     g ∉ setup_tags).
  { intros g Hg. apply evaluation_tags_not_setup. unfold evaluate_tags_list.
    repeat (apply elem_of_cons in Hg as [->|Hg]; [repeat constructor|]).
    by apply elem_of_nil in Hg. }
  destruct (main_evaluate_calls w experiment config)
    as [[Hnone _]|(device & rd & sp & dc & l & params & _ & _ & _ & _ & _
                   & _ & Honly & _)].
  - rewrite (Hnone _ Hgs). unfold no_grad_scopes. by left.
  - rewrite (Honly _ Hgs).
    pose proof (evaluate_inv w
                  (<["data" := VDict (l_dataset_config l)]> config)
                  l params rd) as Hrun.
    invert_evaluate_run Hrun;
      repeat match goal with
             | |- context [only ?gs ?t] =>
                 let n := eval vm_compute in (only gs t) in
                 change (only gs t) with n
             end;
      unfold no_grad_scopes; cbn [fmap list_fmap tag_of];
      repeat constructor.
Qed.

(** ** The calls of a run that completes *)

Lemma set_experiment_seed_returned (w : world) (config : gmap string value)
    (device : value) :
  outcome (set_experiment_seed w config) = Ok device →
  tag_of <$> trace (set_experiment_seed w config)
  = ([TSeedEverything; TTorchDevice]
     ++ match config !! "primary_device" with
        | Some (VStr s) =>
            if startswith "cuda:" s then [TCudaSetDevice] else []
        | _ => []
        end)%list.
Proof.
  rewrite set_experiment_seed_run. unfold getitem. intros Hseed.
  destruct (config !! "seed") as [seed|]; [|discriminate Hseed].
  destruct (w_seed_everything w seed) as [[]|]; [|discriminate Hseed].
  destruct (config !! "primary_device") as [pd|]; [|discriminate Hseed].
  destruct (w_torch_device w pd) as [[]|]; [|discriminate Hseed].
  destruct pd as [| | | |s|]; try discriminate Hseed.
  destruct (startswith "cuda:" s); [|reflexivity].
  destruct (split_colon_1 s) as [field|]; [|discriminate Hseed].
  destruct (w_int w field) as [id|]; [|discriminate Hseed].
  reflexivity.
Qed.

Lemma create_results_dir_returned (w : world) (experiment : string)
    (config : gmap string value) (results_dir : string) :
  outcome (create_results_dir w experiment config) = Ok results_dir →
  tag_of <$> trace (create_results_dir w experiment config)
  = match config !! "load_checkpoint" with
    | Some load_checkpoint =>
        if truthy load_checkpoint then [] else [TMakedirs; TCopy]
    | None => []
    end.
Proof.
  rewrite create_results_dir_run. unfold getitem. intros Hok.
  destruct (results_dir_of config) as [rd|]; [|discriminate Hok].
  destruct (config !! "load_checkpoint") as [lc|]; [|discriminate Hok].
  destruct (truthy lc); [reflexivity|].
  destruct (w_makedirs w rd true); [reflexivity|discriminate Hok].
Qed.

Lemma load_dataset_returned (w : world) (device : value)
    (dc : gmap string value) (l : loaded) :
  outcome (load_dataset w device dc) = Ok l →
  tag_of <$> trace (load_dataset w device dc)
  = ((if has_key dc "gradslam_data_cfg" then [TLoadDatasetConfig] else [])
     ++ [TDatasetInit])%list.
Proof.
  set (gradslam :=
    (if negb (has_key dc "gradslam_data_cfg") then
       name ← lift (getitem dc "dataset_name");
       mret (VDict (<["dataset_name" := name]> ∅))
     else
       path ← lift (getitem dc "gradslam_data_cfg");
       call (ELoadDatasetConfig path) (w_load_dataset_config w path)) : M value).
  assert (Hg : ∀ gcfg, outcome gradslam = Ok gcfg →
            tag_of <$> trace gradslam
            = if has_key dc "gradslam_data_cfg" then [TLoadDatasetConfig]
              else []).
  { unfold gradslam, has_key, getitem.
    destruct (dc !! "gradslam_data_cfg") as [p|]; cbn [negb].
    - by rewrite trace_bind_lift, trace_call.
    - destruct (dc !! "dataset_name") as [name|].
      + by rewrite trace_bind_lift, trace_ret.
      + by rewrite trace_bind_lift. }
  assert (Hld : load_dataset w device dc
    = gradslam ≫= λ gradslam_data_cfg,
      let dataset_config := apply_defaults dc in
      '(load_semantics, num_semantic_classes, params_opt_exclude) ←
        lift (semantics_config dataset_config);
      basedir ← lift (getitem dataset_config "basedir");
      sequence ← lift (getitem dataset_config "sequence");
      sequence ← lift (as_str sequence);
      start ← lift (getitem dataset_config "start");
      end_ ← lift (getitem dataset_config "end");
      stride ← lift (getitem dataset_config "stride");
      desired_height ← lift (getitem dataset_config "desired_image_height");
      desired_width ← lift (getitem dataset_config "desired_image_width");
      ignore_bad ← lift (getitem dataset_config "ignore_bad");
      use_train_split ← lift (getitem dataset_config "use_train_split");
      dataset ← get_dataset w gradslam_data_cfg basedir (basename sequence)
        {| kw_start := start; kw_end := end_; kw_stride := stride;
           kw_desired_height := desired_height;
           kw_desired_width := desired_width;
           kw_device := device; kw_relative_pose := true;
           kw_ignore_bad := ignore_bad;
           kw_use_train_split := use_train_split;
           kw_load_semantics := load_semantics;
           kw_num_semantic_classes := num_semantic_classes |};
      num_frames ← lift (getitem dataset_config "num_frames");
      let num_frames :=
        if py_eq_int num_frames (-1) then VInt (Z.of_nat (ds_len dataset))
        else num_frames in
      mret {| l_dataset_config := dataset_config;
              l_load_semantics := load_semantics;
              l_params_opt_exclude := params_opt_exclude;
              l_dataset := dataset;
              l_num_frames := num_frames |}) by reflexivity.
  rewrite Hld. clear Hld. revert Hg. generalize gradslam. clear gradslam.
  intros gradslam Hg. rewrite trace_bind, outcome_bind.
  destruct (outcome gradslam) as [gcfg|e]; [|discriminate].
  rewrite fmap_app, (Hg gcfg eq_refl). clear Hg.
  cbv zeta.
  rewrite trace_bind_lift, outcome_bind_lift.
  destruct (semantics_config (apply_defaults dc)) as [[[ls nsc] excl]|e];
    [|discriminate].
  repeat (rewrite trace_bind_lift, outcome_bind_lift;
          match goal with
          | |- context [match ?r with Ok _ => _ | Raise _ => _ end] =>
              destruct r; [|discriminate]
          end).
  rewrite trace_bind, outcome_bind.
  match goal with
  | |- context [get_dataset w ?c ?b ?s ?k] =>
      destruct (get_dataset_cases w c b s k) as [[e He]|(cls & cfg & He)];
        rewrite He; clear He
  end.
  { rewrite outcome_raise. discriminate. }
  rewrite construct_trace, construct_outcome.
  match goal with
  | |- context [w_dataset_init w ?a ?b ?c ?d ?e] =>
      destruct (w_dataset_init w a b c d e) as [n|e']
  end; [|discriminate].
  rewrite trace_bind_lift, outcome_bind_lift.
  destruct (getitem (apply_defaults dc) "num_frames"); [|discriminate].
  intros _. reflexivity.
Qed.

Lemma evaluate_returned (w : world) (config : gmap string value) (l : loaded)
    (params : gmap string pval) (results_dir : string) :
  outcome (evaluate w config l params results_dir) = Ok tt →
  ∃ uw uts,
    config !! "use_wandb" = Some uw
    ∧ l_dataset_config l !! "use_train_split" = Some uts
    ∧ tag_of <$> trace (evaluate w config l params results_dir)
      = ((if truthy uw then [TWandbInit] else [])
         ++ [TNoGradEnter; if truthy uts then TEval else TEvalNvs;
             TNoGradExit]
         ++ (if truthy uw then [TWandbFinish] else []))%list.
Proof.
  intros Hok.
  pose proof (evaluate_inv w config l params results_dir) as Hrun.
  rewrite Hok in Hrun.
  remember (trace (evaluate w config l params results_dir)) as t eqn:Ht.
  clear Ht Hok.
  inversion Hrun as [| | | |init run ev Hs Hc Hinit Hfin]; subst.
  destruct Hs as (uw & Huw & Hs).
  destruct Hc as (uts & a & Huts & _ & _ & _ & _ & _ & _ & Hev).
  exists uw, uts. split; [exact Huw|]. split; [exact Huts|].
  destruct Hs as [(Hf & -> & ->)|(Ht & ia & r & -> & _ & _ & ->)];
    [rewrite Hf|rewrite Ht];
    destruct Hev as [(Hu & -> & _)|(Hu & -> & _)]; rewrite Hu;
    reflexivity.
Qed.

(** X18. A run that completes made exactly the calls of
    [completed_run_calls], in that order: the seeding and the device, the
    CUDA device selection for a ["cuda:"] name, the results directory and
    the config copy unless resuming, the message, the dataset config file
    if one is named, one dataset constructor, one [np.load], and the one
    evaluation inside the [no_grad] scope, between [wandb.init] and
    [finish] when tracking is on. *)
Theorem completed_run_order (w : world) (experiment : string)
    (config : gmap string value) :
  outcome (main w experiment config) = Ok tt →
  tag_of <$> trace (main w experiment config) = completed_run_calls config.
Proof.
  rewrite main_trace, main_outcome. unfold completed_run_calls.
  intros Hok.
  destruct (outcome (set_experiment_seed w config)) as [device|] eqn:Hsd;
    [|discriminate Hok].
  rewrite fmap_app, (set_experiment_seed_returned w config device Hsd).
  rewrite <- app_assoc. do 2 f_equal.
  destruct (outcome (create_results_dir w experiment config)) as [rd|] eqn:Hrd;
    [|discriminate Hok].
  rewrite fmap_app, (create_results_dir_returned w experiment config rd Hrd).
  f_equal.
  destruct (resolve_scene_path config) as [sp|]; [|discriminate Hok].
  unfold getitem in *.
  destruct (config !! "data") as [[| | | | |dc]|]; try discriminate Hok.
  cbn [fmap list_fmap tag_of app]. f_equal.
  destruct (outcome (load_dataset w device dc)) as [l|] eqn:Hl;
    [|discriminate Hok].
  rewrite fmap_app, (load_dataset_returned w device dc l Hl).
  rewrite <- !app_assoc. f_equal. cbn [fmap list_fmap tag_of app]. do 2 f_equal.
  destruct (outcome (load_scene_data w (current_cuda_device w device) sp (l_params_opt_exclude l) "cuda"))
    as [params|]; [|discriminate Hok].
  destruct (evaluate_returned w _ l params rd Hok)
    as (uw & uts & Huw & Huts & ->).
  rewrite lookup_insert_ne in Huw by discriminate.
  destruct (load_dataset_ok w device dc l Hl) as (Hcfg & _).
  rewrite Hcfg in Huts. by rewrite Huw, Huts.
Qed.

Lemma completed_run_order_witness :
  tag_of <$> trace (main calm_world "configs/replica.py" sample_config)
  = completed_run_calls sample_config.
Proof.
  apply (completed_run_order calm_world "configs/replica.py" sample_config).
  vm_compute; reflexivity.
Defined.
